(** * go-tmpl: the template dependency store and its cascading rebuild

    A shallow embedding of [tmpl.go] ([AddTemplate], [PutTemplate],
    [ExecuteTemplate], [getTemplate], [saveTemplate], [checkName],
    [rebuildChildTemplates]) and of the metadata half of the package
    ([tmplData], [tmplFilename], [saveTemplateDataToDB],
    [handleWatcherEvents]).

    Go strings are byte strings, so they are Rocq [string]s.  The registry
    [map[string]*template.Template] is a [gmap]; the memdb table [tmplData]
    is a [gmap] under its primary key, the table [tmplFilename] a list of
    rows.  A method on [*TplSys] is a function in a state-and-error monad
    over the store.  The template engine ([html/template]), the file watcher
    ([fsnotify]) and the files on disk are collaborators behind a class, with
    a small reference model to run the calls on.  The recursion of
    [rebuildChildTemplates] is given fuel.

    Calls run one after the other, and the goroutine [handleWatcherEvents]
    handles the messages it receives between two calls: the mutex is not
    modelled. *)

From Stdlib Require Import Ascii String.
From stdpp Require Import base tactics option list strings gmap sets relations sorting.

Local Open Scope string_scope.

(** ** Package [strings] of the Go library, on byte strings *)

(** [cutPrefix s prefix] is [Some rest] when [s = prefix ++ rest]. *)
Fixpoint cutPrefix (s prefix : string) {struct prefix} : option string :=
  match prefix with
  | EmptyString => Some s
  | String c p =>
      match s with
      | EmptyString => None
      | String d s' => if Ascii.eqb c d then cutPrefix s' p else None
      end
  end.

Definition HasPrefix (s prefix : string) : bool :=
  match cutPrefix s prefix with Some _ => true | None => false end.

(** [strings.TrimPrefix]: [s] without the leading [prefix], or [s] itself. *)
Definition TrimPrefix (s prefix : string) : string :=
  match cutPrefix s prefix with Some rest => rest | None => s end.

(** [unicode.IsSpace] on the UTF-8 encoding: the one-, two- and three-byte
    sequences that encode a white-space code point.
    One byte: TAB, LF, VT, FF, CR, SPACE.  Two bytes: U+0085, U+00A0.
    Three bytes: U+1680, U+2000..U+200A, U+2028, U+2029, U+202F, U+205F,
    U+3000. *)
Definition space1 (a : nat) : bool :=
  (Nat.leb 9 a && Nat.leb a 13) || Nat.eqb a 32.

Definition space2 (a b : nat) : bool :=
  Nat.eqb a 194 && (Nat.eqb b 133 || Nat.eqb b 160).

Definition space3 (a b c : nat) : bool :=
  (Nat.eqb a 225 && Nat.eqb b 154 && Nat.eqb c 128)
  || (Nat.eqb a 226 && Nat.eqb b 128
      && ((Nat.leb 128 c && Nat.leb c 138)
          || Nat.eqb c 168 || Nat.eqb c 169 || Nat.eqb c 175))
  || (Nat.eqb a 226 && Nat.eqb b 129 && Nat.eqb c 159)
  || (Nat.eqb a 227 && Nat.eqb b 128 && Nat.eqb c 128).

(** [strings.TrimLeftFunc(s, unicode.IsSpace)] on the bytes. *)
Fixpoint trimLeftSpace (l : list nat) : list nat :=
  match l with
  | a :: l1 =>
      if space1 a then trimLeftSpace l1
      else match l1 with
           | b :: l2 =>
               if space2 a b then trimLeftSpace l2
               else match l2 with
                    | c :: l3 => if space3 a b c then trimLeftSpace l3 else l
                    | [] => l
                    end
           | [] => l
           end
  | [] => []
  end.

(** [strings.TrimRightFunc(s, unicode.IsSpace)], on the reversed bytes: the
    last rune is decoded backwards, so the sequences are matched mirrored. *)
Fixpoint trimLeftSpaceRev (l : list nat) : list nat :=
  match l with
  | a :: l1 =>
      if space1 a then trimLeftSpaceRev l1
      else match l1 with
           | b :: l2 =>
               if space2 b a then trimLeftSpaceRev l2
               else match l2 with
                    | c :: l3 => if space3 c b a then trimLeftSpaceRev l3 else l
                    | [] => l
                    end
           | [] => l
           end
  | [] => []
  end.

Definition bytes_of (s : string) : list nat :=
  map nat_of_ascii (list_ascii_of_string s).

Definition of_bytes (l : list nat) : string :=
  string_of_list_ascii (map ascii_of_nat l).

(** [strings.TrimSpace]: [TrimFunc(s, unicode.IsSpace)], that is the right
    trim of the left trim. *)
Definition TrimSpace (s : string) : string :=
  of_bytes (rev (trimLeftSpaceRev (rev (trimLeftSpace (bytes_of s))))).

(** [strings.Join]. *)
Fixpoint joinWith (sep : string) (l : list string) : string :=
  match l with
  | [] => ""
  | [x] => x
  | x :: l' => x ++ sep ++ joinWith sep l'
  end.

(** ** Package [path/filepath] (Unix separator) *)

Module filepath.

(** The components of [path] between separators. *)
Fixpoint split (path : string) : list string :=
  match path with
  | EmptyString => [""]
  | String c p =>
      if Ascii.eqb c "/" then "" :: split p
      else match split p with
           | x :: l => String c x :: l
           | [] => [String c ""]
           end
  end.

(** One step of [Clean]'s scan, on a whole component.  [out] is the
    output so far, last component first.  Go's [dotdot] index marks the
    leading run of [..] components that cannot be backed over: they are
    the only [..] ever written, so "something to back over" is "the last
    component written is not [..]". *)
Definition cleanStep (rooted : bool) (out : list string) (c : string)
  : list string :=
  if decide (c = "") then out
  else if decide (c = ".") then out
  else if decide (c = "..") then
    match out with
    | top :: rest =>
        if decide (top = "..") then (if rooted then out else c :: out)
        else rest
    | [] => if rooted then out else [c]
    end
  else c :: out.

(** [filepath.Clean]. *)
Definition Clean (path : string) : string :=
  if decide (path = "") then "."
  else
    let rooted := HasPrefix path "/" in
    let out := rev (foldl (cleanStep rooted) [] (split path)) in
    let body := joinWith "/" out in
    if rooted then "/" ++ body
    else if decide (body = "") then "." else body.

(** [filepath.Join]: the elements from the first non-empty one on, joined
    with the separator and cleaned; the empty string when all are empty. *)
Fixpoint Join (elem : list string) : string :=
  match elem with
  | [] => ""
  | e :: rest =>
      if decide (e = "") then Join rest else Clean (joinWith "/" elem)
  end.

End filepath.

(** ** Errors and results *)

Section Errors.
Context {EngineError WatchError : Type}.

(** The package's sentinel errors, and the errors surfaced verbatim from
    the collaborators.  Go compares errors by identity, so a collaborator's
    error is never equal to a sentinel. *)
Inductive error : Type :=
| ErrNoName
| ErrTmplNotFound
| ErrTmplExists
| ErrNoTmpl
| ErrEngine (e : EngineError)
| ErrWatch (e : WatchError)
| ErrMemdb (index : string).

(** What a call does: return a value, return an error, panic, or (for the
    recursive cascade, which is given fuel) not have returned yet. *)
Inductive result (A : Type) : Type :=
| Ok (a : A)
| Err (e : error)
| Panic
| OutOfFuel.

End Errors.

Arguments error : clear implicits.
Arguments result : clear implicits.
Arguments Ok {_ _ _} a.
Arguments Err {_ _ _} e.
Arguments Panic {_ _ _}.
Arguments OutOfFuel {_ _ _}.

(** ** The collaborators *)

(** [html/template], [fsnotify] and the files on disk.  [Template] stands
    for a non-nil [*template.Template]: the calls modelled below only ever
    store a template that was parsed successfully. *)
Class Collaborators := {
  Template : Type;
  Data : Type;
  EngineError : Type;
  FileSystem : Type;
  Watcher : Type;
  WatchError : Type;
  (** [template.New(name).Funcs(t.funcMap)] *)
  template_New : string → Template;
  Clone : Template → EngineError + Template;
  Parse : Template → string → EngineError + Template;
  ParseFiles : FileSystem → Template → list string → EngineError + Template;
  (** [Execute(b, ctx)]: the bytes written to [b], and the error if any. *)
  Execute : Template → Data → string * option EngineError;
  (** [fsnotify.NewWatcher()], [Watcher.Add], [Watcher.Remove] *)
  NewWatcher : Watcher;
  watch_Add : FileSystem → string → Watcher → WatchError + Watcher;
  watch_Remove : string → Watcher → WatchError + Watcher;
}.

(** ** The data model *)

Record tmplData := {
  Name : string;
  BaseTmplID : string;
  Src : string;
  Filenames : list string;
  HasSrc : bool;
  HasBaseTmpl : bool;
}.

(** A row of the table [tmplFilename].  Its [ID] is a random UUID whose only
    role is to keep rows apart; the table is a list of rows, so the [ID] is
    the position of the row and is not stored. *)
Record tmplFilename := {
  tfName : string;
  tfFilename : string;
}.

Section Store.
Context `{Collaborators}.

#[local] Abbreviation error := (error EngineError WatchError).
#[local] Abbreviation result := (result EngineError WatchError).

(** [tmplStore]: the registry, the two tables of the memdb schema (the
    table [tmplData] under its unique index [id] on [Name]) and the
    watcher.  The mutex and the quit channel order concurrent calls and
    are not part of the state of one call. *)
Record tmplStore := {
  tmpls : gmap string Template;
  tmplDB_tmplData : gmap string tmplData;
  tmplDB_tmplFilename : list tmplFilename;
  tmplWatch : Watcher;
}.

Record TplSys := {
  baseDir : string;
  store : tmplStore;
}.

Definition set_tmpls (f : gmap string Template → gmap string Template)
    (t : TplSys) : TplSys :=
  {| baseDir := baseDir t;
     store := {| tmpls := f (tmpls (store t));
                 tmplDB_tmplData := tmplDB_tmplData (store t);
                 tmplDB_tmplFilename := tmplDB_tmplFilename (store t);
                 tmplWatch := tmplWatch (store t) |} |}.

Definition set_tmplWatch (w : Watcher) (t : TplSys) : TplSys :=
  {| baseDir := baseDir t;
     store := {| tmpls := tmpls (store t);
                 tmplDB_tmplData := tmplDB_tmplData (store t);
                 tmplDB_tmplFilename := tmplDB_tmplFilename (store t);
                 tmplWatch := w |} |}.

(** What [tx.Commit()] of the write transaction of [saveTemplateDataToDB]
    publishes. *)
Definition commit (db : gmap string tmplData) (rows : list tmplFilename)
    (t : TplSys) : TplSys :=
  {| baseDir := baseDir t;
     store := {| tmpls := tmpls (store t);
                 tmplDB_tmplData := db;
                 tmplDB_tmplFilename := rows;
                 tmplWatch := tmplWatch (store t) |} |}.

(** *** The state-and-error monad of a method on [*TplSys]

    A Go method mutates the store and returns [(value, err)]: what it
    wrote before it returned an error stays written. *)
Definition M (A : Type) : Type := TplSys → result A * TplSys.

Definition ret {A} (a : A) : M A := λ t, (Ok a, t).
Definition fail {A} (e : error) : M A := λ t, (Err e, t).
Definition bind {A B} (m : M A) (k : A → M B) : M B := λ t,
  match m t with
  | (Ok a, t') => k a t'
  | (Err e, t') => (Err e, t')
  | (Panic, t') => (Panic, t')
  | (OutOfFuel, t') => (OutOfFuel, t')
  end.
Definition modify (f : TplSys → TplSys) : M unit := λ t, (Ok tt, f t).
Definition get : M TplSys := λ t, (Ok t, t).

(** [if err != nil { return nil, err }] after a call that does not touch
    the store. *)
Definition check (err : option error) : M unit :=
  match err with Some e => fail e | None => ret tt end.
Definition engine {A} (r : EngineError + A) : M A :=
  match r with inl e => fail (ErrEngine e) | inr a => ret a end.
Definition pure {A} (r : result A) : M A := λ t, (r, t).

End Store.

Notation "'let*' x := m 'in' k" := (bind m (λ x, k))
  (at level 10, x name, m at level 100, k at level 200, only parsing).
Notation "'let*' ' p := m 'in' k" := (bind m (λ x, match x with p => k end))
  (at level 10, p strict pattern, m at level 100, k at level 200, only parsing).
Notation "m ;;; k" := (bind m (λ _, k))
  (at level 100, k at level 200, right associativity, only parsing).

(** ** The memdb tables *)

(** The order of the index [baseid] among the records of one base: the
    byte order of their primary key [Name]. *)
Definition byName (a b : tmplData) : Prop :=
  String.leb (Name a) (Name b) = true.

#[global] Instance byName_dec : RelDecision byName.
Proof. intros a b. unfold byName. apply _. Defined.

(** [tx.Get("tmplData", "baseid", name)]: the records whose [BaseTmplID] is
    [name], in the order of the index. *)
Definition Get_tmplData_baseid (db : gmap string tmplData) (name : string)
    : list tmplData :=
  merge_sort byName
    (filter (λ td, BaseTmplID td = name) (map_to_list db).*2).

(** [tx.Insert("tmplData", td)]: insert or update under the unique index
    [id]; a [StringFieldIndex] has no value for the empty string, which the
    primary index refuses ([baseid] allows it). *)
Definition Insert_tmplData (td : tmplData) (db : gmap string tmplData)
    : option (gmap string tmplData) :=
  if decide (Name td = "") then None else Some (<[Name td := td]> db).

(** [tx.Get("tmplFilename", "name", name)]. *)
Definition Get_tmplFilename_name (rows : list tmplFilename) (name : string)
    : list tmplFilename :=
  filter (λ tf, tfName tf = name) rows.

(** [tx.DeleteAll("tmplFilename", "name", name)]. *)
Definition DeleteAll_tmplFilename_name (rows : list tmplFilename)
    (name : string) : list tmplFilename :=
  filter (λ tf, tfName tf ≠ name) rows.

(** [tx.Insert("tmplFilename", tf)]: the indexes [name] and [filename] do
    not allow a missing (empty) value. *)
Definition Insert_tmplFilename (tf : tmplFilename) (rows : list tmplFilename)
    : string + list tmplFilename :=
  if decide (tfName tf = "") then inl "name"
  else if decide (tfFilename tf = "") then inl "filename"
  else inr (rows ++ [tf])%list.

(** ** Output buffers *)

(** A [*bytes.Buffer] is an object holding a slice of a backing array; a
    [[]byte] returned by [Bytes()] is a view of the same array.  Arrays and
    buffer objects live in [Memory], under addresses. *)
Record Buffer := {
  bufArray : nat;
  bufLen : nat;
}.

(** A [[]byte] that starts at the beginning of its array. *)
Record slice := {
  slArray : nat;
  slLen : nat;
}.

(** Modelled from the spec: [helpers.BufferPool], of the package go-helpers,
    which is not among the sources: the spec's "generic resource-reuse
    utility" for output buffers.  [pool] holds the buffers handed back and
    waiting to be handed out again.  An array's content is as long as its
    capacity. *)
Record Memory := {
  arrays : gmap nat string;
  buffers : gmap nat Buffer;
  pool : list nat;
  nextAddr : nat;
}.

Definition emptyMemory : Memory :=
  {| arrays := ∅; buffers := ∅; pool := []; nextAddr := 0 |}.

Definition arrayAt (mem : Memory) (a : nat) : string :=
  default "" (arrays mem !! a).

Definition bufferAt (mem : Memory) (b : nat) : Buffer :=
  default {| bufArray := 0; bufLen := 0 |} (buffers mem !! b).

(** The bytes a slice shows now. *)
Definition bytesOf (mem : Memory) (d : slice) : string :=
  substring 0 (slLen d) (arrayAt mem (slArray d)).

Fixpoint zeros (n : nat) : string :=
  match n with
  | 0 => ""
  | S n => String Ascii.zero (zeros n)
  end.

(** [b.Write(p)]: in place when [p] fits in the capacity left, else into a
    new array of capacity [2*cap + len(p)] that starts with the bytes
    written so far. *)
Definition Buffer_Write (b : nat) (p : string) (mem : Memory) : Memory :=
  let buf := bufferAt mem b in
  let old := arrayAt mem (bufArray buf) in
  let cap := String.length old in
  let n := String.length p in
  if decide (bufLen buf + n ≤ cap)%nat then
    {| arrays :=
         <[bufArray buf :=
             substring 0 (bufLen buf) old ++ p
             ++ substring (bufLen buf + n) (cap - (bufLen buf + n)) old]>
           (arrays mem);
       buffers :=
         <[b := {| bufArray := bufArray buf; bufLen := bufLen buf + n |}]>
           (buffers mem);
       pool := pool mem;
       nextAddr := nextAddr mem |}
  else
    {| arrays :=
         <[nextAddr mem :=
             substring 0 (bufLen buf) old ++ p
             ++ zeros (2 * cap - bufLen buf)]>
           (arrays mem);
       buffers :=
         <[b := {| bufArray := nextAddr mem; bufLen := bufLen buf + n |}]>
           (buffers mem);
       pool := pool mem;
       nextAddr := S (nextAddr mem) |}.

(** [b.Bytes()]. *)
Definition Buffer_Bytes (b : nat) (mem : Memory) : slice :=
  {| slArray := bufArray (bufferAt mem b); slLen := bufLen (bufferAt mem b) |}.

(** [b.Reset()]: the length goes to zero, the array stays. *)
Definition Buffer_Reset (b : nat) (mem : Memory) : Memory :=
  {| arrays := arrays mem;
     buffers :=
       <[b := {| bufArray := bufArray (bufferAt mem b); bufLen := 0 |}]>
         (buffers mem);
     pool := pool mem;
     nextAddr := nextAddr mem |}.

(** Modelled from the spec: [helpers.BufferPool.Get()], the missing pool's
    way out: a waiting buffer if there is one, else
    [bytes.NewBuffer([]byte{})]. *)
Definition BufferPool_Get (mem : Memory) : nat * Memory :=
  match pool mem with
  | b :: rest =>
      (b, {| arrays := arrays mem; buffers := buffers mem;
             pool := rest; nextAddr := nextAddr mem |})
  | [] =>
      (nextAddr mem,
       {| arrays := <[S (nextAddr mem) := ""]> (arrays mem);
          buffers :=
            <[nextAddr mem := {| bufArray := S (nextAddr mem); bufLen := 0 |}]>
              (buffers mem);
          pool := [];
          nextAddr := S (S (nextAddr mem)) |})
  end.

(** Modelled from the spec: [helpers.BufferPool.Put(b)], the missing pool's
    way in: the buffer is reset and waits to be reused.  (A bounded pool
    drops the buffer when it is full; calls that run one after the other
    hold one buffer at a time.) *)
Definition BufferPool_Put (b : nat) (mem : Memory) : Memory :=
  let mem := Buffer_Reset b mem in
  {| arrays := arrays mem; buffers := buffers mem;
     pool := (pool mem ++ [b])%list; nextAddr := nextAddr mem |}.

(** ** The methods of [TplSys] *)

Section Operations.
Context `{Collaborators}.

#[local] Abbreviation error := (error EngineError WatchError).
#[local] Abbreviation result := (result EngineError WatchError).

(** [NewTplSys(basedir)]; the goroutine it starts is the watch loop. *)
Definition NewTplSys (basedir : string) : TplSys :=
  {| baseDir := basedir;
     store := {| tmpls := ∅;
                 tmplDB_tmplData := ∅;
                 tmplDB_tmplFilename := [];
                 tmplWatch := NewWatcher |} |}.

Definition BaseDir (t : TplSys) : string := baseDir t.

Definition InitializeStore : M unit :=
  modify (λ t, NewTplSys (baseDir t)).

Definition checkName (name : string) : option error :=
  if decide (String.length (TrimSpace name) = 0) then Some ErrNoName
  else None.

Definition getTemplate (name : string) (t : TplSys) : error + Template :=
  match checkName name with
  | Some err => inl err
  | None =>
      match tmpls (store t) !! name with
      | None => inl ErrTmplNotFound
      | Some tmpl => inr tmpl
      end
  end.

(** The first loop of [saveTemplateDataToDB]: the old paths leave the
    watcher, up to the first error. *)
Fixpoint removeOld (olds : list tmplFilename) (w : Watcher)
    : option error * Watcher :=
  match olds with
  | [] => (None, w)
  | tf :: olds =>
      match watch_Remove (tfFilename tf) w with
      | inl e => (Some (ErrWatch e), w)
      | inr w' => removeOld olds w'
      end
  end.

(** The second loop of [saveTemplateDataToDB], inside the write transaction
    whose table is [rows]. *)
Fixpoint addNew (fs : FileSystem) (name : string) (files : list string)
    (rows : list tmplFilename) (w : Watcher)
    : option error * list tmplFilename * Watcher :=
  match files with
  | [] => (None, rows, w)
  | f :: files =>
      match Insert_tmplFilename {| tfName := name; tfFilename := f |} rows with
      | inl ix => (Some (ErrMemdb ix), rows, w)
      | inr rows' =>
          match watch_Add fs f w with
          | inl e => (Some (ErrWatch e), rows', w)
          | inr w' => addNew fs name files rows' w'
          end
      end
  end.

(** [saveTemplateDataToDB].  The write transaction works on its own copy of
    the tables; only [tx.Commit()] publishes it, so every earlier return
    (after [tx.Abort()], or with the transaction left open) leaves the
    tables as they were.  What was done to the watcher stays done. *)
Definition saveTemplateDataToDB (fs : FileSystem) (td : tmplData) : M unit :=
  λ t,
  let olds := Get_tmplFilename_name (tmplDB_tmplFilename (store t)) (Name td) in
  match removeOld olds (tmplWatch (store t)) with
  | (Some err, w) => (Err err, set_tmplWatch w t)
  | (None, w) =>
      match Insert_tmplData td (tmplDB_tmplData (store t)) with
      | None => (Err (ErrMemdb "id"), set_tmplWatch w t)
      | Some db =>
          let rows :=
            DeleteAll_tmplFilename_name (tmplDB_tmplFilename (store t)) (Name td) in
          if HasSrc td then (Ok tt, commit db rows (set_tmplWatch w t))
          else
            match addNew fs (Name td) (Filenames td) rows w with
            | (Some err, _, w') => (Err err, set_tmplWatch w' t)
            | (None, rows', w') => (Ok tt, commit db rows' (set_tmplWatch w' t))
            end
      end
  end.

(** The body of the loop of [rebuildChildTemplates] up to the store: the
    child's own source parsed on a clone of the parent. *)
Definition rebuildChild (fs : FileSystem) (tmpl : Template) (td : tmplData)
    : EngineError + Template :=
  match Clone tmpl with
  | inl e => inl e
  | inr ctmpl =>
      if HasSrc td then Parse ctmpl (Src td)
      else ParseFiles fs ctmpl (Filenames td)
  end.

(** The loop of [rebuildChildTemplates] over the children found;
    [recurse] is the recursive call. *)
Definition rebuildLoop (recurse : string → Template → M unit)
    (fs : FileSystem) (tmpl : Template) : list tmplData → M unit :=
  fix loop (result : list tmplData) : M unit :=
    match result with
    | [] => ret tt
    | td :: result =>
        let* ctmpl := engine (rebuildChild fs tmpl td) in
        modify (set_tmpls <[Name td := ctmpl]>) ;;;
        recurse (Name td) ctmpl ;;;
        loop result
    end.

(** [rebuildChildTemplates].  Go recurses without a bound; [fuel] bounds the
    depth of the recursion, and [OutOfFuel] is a call that has not returned
    within it. *)
Fixpoint rebuildChildTemplates (fuel : nat) (fs : FileSystem) (name : string)
    (tmpl : Template) : M unit :=
  match fuel with
  | 0 => pure OutOfFuel
  | S fuel =>
      check (checkName name) ;;;
      let* t := get in
      rebuildLoop (rebuildChildTemplates fuel fs) fs tmpl
        (Get_tmplData_baseid (tmplDB_tmplData (store t)) name)
  end.

(** The clean-up of one file name in [saveTemplate]. *)
Definition cleanFilename (basedir f : string) : string :=
  let f := TrimPrefix f basedir in
  let f := TrimPrefix f "/" in
  filepath.Join [basedir; f].

(** [saveTemplate].  (It also overwrites the caller's [filenames] slice with
    the cleaned names; the slice is not part of the store.) *)
Definition saveTemplate (fuel : nat) (fs : FileSystem) (name baseTmpl : string)
    (isNew : bool) (tmplSrc : string) (filenames : list string) : M Template :=
  check (checkName name) ;;;
  let* t := get in
  let* '(tmpl, hasBaseTmpl) :=
    match checkName baseTmpl with
    | Some _ => ret (template_New name, false)
    | None =>
        match getTemplate baseTmpl t with
        | inl err => fail err
        | inr tmpl => let* tmpl := engine (Clone tmpl) in ret (tmpl, true)
        end
    end in
  let tmplSrc := TrimSpace tmplSrc in
  let* '(tmpl, filenames, hasSrc) :=
    if decide (String.length tmplSrc = 0) then
      if decide (length filenames = 0) then fail ErrNoTmpl
      else
        let filenames := cleanFilename (BaseDir t) <$> filenames in
        let* tmpl := engine (ParseFiles fs tmpl filenames) in
        ret (tmpl, filenames, false)
    else
      let* tmpl := engine (Parse tmpl tmplSrc) in
      ret (tmpl, filenames, true) in
  modify (set_tmpls <[name := tmpl]>) ;;;
  saveTemplateDataToDB fs
    {| Name := name;
       BaseTmplID := baseTmpl;
       Src := tmplSrc;
       Filenames := filenames;
       HasSrc := hasSrc;
       HasBaseTmpl := hasBaseTmpl |} ;;;
  (if isNew then ret tt else rebuildChildTemplates fuel fs name tmpl) ;;;
  ret tmpl.

Definition AddTemplate (fuel : nat) (fs : FileSystem)
    (name baseTmpl tmplSrc : string) (filenames : list string) : M Template :=
  λ t,
  match getTemplate name t with
  | inr _ => (Err ErrTmplExists, t)
  | inl ErrTmplNotFound =>
      saveTemplate fuel fs name baseTmpl true tmplSrc filenames t
  | inl err => (Err err, t)
  end.

Definition PutTemplate (fuel : nat) (fs : FileSystem)
    (name baseTmpl tmplSrc : string) (filenames : list string) : M Template :=
  λ t,
  match getTemplate name t with
  | inl ErrTmplNotFound =>
      saveTemplate fuel fs name baseTmpl true tmplSrc filenames t
  | inl err => (Err err, t)
  | inr _ => saveTemplate fuel fs name baseTmpl false tmplSrc filenames t
  end.

(** [ExecuteTemplate].  It reads the store and writes to a pooled buffer;
    [defer helpers.BufferPool.Put(b)] runs on every way out after [Get],
    after the returned slice has been taken. *)
Definition ExecuteTemplate (name : string) (ctx : Data) (t : TplSys)
    (mem : Memory) : result slice * Memory :=
  match getTemplate name t with
  | inl err => (Err err, mem)
  | inr tmpl =>
      let '(b, mem) := BufferPool_Get mem in
      match Clone tmpl with
      | inl _ => (Panic, BufferPool_Put b mem)
      | inr c =>
          let '(out, err) := Execute c ctx in
          let mem := Buffer_Write b out mem in
          match err with
          | Some e => (Err (ErrEngine e), BufferPool_Put b mem)
          | None => (Ok (Buffer_Bytes b mem), BufferPool_Put b mem)
          end
      end
  end.

(** What [saveTemplate] computes before it writes to the store: the parsed
    template and its record, or the error it returns. *)
Definition ownTemplate (fs : FileSystem) (name baseTmpl tmplSrc : string)
    (filenames : list string) (t : TplSys) : error + Template * tmplData :=
  match checkName name with
  | Some err => inl err
  | None =>
      let base : error + Template * bool :=
        match checkName baseTmpl with
        | Some _ => inr (template_New name, false)
        | None =>
            match getTemplate baseTmpl t with
            | inl err => inl err
            | inr tmpl =>
                match Clone tmpl with
                | inl e => inl (ErrEngine e)
                | inr tmpl => inr (tmpl, true)
                end
            end
        end in
      match base with
      | inl err => inl err
      | inr (tmpl, hasBaseTmpl) =>
          let tmplSrc := TrimSpace tmplSrc in
          let record filenames hasSrc :=
            {| Name := name;
               BaseTmplID := baseTmpl;
               Src := tmplSrc;
               Filenames := filenames;
               HasSrc := hasSrc;
               HasBaseTmpl := hasBaseTmpl |} in
          if decide (String.length tmplSrc = 0) then
            if decide (length filenames = 0) then inl ErrNoTmpl
            else
              let filenames := cleanFilename (BaseDir t) <$> filenames in
              match ParseFiles fs tmpl filenames with
              | inl e => inl (ErrEngine e)
              | inr tmpl => inr (tmpl, record filenames false)
              end
          else
            match Parse tmpl tmplSrc with
            | inl e => inl (ErrEngine e)
            | inr tmpl => inr (tmpl, record filenames true)
            end
      end
  end.

(** The stores the foreground calls can produce.  ([ExecuteTemplate] does
    not write to the store.) *)
Inductive reachable : TplSys → Prop :=
| reachable_New basedir :
    reachable (NewTplSys basedir)
| reachable_Initialize t :
    reachable t → reachable (InitializeStore t).2
| reachable_Add t fuel fs name baseTmpl tmplSrc filenames :
    reachable t →
    (AddTemplate fuel fs name baseTmpl tmplSrc filenames t).1 ≠ OutOfFuel →
    reachable (AddTemplate fuel fs name baseTmpl tmplSrc filenames t).2
| reachable_Put t fuel fs name baseTmpl tmplSrc filenames :
    reachable t →
    (PutTemplate fuel fs name baseTmpl tmplSrc filenames t).1 ≠ OutOfFuel →
    reachable (PutTemplate fuel fs name baseTmpl tmplSrc filenames t).2.

(** *** The base-template graph of the metadata table *)

(** [parent db m p]: the record of [m] names [p] as its base. *)
Definition parent (db : gmap string tmplData) (m p : string) : Prop :=
  ∃ td, db !! m = Some td ∧ BaseTmplID td = p.

(** [descendant db n m]: [m] is reached from [n] through one or more
    child links. *)
Definition descendant (db : gmap string tmplData) (n m : string) : Prop :=
  tc (parent db) m n.

Definition acyclic (db : gmap string tmplData) : Prop :=
  ∀ n, ¬ descendant db n n.

(** The table is keyed by the [Name] of its records. *)
Definition keyed (db : gmap string tmplData) : Prop :=
  ∀ k td, db !! k = Some td → Name td = k.

(** What the calls keep true of the store: the table is keyed by name,
    registered names are valid, every record has a registry entry, and a
    record's base, when it has one, is registered. *)
Record store_ok (t : TplSys) : Prop := {
  ok_keyed : keyed (tmplDB_tmplData (store t));
  ok_names : ∀ k, is_Some (tmpls (store t) !! k) → checkName k = None;
  ok_registered : ∀ k, is_Some (tmplDB_tmplData (store t) !! k) →
                       is_Some (tmpls (store t) !! k);
  ok_bases : ∀ k td, tmplDB_tmplData (store t) !! k = Some td →
                     checkName (BaseTmplID td) = None →
                     is_Some (tmpls (store t) !! BaseTmplID td);
}.

(** ** The path clean-up, in the words of the specification *)



End Operations.

(** ** The watch loop *)

Section Watch.
Context `{Collaborators}.

#[local] Abbreviation error := (error EngineError WatchError).

(** [fsnotify.Event]: the path of the file and the operations on it, a bit
    set. *)
Record Event := {
  evName : string;
  evOp : Z;
}.

(** [fsnotify.Write], the second bit of an [Op]. *)
Definition fsnotify_Write : Z := 2.

(** [tx.Get("tmplFilename", "filename", name)]. *)
Definition Get_tmplFilename_filename (rows : list tmplFilename)
    (filename : string) : list tmplFilename :=
  filter (λ tf, tfFilename tf = filename) rows.

(** A line of the log: [log.Println("error:", err)] and
    [log.Println("modified file:", ev.Name)]. *)
Inductive logged : Type :=
| LogError (e : error)
| LogModified (name : string).

(** What the select of [handleWatcherEvents] receives: an event, with the
    files on disk when it is handled; an error of the watcher, which can be
    nil; the quit signal. *)
Inductive message : Type :=
| OnEvent (fs : FileSystem) (ev : Event)
| OnError (err : option WatchError)
| OnQuit.

(** How the handling of events ends.  Where the Go code logs an error and
    goes on with a nil template (a [Clone] or a [ParseFiles] that failed),
    the store leaves the states of this development, whose registry holds
    parsed templates only: that is [WithNil]. *)
Inductive handled : Type :=
| Handled (log : list logged) (t : TplSys)
| Panicked
| WithNil
| NoReturn.

(** The body of the loop over the rows of one event.  The type assertion
    on [tdr] panics when no record is found; [tmpl.Clone()] dereferences
    [tmpl], which is nil when [getTemplate] failed. *)
Definition handleRow (fuel : nat) (fs : FileSystem) (tf : tmplFilename)
    (log : list logged) (t : TplSys) : handled :=
  match tmplDB_tmplData (store t) !! tfName tf with
  | None => Panicked
  | Some td =>
      let base : handled + Template :=
        if HasBaseTmpl td then
          match getTemplate (BaseTmplID td) t with
          | inl _ => inl Panicked
          | inr tmpl =>
              match Clone tmpl with
              | inl _ => inl WithNil
              | inr tmpl => inr tmpl
              end
          end
        else inr (template_New (Name td)) in
      match base with
      | inl out => out
      | inr tmpl =>
          match ParseFiles fs tmpl (Filenames td) with
          | inl _ => WithNil
          | inr tmpl =>
              match rebuildChildTemplates fuel fs (Name td) tmpl
                      (set_tmpls <[Name td := tmpl]> t) with
              | (Ok _, t') => Handled log t'
              | (Err e, t') => Handled (log ++ [LogError e]) t'
              | (Panic, _) => Panicked
              | (OutOfFuel, _) => NoReturn
              end
          end
      end
  end.

Fixpoint handleRows (fuel : nat) (fs : FileSystem) (result : list tmplFilename)
    (log : list logged) (t : TplSys) : handled :=
  match result with
  | [] => Handled log t
  | tf :: result =>
      match handleRow fuel fs tf log t with
      | Handled log t => handleRows fuel fs result log t
      | out => out
      end
  end.

(** The case of an event in the select.  [tx.Get] is given a table, an
    index and a string, and returns no error. *)
Definition handleEvent (fuel : nat) (fs : FileSystem) (ev : Event)
    (log : list logged) (t : TplSys) : handled :=
  if decide (Z.land (evOp ev) fsnotify_Write = fsnotify_Write) then
    match handleRows fuel fs
            (Get_tmplFilename_filename (tmplDB_tmplFilename (store t)) (evName ev))
            log t with
    | Handled log t => Handled (log ++ [LogModified (evName ev)]) t
    | out => out
    end
  else Handled log t.

(** [handleWatcherEvents], on the messages it receives, in order; it
    returns on the quit signal and waits when there is no message left. *)
Fixpoint handleWatcherEvents (fuel : nat) (msgs : list message)
    (log : list logged) (t : TplSys) : handled :=
  match msgs with
  | [] => Handled log t
  | OnQuit :: _ => Handled log t
  | OnError None :: msgs => handleWatcherEvents fuel msgs log t
  | OnError (Some err) :: msgs =>
      handleWatcherEvents fuel msgs (log ++ [LogError (ErrWatch err)]) t
  | OnEvent fs ev :: msgs =>
      match handleEvent fuel fs ev log t with
      | Handled log t => handleWatcherEvents fuel msgs log t
      | out => out
      end
  end.

(** The stores that the calls and the watch loop produce. *)
Inductive live : TplSys → Prop :=
| live_New basedir :
    live (NewTplSys basedir)
| live_Initialize t :
    live t → live (InitializeStore t).2
| live_Add t fuel fs name baseTmpl tmplSrc filenames :
    live t →
    (AddTemplate fuel fs name baseTmpl tmplSrc filenames t).1 ≠ OutOfFuel →
    live (AddTemplate fuel fs name baseTmpl tmplSrc filenames t).2
| live_Put t fuel fs name baseTmpl tmplSrc filenames :
    live t →
    (PutTemplate fuel fs name baseTmpl tmplSrc filenames t).1 ≠ OutOfFuel →
    live (PutTemplate fuel fs name baseTmpl tmplSrc filenames t).2
| live_watch t fuel msgs log log' t' :
    live t →
    handleWatcherEvents fuel msgs log t = Handled log' t' →
    live t'.

(** The store of a handling that went through, and the files its log
    reports when it reports no error. *)
Definition handledStore (h : handled) (t : TplSys) : TplSys :=
  match h with Handled _ t' => t' | _ => t end.

Fixpoint modifiedFiles (log : list logged) : option (list string) :=
  match log with
  | [] => Some []
  | LogModified name :: log => cons name <$> modifiedFiles log
  | LogError _ :: _ => None
  end.

Definition handledFiles (h : handled) : option (list string) :=
  match h with Handled log _ => modifiedFiles log | _ => None end.

End Watch.

(** ** A reference model of the collaborators

    Small enough to run.  A template is its name and the sources parsed
    into it so far; the file system is a map from path to content; the
    watcher is its set of watched paths. *)

Module model.

Record template := {
  tName : string;
  layers : list string;
}.

(** The lexer's "unclosed action": a source that ends inside [{{ ... }}]. *)
Fixpoint unclosed (inside : bool) (src : string) : bool :=
  match src with
  | EmptyString => inside
  | String a rest =>
      match rest with
      | String b _ =>
          if negb inside && Ascii.eqb a "{" && Ascii.eqb b "{" then unclosed true rest
          else if inside && Ascii.eqb a "}" && Ascii.eqb b "}" then unclosed false rest
          else unclosed inside rest
      | EmptyString => inside
      end
  end.

Definition parse (t : template) (src : string) : string + template :=
  if unclosed false src then inl "unclosed action"
  else inr {| tName := tName t; layers := (layers t ++ [src])%list |}.

Fixpoint parseFiles (fs : gmap string string) (t : template)
    (filenames : list string) : string + template :=
  match filenames with
  | [] => inr t
  | f :: filenames =>
      match fs !! f with
      | None => inl "no such file or directory"
      | Some src =>
          match parse t src with
          | inl e => inl e
          | inr t' => parseFiles fs t' filenames
          end
      end
  end.

(** The data written for each [{{.}}] of a body; [skip] bytes of the action
    are still to be passed over. *)
Fixpoint render (ctx : string) (skip : nat) (body : string) : string :=
  match body with
  | EmptyString => ""
  | String a rest =>
      match skip with
      | S k => render ctx k rest
      | 0 =>
          if HasPrefix body "{{.}}" then ctx ++ render ctx 4 rest
          else String a (render ctx 0 rest)
      end
  end.

(** The body that runs: the last source that is not only definitions. *)
Definition body (t : template) : option string :=
  last (filter (λ src, HasPrefix src "{{define" = false) (layers t)).

Definition execute (t : template) (ctx : string) : string * option string :=
  match body t with
  | None => ("", Some "incomplete or empty template")
  | Some b => (render ctx 0 b, None)
  end.

Definition collaborators : Collaborators :=
  {| Template := template;
     Data := string;
     EngineError := string;
     FileSystem := gmap string string;
     Watcher := gset string;
     WatchError := string;
     template_New := λ name, {| tName := name; layers := [] |};
     Clone := λ t, inr t;
     Parse := parse;
     ParseFiles := λ fs t filenames,
       match filenames with
       | [] => inl "no files named in call to ParseFiles"
       | _ => parseFiles fs t filenames
       end;
     Execute := execute;
     NewWatcher := ∅;
     watch_Add := λ fs f w,
       match fs !! f with
       | None => inl "no such file or directory"
       | Some _ => inr ({[f]} ∪ w)
       end;
     watch_Remove := λ f w,
       if decide (f ∈ w) then inr (w ∖ {[f]})
       else inl "can't remove non-existent watch" |}.

End model.

(** ** Stores of the reference model used as examples *)

Module scenario.

#[local] Existing Instance model.collaborators.

Definition nofiles : FileSystem := (∅ : gmap string string).

(** A disk with the file of a child template. *)
Definition disk : FileSystem :=
  ({[ "t/b.html" := "{{define `b`}}B{{end}}" ]} : gmap string string).

Definition empty : TplSys := NewTplSys "t/".

(** [A], then [B] on [A], then [C] on [B], all from inline sources. *)
Definition withA : TplSys :=
  (AddTemplate 0 nofiles "A" "" "Hello {{.}}" [] empty).2.

Definition withAB : TplSys :=
  (AddTemplate 0 nofiles "B" "A" "{{define `b`}}B{{end}}" [] withA).2.

Definition withABC : TplSys :=
  (AddTemplate 0 nofiles "C" "B" "{{define `c`}}C{{end}}" [] withAB).2.



(** [A] whose source only defines an empty template, so that parsing it
    again on a clone of itself redefines nothing. *)
Definition definesD : string := "{{define `d`}}{{end}}".

Definition withD : TplSys :=
  (AddTemplate 0 nofiles "A" "" definesD [] empty).2.

(** The record [PutTemplate] writes when [A] is put on base [A]. *)
Definition recordLoop : tmplData :=
  {| Name := "A"; BaseTmplID := "A"; Src := definesD;
     Filenames := []; HasSrc := true; HasBaseTmpl := true |}.

(** [A] inline and [B] on [A] from the file [b.html]. *)
Definition withAfile : TplSys :=
  (AddTemplate 0 disk "B" "A" "" ["b.html"] withA).2.

(** The record of [B] in [withAfile]. *)
Definition recordBfile : tmplData :=
  {| Name := "B"; BaseTmplID := "A"; Src := "";
     Filenames := ["t/b.html"]; HasSrc := false; HasBaseTmpl := true |}.

(** The disk after [b.html] was written to. *)
Definition diskAfter : FileSystem :=
  ({[ "t/b.html" := "{{define `b`}}Bee{{end}}" ]} : gmap string string).




(** [A] inline and [B] on [A] from the file [b.html], all on [disk]. *)
Definition fromDisk : TplSys :=
  (AddTemplate 0 disk "B" "A" "" ["b.html"]
     (AddTemplate 0 disk "A" "" "Hello {{.}}" [] empty).2).2.

End scenario.

(** ** Notions used in the proofs *)

Section Notions.
Context `{Collaborators}.

#[local] Abbreviation error := (error EngineError WatchError).
#[local] Abbreviation db t := (tmplDB_tmplData (store t)).
#[local] Abbreviation reg t := (tmpls (store t)).

(** Two stores with the same base directory, tables and watcher: they can
    differ in the registry only. *)
Definition same_tables (t t' : TplSys) : Prop :=
  baseDir t' = baseDir t
  ∧ tmplDB_tmplData (store t') = tmplDB_tmplData (store t)
  ∧ tmplDB_tmplFilename (store t') = tmplDB_tmplFilename (store t)
  ∧ tmplWatch (store t') = tmplWatch (store t).

(** [recurse] writes to the registry only below the name it is given. *)
Definition writes_below (recurse : string → Template → M unit) : Prop :=
  ∀ n tm t r t', keyed (db t) → recurse n tm t = (r, t') →
    ∀ m, ¬ descendant (db t) n m → reg t' !! m = reg t !! m.

(** The registry entry of [m] is its own source parsed on a clone of the
    registry entry of its base. *)
Definition rebuilt (fs : FileSystem) (t : TplSys) (m : string) : Prop :=
  ∃ td pt ct,
    db t !! m = Some td
    ∧ reg t !! BaseTmplID td = Some pt
    ∧ rebuildChild fs pt td = inr ct
    ∧ reg t !! m = Some ct.

Definition rebuilds_below (fs : FileSystem) (recurse : string → Template → M unit) : Prop :=
  ∀ n tm t t', keyed (db t) → reg t !! n = Some tm →
    recurse n tm t = (Ok tt, t') →
    ∀ m, descendant (db t) n m → rebuilt fs t' m.

(** More fuel does not change what a call that returned has done. *)
Definition extends (r r' : string → Template → M unit) : Prop :=
  ∀ n tm t, (r n tm t).1 ≠ OutOfFuel → r' n tm t = r n tm t.

(** The errors that come from the watcher and from memdb. *)
Definition foreign (e : error) : Prop :=
  match e with
  | ErrWatch _ | ErrMemdb _ => True
  | _ => False
  end.

#[local] Abbreviation rows t := (tmplDB_tmplFilename (store t)).

(** The rows that [saveTemplateDataToDB] inserts for a record, in the order
    of its loop. *)
Definition fileRows (td : tmplData) : list tmplFilename :=
  if HasSrc td then []
  else (λ f, {| tfName := Name td; tfFilename := f |}) <$> Filenames td.

(** A record as [saveTemplate] fills it in: the two flags say what the base
    name and the source say, the source is trimmed, and a record without
    source has files, cleaned under the base directory. *)
Definition record_ok (basedir : string) (td : tmplData) : Prop :=
  (HasBaseTmpl td = true ↔ TrimSpace (BaseTmplID td) ≠ "")
  ∧ (HasSrc td = true ↔ Src td ≠ "")
  ∧ TrimSpace (Src td) = Src td
  ∧ (HasSrc td = false →
     Filenames td ≠ []
     ∧ ∃ given, Filenames td = cleanFilename basedir <$> given).

(** What the calls keep true of the two tables: the records are well
    formed, and the rows of a name are the rows of its record. *)
Definition tables_ok (t : TplSys) : Prop :=
  (∀ k td, db t !! k = Some td → record_ok (baseDir t) td)
  ∧ (∀ k, Get_tmplFilename_name (rows t) k
          = match db t !! k with Some td => fileRows td | None => [] end).

(** The registry entry of [m] is what its record produces now: its source,
    or its files as they are on [fs], parsed on a clone of the entry of its
    base, or on a new template when it has no base. *)
Definition up_to_date (fs : FileSystem) (t : TplSys) (m : string) : Prop :=
  ∃ td ct,
    db t !! m = Some td
    ∧ reg t !! m = Some ct
    ∧ if HasBaseTmpl td then
        ∃ pt, reg t !! BaseTmplID td = Some pt ∧ rebuildChild fs pt td = inr ct
      else
        (if HasSrc td then Parse (template_New m) (Src td)
         else ParseFiles fs (template_New m) (Filenames td)) = inr ct.

End Notions.

(** * Properties *)

(** Unfolds one layer of the monad. *)
Ltac run :=
  unfold bind, ret, fail, check, engine, pure, modify, get in *; simpl in *.

(** ** Byte strings *)







Lemma substring_all (r : string) : substring 0 (String.length r) r = r.
Proof. induction r as [|d r IHr]; simpl; [done|]. by rewrite IHr. Qed.




(** *** The library functions on sample inputs *)

Example TrimSpace_ascii : TrimSpace "   a b  " = "a b".
Proof. reflexivity. Qed.

(** TAB and U+00A0 in front, U+3000 and LF behind. *)
Example TrimSpace_unicode :
  TrimSpace (of_bytes [9; 194; 160; 120; 32; 121; 227; 128; 128; 10]) = "x y".
Proof. reflexivity. Qed.

(** A lone continuation byte is not white space. *)
Example TrimSpace_invalid :
  TrimSpace (of_bytes [32; 160; 32]) = of_bytes [160].
Proof. reflexivity. Qed.

Example TrimSpace_blank : TrimSpace "    " = "".
Proof. reflexivity. Qed.

Example TrimPrefix_once : TrimPrefix "t/t/x" "t/" = "t/x".
Proof. reflexivity. Qed.

Example Clean_dots : filepath.Clean "/a/../../b/./c//d/.." = "/b/c".
Proof. reflexivity. Qed.

Example Clean_relative : filepath.Clean "../a/../../b/" = "../../b".
Proof. reflexivity. Qed.

Example Join_base : filepath.Join ["t/"; "layout/_base.html"] = "t/layout/_base.html".
Proof. reflexivity. Qed.

Example Join_empty : filepath.Join [""; ""] = "".
Proof. reflexivity. Qed.

Example cleanFilename_bare : cleanFilename "t/" "content/index.html" = "t/content/index.html".
Proof. reflexivity. Qed.

Example cleanFilename_prefixed : cleanFilename "t/" "t/content/index.html" = "t/content/index.html".
Proof. reflexivity. Qed.

Example cleanFilename_slash : cleanFilename "t/" "/content/index.html" = "t/content/index.html".
Proof. reflexivity. Qed.

(** ** The store *)

Section StoreProofs.
Context `{Collaborators}.

#[local] Abbreviation error := (error EngineError WatchError).
#[local] Abbreviation result := (result EngineError WatchError).

Implicit Types (t : TplSys) (fs : FileSystem) (tmpl : Template).
Implicit Types (name baseTmpl tmplSrc : string) (filenames : list string).

#[local] Abbreviation db t := (tmplDB_tmplData (store t)).
#[local] Abbreviation reg t := (tmpls (store t)).

Lemma length_zero_empty (s : string) : String.length s = 0 ↔ s = "".
Proof. destruct s; simpl; split; congruence. Qed.

(** A pair is its first component and its own second component. *)
Lemma pair_with_snd {A B} (p : A * B) (a : A) : p.1 = a → p = (a, p.2).
Proof. destruct p. simpl. by intros ->. Qed.

Lemma checkName_blank name :
  TrimSpace name = "" → checkName name = Some ErrNoName.
Proof. intros E. unfold checkName. by rewrite E. Qed.

Lemma checkName_valid name : TrimSpace name ≠ "" → checkName name = None.
Proof.
  intros E. unfold checkName. case_decide as E'; [|done].
  by apply length_zero_empty in E'.
Qed.

Lemma checkName_Some name err : checkName name = Some err → err = ErrNoName.
Proof. unfold checkName. case_decide; congruence. Qed.

Lemma checkName_None name : checkName name = None → TrimSpace name ≠ "".
Proof. unfold checkName. case_decide as E; [done|]. intros _ E'. by rewrite E' in E. Qed.

(** [saveTemplate] is [ownTemplate], then the three writes. *)
Lemma saveTemplate_eq fuel fs name baseTmpl isNew tmplSrc filenames t :
  saveTemplate fuel fs name baseTmpl isNew tmplSrc filenames t =
  match ownTemplate fs name baseTmpl tmplSrc filenames t with
  | inl err => (Err err, t)
  | inr (tmpl, td) =>
      (saveTemplateDataToDB fs td ;;;
       (if isNew then ret tt else rebuildChildTemplates fuel fs name tmpl) ;;;
       ret tmpl) (set_tmpls <[name := tmpl]> t)
  end.
Proof.
  unfold saveTemplate, ownTemplate. run.
  destruct (checkName name); [done|].
  destruct (checkName baseTmpl); simpl.
  - repeat case_decide; try done.
    + by destruct (ParseFiles _ _ _).
    + by destruct (Parse _ _).
  - destruct (getTemplate baseTmpl t); [done|].
    destruct (Clone _); simpl; [done|].
    repeat case_decide; try done.
    + by destruct (ParseFiles _ _ _).
    + by destruct (Parse _ _).
Qed.

(** *** The cascade leaves the tables alone *)

Lemma same_tables_refl t : same_tables t t.
Proof. by repeat split. Qed.

Lemma same_tables_trans t1 t2 t3 :
  same_tables t1 t2 → same_tables t2 t3 → same_tables t1 t3.
Proof. unfold same_tables. intros (?&?&?&?) (?&?&?&?). repeat split; congruence. Qed.

Lemma same_tables_set_tmpls f t : same_tables t (set_tmpls f t).
Proof. by repeat split. Qed.

Lemma rebuildLoop_frame (recurse : string → Template → M unit) fs tmpl :
  (∀ n tm t r t', recurse n tm t = (r, t') → same_tables t t') →
  ∀ L t r t', rebuildLoop recurse fs tmpl L t = (r, t') → same_tables t t'.
Proof.
  intros Hrec L. induction L as [|td L IH]; intros t r t'; simpl; run.
  - intros [= _ <-]. apply same_tables_refl.
  - destruct (rebuildChild fs tmpl td) as [e|ct]; simpl.
    + intros [= _ <-]. apply same_tables_refl.
    + destruct (recurse _ _ _) as [[[]| | |] t2] eqn:E; intros Hl;
        apply Hrec in E;
        (eapply same_tables_trans; [apply same_tables_set_tmpls|]);
        (eapply same_tables_trans; [apply E|]);
        first [by eapply IH | injection Hl as _ <-; apply same_tables_refl].
Qed.

Lemma rebuildChildTemplates_frame fuel fs n tm t r t' :
  rebuildChildTemplates fuel fs n tm t = (r, t') → same_tables t t'.
Proof.
  revert n tm t r t'. induction fuel as [|fuel IH]; intros n tm t r t'; simpl; run.
  - intros [= _ <-]. apply same_tables_refl.
  - destruct (checkName n); simpl.
    + intros [= _ <-]. apply same_tables_refl.
    + apply rebuildLoop_frame. apply IH.
Qed.

(** *** The children of a name *)

Lemma elem_of_children db n td :
  keyed db →
  td ∈ Get_tmplData_baseid db n ↔ db !! Name td = Some td ∧ BaseTmplID td = n.
Proof.
  intros Hk. unfold Get_tmplData_baseid.
  rewrite merge_sort_Permutation, list_elem_of_filter, list_elem_of_fmap.
  split.
  - intros [Hb [[k td'] [-> Hin]]]. apply elem_of_map_to_list in Hin.
    simpl in *. by rewrite (Hk _ _ Hin).
  - intros [Hl Hb]. split; [done|]. exists (Name td, td). split; [done|].
    by apply elem_of_map_to_list.
Qed.

Lemma children_parent db n td :
  keyed db → td ∈ Get_tmplData_baseid db n → parent db (Name td) n.
Proof. intros Hk [? ?]%elem_of_children; [|done]. by exists td. Qed.

Lemma NoDup_children db n :
  keyed db → NoDup (Name <$> Get_tmplData_baseid db n).
Proof.
  intros Hk. unfold Get_tmplData_baseid.
  rewrite merge_sort_Permutation.
  apply NoDup_fmap_2_strong.
  - intros a b [_ Ha]%list_elem_of_filter [_ Hb]%list_elem_of_filter E.
    apply list_elem_of_fmap in Ha as [[ka a'] [-> Ha]].
    apply list_elem_of_fmap in Hb as [[kb b'] [-> Hb]].
    apply elem_of_map_to_list in Ha, Hb. simpl in *.
    assert (ka = kb) as -> by (by rewrite <- (Hk _ _ Ha), <- (Hk _ _ Hb)).
    congruence.
  - apply NoDup_filter, NoDup_fmap_2_strong; [|apply NoDup_map_to_list].
    intros [ka a] [kb b] Ha Hb. simpl. intros ->.
    apply elem_of_map_to_list in Ha, Hb.
    by rewrite <- (Hk _ _ Ha), <- (Hk _ _ Hb).
Qed.

(** *** The base graph *)

Lemma parent_functional db m p q : parent db m p → parent db m q → p = q.
Proof. intros (td & Ht & <-) (td' & Ht' & <-). congruence. Qed.

Lemma tc_last {A} (R : relation A) x z : tc R x z → ∃ y, rtc R x y ∧ R y z.
Proof.
  induction 1 as [x z Hxz|x y z Hxy _ (w & Hyw & Hwz)].
  - exists x. by split.
  - exists w. split; [|done]. by eapply rtc_l.
Qed.

Lemma descendant_child db n c m :
  parent db c n → rtc (parent db) m c → descendant db n m.
Proof. intros Hc Hm. unfold descendant. eapply tc_rtc_l; [done|]. by apply tc_once. Qed.

(** Two ancestors of one name lie on one chain. *)
Lemma ancestors_chain db x a b :
  rtc (parent db) x a → rtc (parent db) x b →
  rtc (parent db) a b ∨ rtc (parent db) b a.
Proof.
  intros Ha. revert b. induction Ha as [x|x y a Hxy Hya IH]; intros b Hb.
  - by left.
  - destruct Hb as [|x y' b Hxy' Hyb].
    + right. by eapply rtc_l.
    + rewrite (parent_functional _ _ _ _ Hxy' Hxy) in Hyb. by apply IH.
Qed.

(** Two different children of [n] with a common descendant put [n] on a
    cycle. *)
Lemma siblings_disjoint db n c c' m :
  parent db c n → parent db c' n → c ≠ c' →
  rtc (parent db) m c → rtc (parent db) m c' → descendant db n n.
Proof.
  intros Hc Hc' Hne Hm Hm'.
  assert (∀ a b, parent db a n → parent db b n → a ≠ b →
                 rtc (parent db) a b → descendant db n n) as Hcyc.
  { intros a b Ha Hb Hab Hr. destruct Hr as [|a y b Hay Hyb]; [done|].
    rewrite (parent_functional _ _ _ _ Hay Ha) in Hyb.
    by eapply descendant_child. }
  destruct (ancestors_chain _ _ _ _ Hm Hm'); eauto.
Qed.

(** *** What the cascade writes *)

Lemma rebuildLoop_writes_below f fs tmpl n :
  writes_below (rebuildChildTemplates f fs) →
  ∀ L t r t', keyed (db t) →
    (∀ td, td ∈ L → parent (db t) (Name td) n) →
    rebuildLoop (rebuildChildTemplates f fs) fs tmpl L t = (r, t') →
    ∀ m, ¬ descendant (db t) n m → reg t' !! m = reg t !! m.
Proof.
  intros Hrec L. induction L as [|td L IH]; intros t r t' Hk HL; simpl; run.
  - by intros [= _ <-].
  - destruct (rebuildChild fs tmpl td) as [e|ct]; simpl; [by intros [= _ <-]|].
    intros Hl m Hm.
    assert (parent (db t) (Name td) n) as Hp by (apply HL; left).
    assert (m ≠ Name td) as Hne.
    { intros ->. apply Hm. by apply tc_once. }
    assert (¬ descendant (db t) (Name td) m) as Hm'.
    { intros Hd. apply Hm. by eapply tc_r. }
    destruct (rebuildChildTemplates f fs _ _ _) as [r1 t3] eqn:E.
    pose proof (rebuildChildTemplates_frame _ _ _ _ _ _ _ E) as (_ & Hdb & _).
    simpl in Hdb.
    pose proof (λ K, Hrec _ _ _ _ _ K E m Hm') as E3.
    specialize (E3 Hk). simpl in E3.
    rewrite lookup_insert_ne in E3 by done.
    destruct r1 as [[]| | |]; try (injection Hl as _ <-; done).
    rewrite <- E3. eapply IH; [by rewrite Hdb| |done|by rewrite Hdb].
    rewrite Hdb. intros td' Hin. apply HL. by right.
Qed.

Lemma rebuildChildTemplates_writes_below f fs :
  writes_below (rebuildChildTemplates f fs).
Proof.
  induction f as [|f IH]; intros n tm t r t' Hk; simpl; run.
  - by intros [= _ <-].
  - destruct (checkName n); simpl; [by intros [= _ <-]|].
    apply rebuildLoop_writes_below; [done..|].
    intros td. by apply children_parent.
Qed.

(** *** A cascade that meets a cycle does not return *)

Lemma rebuildLoop_Ok_inv (recurse : string → Template → M unit) fs tmpl :
  (∀ n tm t r t', recurse n tm t = (r, t') → same_tables t t') →
  ∀ L t u t', rebuildLoop recurse fs tmpl L t = (Ok u, t') →
    ∀ td, td ∈ L →
      ∃ ct t1 t2, recurse (Name td) ct t1 = (Ok tt, t2) ∧ same_tables t t1.
Proof.
  intros Hrec L. induction L as [|td L IH]; intros t u t'; simpl; run.
  - intros _ td Hin. by apply elem_of_nil in Hin.
  - destruct (rebuildChild fs tmpl td) as [e|ct]; simpl; [done|].
    destruct (recurse _ _ _) as [[[]| | |] t3] eqn:E; try done.
    intros Hl td' [->|Hin]%elem_of_cons.
    + eexists _, _, _. split; [apply E|]. apply same_tables_set_tmpls.
    + destruct (IH _ _ _ Hl _ Hin) as (ct' & t1 & t2 & Hr & Hs).
      eexists _, _, _. split; [apply Hr|].
      eapply same_tables_trans; [apply same_tables_set_tmpls|].
      eapply same_tables_trans; [|apply Hs]. by eapply Hrec.
Qed.

Lemma rebuildChildTemplates_cycle f fs n tm t u t' :
  keyed (db t) → descendant (db t) n n →
  rebuildChildTemplates f fs n tm t ≠ (Ok u, t').
Proof.
  revert n tm t u t'. induction f as [|f IH]; intros n tm t u t' Hk Hc; simpl; run.
  - done.
  - destruct (checkName n); simpl; [done|]. intros Hl.
    destruct (tc_last _ _ _ Hc) as (c & Hnc & Hcn).
    pose proof Hcn as (td & Htd & Hb).
    pose proof (Hk _ _ Htd) as Hname.
    assert (td ∈ Get_tmplData_baseid (db t) n) as Hin.
    { apply elem_of_children; [done|]. by rewrite Hname. }
    destruct (rebuildLoop_Ok_inv _ _ _ (rebuildChildTemplates_frame f fs)
                _ _ _ _ Hl _ Hin) as (ct & t1 & t2 & Hr & (_ & Hdb & _)).
    eapply IH; [| |apply Hr]; rewrite Hdb; [done|].
    rewrite Hname. unfold descendant.
    eapply tc_rtc_r; [by apply tc_once|done].
Qed.

(** *** What a cascade that returns has rebuilt *)

Lemma rebuildLoop_writes_subtrees f fs tmpl :
  ∀ L t r t', keyed (db t) →
    rebuildLoop (rebuildChildTemplates f fs) fs tmpl L t = (r, t') →
    ∀ m, (∀ td, td ∈ L → ¬ rtc (parent (db t)) m (Name td)) →
         reg t' !! m = reg t !! m.
Proof.
  intros L. induction L as [|td L IH]; intros t r t' Hk; simpl; run.
  - by intros [= _ <-].
  - destruct (rebuildChild fs tmpl td) as [e|ct]; simpl; [by intros [= _ <-]|].
    intros Hl m Hm.
    assert (m ≠ Name td) as Hne.
    { intros ->. eapply Hm; [left|]. done. }
    assert (¬ descendant (db t) (Name td) m) as Hm'.
    { intros Hd. eapply Hm; [left|]. by apply tc_rtc. }
    destruct (rebuildChildTemplates f fs _ _ _) as [r1 t3] eqn:E.
    pose proof (rebuildChildTemplates_frame _ _ _ _ _ _ _ E) as (_ & Hdb & _).
    simpl in Hdb.
    pose proof (λ K, rebuildChildTemplates_writes_below _ _ _ _ _ _ _ K E m Hm') as E3.
    specialize (E3 Hk). simpl in E3.
    rewrite lookup_insert_ne in E3 by done.
    destruct r1 as [[]| | |]; try (injection Hl as _ <-; done).
    rewrite <- E3. eapply IH; [by rewrite Hdb|done|].
    rewrite Hdb. intros td' Hin. apply Hm. by right.
Qed.

Lemma rebuilt_transfer fs t t' m :
  db t' = db t →
  (∀ x, x = m ∨ parent (db t) m x → reg t' !! x = reg t !! x) →
  rebuilt fs t m → rebuilt fs t' m.
Proof.
  intros Hdb Hreg (td & pt & ct & Htd & Hpt & Hct & Hm).
  exists td, pt, ct. rewrite Hdb. split_and!; [done| |done|].
  - rewrite Hreg; [done|]. right. by exists td.
  - rewrite Hreg; [done|]. by left.
Qed.

Lemma rebuildLoop_rebuilds f fs tmpl n :
  rebuilds_below fs (rebuildChildTemplates f fs) →
  ∀ L t t', keyed (db t) → ¬ descendant (db t) n n →
    reg t !! n = Some tmpl →
    (∀ td, td ∈ L → db t !! Name td = Some td ∧ BaseTmplID td = n) →
    NoDup (Name <$> L) →
    rebuildLoop (rebuildChildTemplates f fs) fs tmpl L t = (Ok tt, t') →
    reg t' !! n = Some tmpl
    ∧ ∀ td m, td ∈ L → rtc (parent (db t)) m (Name td) → rebuilt fs t' m.
Proof.
  intros Hrec L. induction L as [|td L IH]; intros t t' Hk Hn Hreg HL Hnd; simpl; run.
  - intros [= <-]. split; [done|]. intros td m Hin. by apply elem_of_nil in Hin.
  - destruct (rebuildChild fs tmpl td) as [e|ct] eqn:Ect; simpl; [done|].
    destruct (rebuildChildTemplates f fs _ _ _) as [r1 t3] eqn:E.
    destruct r1 as [[]| | |]; try done. intros Hl.
    pose proof (rebuildChildTemplates_frame _ _ _ _ _ _ _ E) as (_ & Hdb & _).
    simpl in Hdb.
    destruct (HL td) as [Htd Hbase]; [left|].
    assert (parent (db t) (Name td) n) as Hp by (by exists td).
    assert (¬ descendant (db t) (Name td) (Name td)) as Hcc.
    { intros Hd. by eapply (rebuildChildTemplates_cycle f fs (Name td) ct
                              (set_tmpls <[Name td:=ct]> t)). }
    assert (n ≠ Name td) as Hne.
    { intros Heq. apply Hn. rewrite <- Heq in Hp. by apply tc_once. }
    assert (¬ descendant (db t) (Name td) n) as Hcn.
    { intros Hd. apply Hn. unfold descendant in *. by eapply tc_r. }
    pose proof (λ K, rebuildChildTemplates_writes_below _ _ _ _ _ _ _ K E) as W.
    specialize (W Hk). simpl in W.
    assert (reg t3 !! Name td = Some ct) as Hc3.
    { rewrite W by done. apply lookup_insert_eq. }
    assert (reg t3 !! n = Some tmpl) as Hn3.
    { rewrite W by done. by rewrite lookup_insert_ne. }
    apply NoDup_cons in Hnd as [Hnotin Hnd].
    destruct (IH t3 t') as [Hn' Hrest]; try done; try (by rewrite Hdb).
    { rewrite Hdb. intros td' Hin. apply HL. by right. }
    split; [done|]. intros td' m [->|Hin]%elem_of_cons Hm.
    + (* the head: rebuilt in [t3], and left alone by the later siblings *)
      assert (∀ x, rtc (parent (db t)) x (Name td) →
                   reg t' !! x = reg t3 !! x) as Hkeep.
      { intros x Hx.
        eapply rebuildLoop_writes_subtrees; [|apply Hl|]; [by rewrite Hdb|].
        rewrite Hdb. intros td2 Hin2 Hx2. apply Hn.
        destruct (HL td2) as [Htd2 Hb2]; [by right|].
        eapply (siblings_disjoint _ n (Name td) (Name td2) x); try done.
        - by exists td2.
        - intros Heq. apply Hnotin. rewrite Heq. by apply list_elem_of_fmap_2. }
      assert (reg t' !! n = reg t3 !! n) as Hkeepn by congruence.
      assert (rebuilt fs t3 m) as Hm3.
      { apply rtc_tc in Hm as [->|Hm].
        - exists td, tmpl, ct. rewrite Hdb, Hbase. by split_and!.
        - eapply (Hrec (Name td) ct (set_tmpls <[Name td:=ct]> t)); try done.
          apply lookup_insert_eq. }
      eapply rebuilt_transfer; [| |apply Hm3].
      { destruct (rebuildLoop_frame _ fs tmpl (rebuildChildTemplates_frame f fs)
                    _ _ _ _ Hl) as (_ & ? & _). done. }
      rewrite Hdb. intros x [->|Hx]; [by apply Hkeep|].
      destruct Hm as [|m y c Hmy Hyc].
      * by rewrite (parent_functional _ _ _ _ Hx Hp).
      * rewrite (parent_functional _ _ _ _ Hx Hmy). by apply Hkeep.
    + apply (Hrest td'); [done|by rewrite Hdb].
Qed.

Lemma rebuildChildTemplates_rebuilds f fs :
  rebuilds_below fs (rebuildChildTemplates f fs).
Proof.
  induction f as [|f IH]; intros n tm t t' Hk Hreg Hr m Hm; [done|].
  assert (¬ descendant (db t) n n) as Hn.
  { intros Hd. by eapply rebuildChildTemplates_cycle. }
  simpl in Hr. run. destruct (checkName n); simpl in Hr; [done|].
  destruct (tc_last _ _ _ Hm) as (c & Hmc & Hcn).
  pose proof Hcn as (td & Htd & Hb). pose proof (Hk _ _ Htd) as Hname.
  eapply rebuildLoop_rebuilds in Hr as [_ Hr]; try done.
  - eapply (Hr td); [|by rewrite Hname].
    apply elem_of_children; [done|]. by rewrite Hname.
  - intros td' Hin. by apply elem_of_children in Hin.
  - by apply NoDup_children.
Qed.

(** *** Fuel *)

Lemma rebuildLoop_extends (r r' : string → Template → M unit) fs tmpl :
  extends r r' →
  ∀ L t, (rebuildLoop r fs tmpl L t).1 ≠ OutOfFuel →
         rebuildLoop r' fs tmpl L t = rebuildLoop r fs tmpl L t.
Proof.
  intros Hext L. induction L as [|td L IH]; intros t; simpl; run; [done|].
  destruct (rebuildChild fs tmpl td) as [e|ct]; simpl; [done|].
  intros Hr.
  assert ((r (Name td) ct (set_tmpls <[Name td:=ct]> t)).1 ≠ OutOfFuel) as Hne.
  { intros Heq. apply Hr.
    by destruct (r (Name td) ct _) as [[[]| | |] ?]; simpl in *. }
  rewrite (Hext _ _ _ Hne).
  destruct (r (Name td) ct _) as [[[]| | |] t3]; try done. by apply IH.
Qed.

Lemma rebuildChildTemplates_fuel_S f fs :
  extends (rebuildChildTemplates f fs) (rebuildChildTemplates (S f) fs).
Proof.
  induction f as [|f IH]; intros n tm t Hr; [done|].
  change (rebuildChildTemplates (S (S f)) fs n tm t) with
    ((check (checkName n) ;;;
      let* t := get in
      rebuildLoop (rebuildChildTemplates (S f) fs) fs tm
        (Get_tmplData_baseid (tmplDB_tmplData (store t)) n)) t).
  change (rebuildChildTemplates (S f) fs n tm t) with
    ((check (checkName n) ;;;
      let* t := get in
      rebuildLoop (rebuildChildTemplates f fs) fs tm
        (Get_tmplData_baseid (tmplDB_tmplData (store t)) n)) t) in *.
  run. destruct (checkName n); simpl in *; [done|].
  by apply rebuildLoop_extends.
Qed.

Lemma rebuildChildTemplates_fuel_mono (f f' : nat) fs n tm t :
  (f ≤ f')%nat → (rebuildChildTemplates f fs n tm t).1 ≠ OutOfFuel →
  rebuildChildTemplates f' fs n tm t = rebuildChildTemplates f fs n tm t.
Proof.
  induction 1 as [|f' Hle IH]; [done|]. intros Hr.
  rewrite <- (IH Hr). apply rebuildChildTemplates_fuel_S. by rewrite (IH Hr).
Qed.

(** *** On an acyclic graph the cascade returns *)

Lemma rebuildLoop_returns (recurse : string → Template → M unit) fs tmpl :
  (∀ n tm t r t', recurse n tm t = (r, t') → same_tables t t') →
  ∀ L t,
    (∀ td ct t1, td ∈ L → same_tables t t1 →
                 (recurse (Name td) ct t1).1 ≠ OutOfFuel) →
    (rebuildLoop recurse fs tmpl L t).1 ≠ OutOfFuel.
Proof.
  intros Hfr L. induction L as [|td L IH]; intros t Hrec; simpl; run; [done|].
  destruct (rebuildChild fs tmpl td) as [e|ct]; simpl; [done|].
  pose proof (Hrec td ct (set_tmpls <[Name td:=ct]> t)) as Hne.
  destruct (recurse (Name td) ct _) as [r1 t3] eqn:E.
  apply Hfr in E.
  destruct r1 as [[]| | |]; simpl in *; try done.
  - apply IH. intros td' ct' t1 Hin Hs. apply Hrec; [by right|].
    eapply same_tables_trans; [apply same_tables_set_tmpls|].
    by eapply same_tables_trans.
  - apply Hne; [left|apply same_tables_set_tmpls].
Qed.

Lemma rebuildChildTemplates_returns (f : nat) fs (S : gset string) n tm t :
  keyed (db t) →
  (∀ m, descendant (db t) n m → m ∈ S ∧ ¬ descendant (db t) m m) →
  (size S < f)%nat →
  (rebuildChildTemplates f fs n tm t).1 ≠ OutOfFuel.
Proof.
  revert S n tm t. induction f as [|f IH]; intros S n tm t Hk HS Hsz; [lia|].
  simpl. run. destruct (checkName n); simpl; [done|].
  apply rebuildLoop_returns; [apply rebuildChildTemplates_frame|].
  intros td ct t1 Hin (_ & Hdb & _).
  apply children_parent in Hin; [|done].
  destruct (HS (Name td)) as [HinS Hcc]; [by apply tc_once|].
  apply (IH (S ∖ {[Name td]})); rewrite ?Hdb; [done| |].
  - intros m Hm. destruct (HS m) as [HmS Hmm]; [by eapply tc_r|].
    split; [|done]. apply elem_of_difference. split; [done|].
    intros ->%elem_of_singleton. done.
  - pose proof (subset_difference_elem_of _ _ HinS) as Hsub.
    apply subset_size in Hsub. lia.
Qed.

(** *** What the calls keep true *)

Lemma saveTemplateDataToDB_spec fs td t r t' :
  saveTemplateDataToDB fs td t = (r, t') →
  baseDir t' = baseDir t ∧ reg t' = reg t
  ∧ match r with
    | Ok _ => db t' = <[Name td := td]> (db t)
    | _ => db t' = db t
    end.
Proof.
  unfold saveTemplateDataToDB, Insert_tmplData.
  destruct (removeOld _ _) as [[err|] w]; [by intros [= <- <-]|].
  case_decide; [by intros [= <- <-]|].
  destruct (HasSrc td); [by intros [= <- <-]|].
  destruct (addNew _ _ _ _ _) as [[[err|] rows] w']; by intros [= <- <-].
Qed.

Lemma rebuildLoop_keeps (recurse : string → Template → M unit) fs tmpl k :
  (∀ n tm t r t', recurse n tm t = (r, t') →
                  is_Some (reg t !! k) → is_Some (reg t' !! k)) →
  ∀ L t r t', rebuildLoop recurse fs tmpl L t = (r, t') →
              is_Some (reg t !! k) → is_Some (reg t' !! k).
Proof.
  intros Hrec L. induction L as [|td L IH]; intros t r t'; simpl; run.
  - by intros [= _ <-].
  - destruct (rebuildChild fs tmpl td) as [e|ct]; simpl; [by intros [= _ <-]|].
    destruct (recurse _ _ _) as [r1 t3] eqn:E. intros Hl Hk.
    assert (is_Some (reg t3 !! k)) as Hk3.
    { eapply Hrec; [apply E|]. simpl. rewrite lookup_insert.
      case_decide; [by eexists|done]. }
    destruct r1 as [[]| | |]; first [by eapply IH | by injection Hl as _ <-].
Qed.

Lemma rebuildChildTemplates_keeps f fs n tm t r t' k :
  rebuildChildTemplates f fs n tm t = (r, t') →
  is_Some (reg t !! k) → is_Some (reg t' !! k).
Proof.
  revert n tm t r t'. induction f as [|f IH]; intros n tm t r t'; simpl; run.
  - by intros [= _ <-].
  - destruct (checkName n); simpl; [by intros [= _ <-]|].
    apply rebuildLoop_keeps. apply IH.
Qed.

Lemma descendant_has_record dbt n m : descendant dbt n m → is_Some (dbt !! m).
Proof.
  unfold descendant. intros Hd.
  destruct Hd as [m n (td & Htd & _)|m y n (td & Htd & _) _]; by eexists.
Qed.

Lemma store_ok_rebuildChildTemplates f fs n tm t r t' :
  store_ok t → rebuildChildTemplates f fs n tm t = (r, t') → store_ok t'.
Proof.
  intros [Hk Hn Hr Hb] E.
  pose proof (rebuildChildTemplates_frame _ _ _ _ _ _ _ E) as (_ & Hdb & _).
  assert (∀ k, is_Some (reg t' !! k) → is_Some (reg t !! k)) as Hback.
  { intros k Hs. destruct (db t !! k) as [td|] eqn:Ek; [apply Hr; by eexists|].
    rewrite <- (rebuildChildTemplates_writes_below _ _ _ _ _ _ _ Hk E); [done|].
    intros Hd%descendant_has_record. rewrite Ek in Hd. by destruct Hd. }
  split; rewrite ?Hdb; try done.
  - intros k Hs. by apply Hn, Hback.
  - intros k Hs. eapply rebuildChildTemplates_keeps; [apply E|]. by apply Hr.
  - intros k td Htd Hc. eapply rebuildChildTemplates_keeps; [apply E|]. by eapply Hb.
Qed.

Lemma store_ok_set_tmpls name tm t :
  store_ok t → checkName name = None → store_ok (set_tmpls <[name := tm]> t).
Proof.
  intros [Hk Hn Hr Hb] Hc. split; simpl; try done.
  - intros k. rewrite lookup_insert. case_decide as E; [by subst|apply Hn].
  - intros k Hs. rewrite lookup_insert. case_decide; [by eexists|by apply Hr].
  - intros k td Htd Hc'. rewrite lookup_insert.
    case_decide; [by eexists|by eapply Hb].
Qed.

Lemma store_ok_saveTemplateDataToDB fs td t r t' :
  store_ok t →
  is_Some (reg t !! Name td) →
  (checkName (BaseTmplID td) = None → is_Some (reg t !! BaseTmplID td)) →
  saveTemplateDataToDB fs td t = (r, t') → store_ok t'.
Proof.
  intros [Hk Hn Hr Hb] Hname Hbase E.
  apply saveTemplateDataToDB_spec in E as (_ & Hreg & Hdb).
  assert (db t' = db t ∨ db t' = <[Name td := td]> (db t)) as [Heq|Heq]
    by (destruct r; eauto).
  - split; rewrite ?Heq, ?Hreg; done.
  - split; rewrite ?Heq, ?Hreg.
    + intros k td'. rewrite lookup_insert.
      case_decide as E; [by intros [= <-]|apply Hk].
    + done.
    + intros k. rewrite lookup_insert. case_decide as E; [by subst|apply Hr].
    + intros k td'. rewrite lookup_insert.
      case_decide as E; [by intros [= <-]|apply Hb].
Qed.

(** What a successful [ownTemplate] says of its record. *)
Lemma ownTemplate_inr fs name baseTmpl tmplSrc filenames t tm td :
  ownTemplate fs name baseTmpl tmplSrc filenames t = inr (tm, td) →
  checkName name = None
  ∧ Name td = name
  ∧ BaseTmplID td = baseTmpl
  ∧ Src td = TrimSpace tmplSrc
  ∧ (checkName baseTmpl = None → is_Some (reg t !! baseTmpl)).
Proof.
  unfold ownTemplate, getTemplate.
  destruct (checkName name); [done|].
  destruct (checkName baseTmpl).
  - repeat case_decide; try done.
    + destruct (ParseFiles _ _ _); [done|]. by intros [= <- <-].
    + destruct (Parse _ _); [done|]. by intros [= <- <-].
  - destruct (reg t !! baseTmpl) eqn:Eb; [|done].
    destruct (Clone _); [done|].
    repeat case_decide; try done.
    + destruct (ParseFiles _ _ _); [done|]. intros [= <- <-]. by split_and!.
    + destruct (Parse _ _); [done|]. intros [= <- <-]. by split_and!.
Qed.

Lemma store_ok_saveTemplate fuel fs name baseTmpl isNew tmplSrc filenames t r t' :
  store_ok t →
  saveTemplate fuel fs name baseTmpl isNew tmplSrc filenames t = (r, t') →
  store_ok t'.
Proof.
  intros Hok. rewrite saveTemplate_eq.
  destruct (ownTemplate _ _ _ _ _ _) as [e|[tm td]] eqn:Eo; [by intros [= _ <-]|].
  apply ownTemplate_inr in Eo as (Hc & Hname & Hbase & _ & Hreg).
  run. destruct (saveTemplateDataToDB fs td _) as [r1 t1] eqn:E1.
  assert (store_ok t1) as Hok1.
  { eapply store_ok_saveTemplateDataToDB; [|..|apply E1].
    - by apply store_ok_set_tmpls.
    - simpl. rewrite Hname, lookup_insert_eq. by eexists.
    - simpl. rewrite Hbase. intros Hv. rewrite lookup_insert.
      case_decide; [by eexists|by apply Hreg]. }
  destruct r1 as [[]| | |]; try by intros [= _ <-].
  destruct isNew; [by intros [= _ <-]|].
  destruct (rebuildChildTemplates _ _ _ _ _) as [r2 t2] eqn:E2.
  apply store_ok_rebuildChildTemplates in E2; [|done].
  destruct r2 as [[]| | |]; by intros [= _ <-].
Qed.

Lemma store_ok_New basedir : store_ok (NewTplSys basedir).
Proof.
  split; simpl.
  - intros k td. by rewrite lookup_empty.
  - intros k. rewrite lookup_empty. by intros [? ?].
  - intros k. rewrite lookup_empty. by intros [? ?].
  - intros k td. by rewrite lookup_empty.
Qed.

Lemma store_ok_AddTemplate fuel fs name baseTmpl tmplSrc filenames t r t' :
  store_ok t →
  AddTemplate fuel fs name baseTmpl tmplSrc filenames t = (r, t') →
  store_ok t'.
Proof.
  intros Hok. unfold AddTemplate.
  destruct (getTemplate name t) as [[]|]; try by intros [= _ <-].
  by apply store_ok_saveTemplate.
Qed.

Lemma store_ok_PutTemplate fuel fs name baseTmpl tmplSrc filenames t r t' :
  store_ok t →
  PutTemplate fuel fs name baseTmpl tmplSrc filenames t = (r, t') →
  store_ok t'.
Proof.
  intros Hok. unfold PutTemplate.
  destruct (getTemplate name t) as [[]|]; try (by intros [= _ <-]);
    by apply store_ok_saveTemplate.
Qed.

Lemma reachable_store_ok t : reachable t → store_ok t.
Proof.
  induction 1 as [basedir|t _ IH|t fuel fs name b src files _ IH _
                 |t fuel fs name b src files _ IH _].
  - apply store_ok_New.
  - apply store_ok_New.
  - eapply store_ok_AddTemplate; [apply IH|apply surjective_pairing].
  - eapply store_ok_PutTemplate; [apply IH|apply surjective_pairing].
Qed.

(** *** [saveTemplate], taken apart *)

Lemma getTemplate_inr name t tm :
  getTemplate name t = inr tm ↔ checkName name = None ∧ reg t !! name = Some tm.
Proof.
  unfold getTemplate. destruct (checkName name).
  - split; [done|]. by intros [[=] _].
  - destruct (reg t !! name).
    + split; [by intros [= ->]|]. by intros [_ [= ->]].
    + split; [done|]. by intros [_ [=]].
Qed.

(** A [saveTemplate] that returns a template has installed it, recorded it
    and, unless the name is new, run the cascade from it. *)
Lemma saveTemplate_Ok fuel fs name baseTmpl isNew tmplSrc filenames t tm t' :
  saveTemplate fuel fs name baseTmpl isNew tmplSrc filenames t = (Ok tm, t') →
  ∃ td t1,
    ownTemplate fs name baseTmpl tmplSrc filenames t = inr (tm, td)
    ∧ reg t1 = <[name := tm]> (reg t)
    ∧ db t1 = <[name := td]> (db t)
    ∧ baseDir t1 = baseDir t
    ∧ (if isNew then t' = t1
       else rebuildChildTemplates fuel fs name tm t1 = (Ok tt, t')).
Proof.
  rewrite saveTemplate_eq.
  destruct (ownTemplate _ _ _ _ _ _) as [e|[tm' td]] eqn:Eo; [done|].
  pose proof (ownTemplate_inr _ _ _ _ _ _ _ _ Eo) as (_ & Hname & _).
  run. destruct (saveTemplateDataToDB fs td _) as [r1 t1] eqn:E1.
  apply saveTemplateDataToDB_spec in E1 as (Hbd & Hreg & Hdb).
  destruct r1 as [[]| | |]; try done. rewrite Hname in Hdb.
  destruct isNew.
  - intros [= <- <-]. by exists td, t1.
  - destruct (rebuildChildTemplates _ _ _ _ _) as [[[]| | |] t2] eqn:E2; try done.
    intros [= <- <-]. by exists td, t1.
Qed.

(** The record of a successful [ownTemplate], by kind of source. *)
Lemma ownTemplate_source fs name baseTmpl tmplSrc filenames t tm td :
  ownTemplate fs name baseTmpl tmplSrc filenames t = inr (tm, td) →
  ∃ base,
    if decide (TrimSpace tmplSrc = "") then
      HasSrc td = false
      ∧ Filenames td = cleanFilename (BaseDir t) <$> filenames
      ∧ ParseFiles fs base (Filenames td) = inr tm
    else
      HasSrc td = true
      ∧ Filenames td = filenames
      ∧ Parse base (TrimSpace tmplSrc) = inr tm.
Proof.
  unfold ownTemplate.
  destruct (checkName name); [done|].
  destruct (checkName baseTmpl);
    [|destruct (getTemplate baseTmpl t); [done|]; destruct (Clone _); [done|]];
    (intros Ho; eexists; revert Ho;
     destruct (decide (TrimSpace tmplSrc = "")) as [E|E];
     [ rewrite (decide_True (P := String.length (TrimSpace tmplSrc) = 0))
         by (by rewrite E);
       case_decide; [done|];
       destruct (ParseFiles _ _ _) eqn:Ep; [done|];
       intros [= <- <-]; split_and!; first [done|exact Ep]
     | rewrite (decide_False (P := String.length (TrimSpace tmplSrc) = 0))
         by (by rewrite length_zero_empty);
       destruct (Parse _ _) eqn:Ep; [done|];
       intros [= <- <-]; split_and!; first [done|exact Ep] ]).
Qed.






(** *** [AddTemplate] keeps the base graph acyclic *)

Lemma acyclic_insert_fresh dbt name td :
  (∀ m, ¬ parent (<[name := td]> dbt) m name) →
  acyclic dbt → acyclic (<[name := td]> dbt).
Proof.
  intros Hin Hac n Hc.
  assert (∀ x y, tc (parent (<[name := td]> dbt)) x y → x ≠ name →
                 tc (parent dbt) x y) as Hold.
  { intros x y Ht. induction Ht as [x y (tdx & Hx & Hb)|x z y (tdx & Hx & Hb) _ IH];
      intros Hne; rewrite lookup_insert_ne in Hx by done.
    - apply tc_once. by exists tdx.
    - eapply tc_l; [by exists tdx|]. apply IH.
      intros ->. eapply Hin. exists tdx. by rewrite lookup_insert_ne. }
  apply (Hac n), Hold; [done|].
  intros ->. destruct (tc_last _ _ _ Hc) as (y & _ & Hy). by eapply Hin.
Qed.

Lemma AddTemplate_acyclic fuel fs name baseTmpl tmplSrc filenames t :
  store_ok t → acyclic (db t) →
  acyclic (db (AddTemplate fuel fs name baseTmpl tmplSrc filenames t).2).
Proof.
  intros Hok Hac. unfold AddTemplate.
  destruct (getTemplate name t) as [e|] eqn:Eg; [|done].
  assert (e = ErrTmplNotFound → reg t !! name = None) as Hfresh.
  { intros ->. unfold getTemplate in Eg. destruct (checkName name) eqn:Ec.
    - apply checkName_Some in Ec. congruence.
    - by destruct (reg t !! name). }
  destruct e; try done. specialize (Hfresh eq_refl).
  rewrite saveTemplate_eq.
  destruct (ownTemplate _ _ _ _ _ _) as [e|[tm td]] eqn:Eo; [done|].
  apply ownTemplate_inr in Eo as (Hc & Hname & Hbase & _ & Hreg).
  run. destruct (saveTemplateDataToDB fs td _) as [r1 t1] eqn:E1.
  apply saveTemplateDataToDB_spec in E1 as (_ & _ & Hdb). simpl in Hdb.
  assert (acyclic (<[Name td := td]> (db t))) as Hac'.
  { apply acyclic_insert_fresh; [|done]. rewrite Hname.
    intros m (tdm & Hm & Hb). rewrite lookup_insert in Hm.
    assert (is_Some (reg t !! name)) as [? ?]; [|congruence].
    case_decide.
    - injection Hm as <-. assert (baseTmpl = name) as Hbn by congruence.
      rewrite <- Hbn. apply Hreg. by rewrite Hbn.
    - rewrite <- Hb. eapply (ok_bases _ Hok); [done|]. by rewrite Hb. }
  destruct r1 as [[]| | |]; simpl; by rewrite Hdb.
Qed.

(** *** The errors of [saveTemplateDataToDB] are its collaborators' *)

Lemma removeOld_error olds w e w' :
  removeOld olds w = (Some e, w') → foreign e.
Proof.
  revert w. induction olds as [|tf olds IH]; intros w; simpl; [done|].
  destruct (watch_Remove _ _); [by intros [= <- _]|apply IH].
Qed.

Lemma addNew_error fs name files rows w e rows' w' :
  addNew fs name files rows w = (Some e, rows', w') → foreign e.
Proof.
  revert rows w. induction files as [|f files IH]; intros rows w; simpl; [done|].
  destruct (Insert_tmplFilename _ _); [by intros [= <- _ _]|].
  destruct (watch_Add _ _ _); [by intros [= <- _ _]|apply IH].
Qed.

Lemma saveTemplateDataToDB_error fs td t e t' :
  saveTemplateDataToDB fs td t = (Err e, t') → foreign e.
Proof.
  unfold saveTemplateDataToDB.
  destruct (removeOld _ _) as [[err|] w] eqn:Er.
  { intros [= <- _]. by eapply removeOld_error. }
  destruct (Insert_tmplData _ _); [|by intros [= <- _]].
  destruct (HasSrc td); [done|].
  destruct (addNew _ _ _ _ _) as [[[err|] rows] w'] eqn:Ea; [|done].
  intros [= <- _]. by eapply addNew_error.
Qed.

(** *** One step of the cascade *)

Lemma rebuildChildTemplates_S fuel fs n tm t :
  rebuildChildTemplates (S fuel) fs n tm t =
  match checkName n with
  | Some e => (Err e, t)
  | None => rebuildLoop (rebuildChildTemplates fuel fs) fs tm
              (Get_tmplData_baseid (db t) n) t
  end.
Proof. simpl. run. by destruct (checkName n). Qed.

Lemma rebuildLoop_cons (recurse : string → Template → M unit) fs tm td L t :
  rebuildLoop recurse fs tm (td :: L) t =
  match rebuildChild fs tm td with
  | inl e => (Err (ErrEngine e), t)
  | inr ct =>
      match recurse (Name td) ct (set_tmpls <[Name td := ct]> t) with
      | (Ok _, t') => rebuildLoop recurse fs tm L t'
      | (Err e, t') => (Err e, t')
      | (Panic, t') => (Panic, t')
      | (OutOfFuel, t') => (OutOfFuel, t')
      end
  end.
Proof. simpl. run. by destruct (rebuildChild fs tm td). Qed.

(** *** [ExecuteTemplate] *)

Lemma append_empty_r (s : string) : s ++ "" = s.
Proof.
  induction s as [|c s IH]; [done|].
  change (String c s ++ "") with (String c (s ++ "")). by rewrite IH.
Qed.

(** With no buffer waiting in the pool, the slice a call returns shows,
    when the call returns, the bytes the clone wrote; the buffer behind it
    is then the one waiting in the pool. *)
Lemma ExecuteTemplate_renders name (ctx : Data) t mem tm c out :
  pool mem = [] →
  getTemplate name t = inr tm → Clone tm = inr c → Execute c ctx = (out, None) →
  ∃ d mem',
    ExecuteTemplate name ctx t mem = (Ok d, mem')
    ∧ bytesOf mem' d = out
    ∧ pool mem' = [nextAddr mem].
Proof.
  intros Hpool Hg Hc He. unfold ExecuteTemplate, BufferPool_Get.
  rewrite Hg, Hpool, Hc, He. eexists _, _. split; [done|].
  unfold bytesOf, BufferPool_Put, Buffer_Reset, Buffer_Bytes, Buffer_Write,
    bufferAt, arrayAt.
  simpl. rewrite !lookup_insert_eq. simpl.
  case_decide as Hfit; simpl; rewrite !lookup_insert_eq; simpl;
    rewrite ?lookup_insert_eq; simpl.
  - assert (out = "") as -> by (destruct out; [done|simpl in Hfit; lia]). done.
  - split; [|done]. change ("" ++ out ++ "") with (out ++ "").
    rewrite append_empty_r. apply substring_all.
Qed.

Lemma substring_zero_len (n : nat) (s : string) : substring n 0 s = "".
Proof. revert n. induction s as [|c s IH]; intros [|n]; simpl; auto. Qed.

Lemma substring_prefix_app (s r : string) :
  substring 0 (String.length s) (s ++ r) = s.
Proof.
  induction s as [|c s IH]; [by rewrite substring_zero_len|].
  change (String c s ++ r) with (String c (s ++ r)). simpl. by rewrite IH.
Qed.

(** The first call on an empty pool: the rendering is in a new array, and
    the buffer that holds this array waits in the pool. *)
Lemma ExecuteTemplate_first name (ctx : Data) t mem tm c out :
  pool mem = [] →
  getTemplate name t = inr tm → Clone tm = inr c → Execute c ctx = (out, None) →
  out ≠ "" →
  ∃ mem',
    ExecuteTemplate name ctx t mem
    = (Ok {| slArray := S (S (nextAddr mem)); slLen := String.length out |}, mem')
    ∧ arrays mem' !! S (S (nextAddr mem)) = Some out
    ∧ buffers mem' !! nextAddr mem
      = Some {| bufArray := S (S (nextAddr mem)); bufLen := 0 |}
    ∧ pool mem' = [nextAddr mem].
Proof.
  intros Hpool Hg Hc He Hne. unfold ExecuteTemplate, BufferPool_Get.
  rewrite Hg, Hpool, Hc, He.
  unfold BufferPool_Put, Buffer_Reset, Buffer_Bytes, Buffer_Write,
    bufferAt, arrayAt.
  simpl. rewrite !lookup_insert_eq. simpl.
  rewrite decide_False by (destruct out; [done|simpl; lia]).
  simpl. rewrite !lookup_insert_eq. simpl. eexists. split; [done|].
  change ("" ++ out ++ "") with (out ++ ""). rewrite append_empty_r.
  split_and!; simpl; rewrite ?lookup_insert_eq; done.
Qed.

(** A later call takes the waiting buffer and, when its rendering fits,
    writes it over the start of the array the buffer holds. *)
Lemma ExecuteTemplate_reuse name (ctx : Data) t mem tm c out b a old :
  pool mem = [b] →
  buffers mem !! b = Some {| bufArray := a; bufLen := 0 |} →
  arrays mem !! a = Some old →
  getTemplate name t = inr tm → Clone tm = inr c → Execute c ctx = (out, None) →
  (String.length out ≤ String.length old)%nat →
  ∃ mem',
    ExecuteTemplate name ctx t mem
    = (Ok {| slArray := a; slLen := String.length out |}, mem')
    ∧ arrays mem' !! a
      = Some (out ++ substring (String.length out)
                       (String.length old - String.length out) old).
Proof.
  intros Hpool Hb Ha Hg Hc He Hfit. unfold ExecuteTemplate, BufferPool_Get.
  rewrite Hg, Hpool, Hc, He.
  unfold BufferPool_Put, Buffer_Reset, Buffer_Bytes, Buffer_Write,
    bufferAt, arrayAt.
  simpl. rewrite Hb. simpl. rewrite Ha. simpl.
  rewrite decide_True by done.
  simpl. rewrite !lookup_insert_eq. simpl. eexists. split; [done|].
  simpl. rewrite ?lookup_insert_eq. by rewrite substring_zero_len.
Qed.

End StoreProofs.

(** * The claims *)

Section Claims.
Context `{Collaborators}.

#[local] Abbreviation error := (error EngineError WatchError).
#[local] Abbreviation result := (result EngineError WatchError).
#[local] Abbreviation db t := (tmplDB_tmplData (store t)).
#[local] Abbreviation reg t := (tmpls (store t)).

Implicit Types (t : TplSys) (fs : FileSystem) (tmpl : Template).
Implicit Types (name baseTmpl tmplSrc : string) (filenames : list string).
Implicit Types (fuel : nat).


(** C2 (cascade termination), as amended.  In a reachable store whose base
    graph is acyclic, [rebuildChildTemplates] returns: with any fuel above
    the number of records it gives one and the same result, which is not
    "no return".  [AddTemplate] keeps the graph acyclic, because the base of
    a new template is an existing one.  ([PutTemplate] can give an existing
    template a new base, see the counterexample.) *)
Theorem C2_cascade_returns_on_acyclic_graph t :
  reachable t → acyclic (db t) →
  (∀ fs name tmpl, ∃ r t',
      r ≠ OutOfFuel
      ∧ ∀ fuel, (size (db t) < fuel)%nat →
                rebuildChildTemplates fuel fs name tmpl t = (r, t'))
  ∧ (∀ fuel fs name baseTmpl tmplSrc filenames,
      acyclic (db (AddTemplate fuel fs name baseTmpl tmplSrc filenames t).2)).
Proof.
  intros Hreach Hac. pose proof (reachable_store_ok _ Hreach) as Hok.
  split; [|intros; by apply AddTemplate_acyclic].
  intros fs name tmpl.
  assert ((rebuildChildTemplates (S (size (db t))) fs name tmpl t).1 ≠ OutOfFuel)
    as Hret.
  { apply (rebuildChildTemplates_returns _ _ (dom (db t))).
    - apply (ok_keyed _ Hok).
    - intros m Hm. split; [|apply Hac].
      by apply elem_of_dom, (descendant_has_record _ name).
    - rewrite size_dom. lia. }
  destruct (rebuildChildTemplates (S (size (db t))) fs name tmpl t) as [r t'] eqn:E.
  exists r, t'. split; [done|]. intros fuel Hfuel.
  rewrite <- E. apply rebuildChildTemplates_fuel_mono; [lia|]. by rewrite E.
Qed.


(** C4 (isolation of execution), where it fails.  [ExecuteTemplate] renders
    on a clone, and what each call returns reads, when the call returns, as
    its own rendering.  But the slice it returns is a view of a buffer that
    goes back to the pool: of two calls, one after the other, whose
    renderings are as long as each other, the second writes into the array
    the first returned, and the bytes the first call returned then read as
    the second rendering. *)
Theorem C4_second_call_overwrites_first name (ctx1 ctx2 : Data) t mem tm c out1 out2 :
  pool mem = [] →
  getTemplate name t = inr tm → Clone tm = inr c →
  Execute c ctx1 = (out1, None) → Execute c ctx2 = (out2, None) →
  out1 ≠ "" → String.length out2 = String.length out1 →
  ∃ d1 mem1 d2 mem2,
    ExecuteTemplate name ctx1 t mem = (Ok d1, mem1)
    ∧ ExecuteTemplate name ctx2 t mem1 = (Ok d2, mem2)
    ∧ bytesOf mem1 d1 = out1
    ∧ bytesOf mem2 d2 = out2
    ∧ bytesOf mem2 d1 = out2.
Proof.
  intros Hpool Hg Hc He1 He2 Hne Hlen.
  destruct (ExecuteTemplate_first _ _ _ _ _ _ _ Hpool Hg Hc He1 Hne)
    as (mem1 & Hr1 & Ha1 & Hb1 & Hp1).
  destruct (ExecuteTemplate_reuse _ _ _ _ _ _ _ _ _ _ Hp1 Hb1 Ha1 Hg Hc He2)
    as (mem2 & Hr2 & Ha2); [lia|].
  eexists _, mem1, _, mem2. split_and!; [done..| | |];
    unfold bytesOf, arrayAt; simpl.
  - rewrite Ha1. apply substring_all.
  - rewrite Ha2. simpl. apply substring_prefix_app.
  - rewrite Ha2. simpl. rewrite <- Hlen. apply substring_prefix_app.
Qed.

(** C5 (name validation), as amended.  A blank template name makes
    [AddTemplate], [PutTemplate], [ExecuteTemplate] and [getTemplate]
    return [ErrNoName], the store (and the buffers) untouched.  A blank
    base name is not refused: with one, [AddTemplate] returns [ErrNoName]
    only when the template name is blank. *)
Theorem C5_blank_name_is_refused fuel fs name baseTmpl tmplSrc filenames ctx t mem :
  (TrimSpace name = "" →
     AddTemplate fuel fs name baseTmpl tmplSrc filenames t = (Err ErrNoName, t)
     ∧ PutTemplate fuel fs name baseTmpl tmplSrc filenames t = (Err ErrNoName, t)
     ∧ ExecuteTemplate name ctx t mem = (Err ErrNoName, mem)
     ∧ getTemplate name t = inl ErrNoName)
  ∧ (TrimSpace baseTmpl = "" →
     (AddTemplate fuel fs name baseTmpl tmplSrc filenames t).1 = Err ErrNoName →
     TrimSpace name = "").
Proof.
  split.
  - intros Hblank.
    assert (getTemplate name t = inl ErrNoName) as Hg.
    { unfold getTemplate. by rewrite (checkName_blank _ Hblank). }
    unfold AddTemplate, PutTemplate, ExecuteTemplate. by rewrite Hg.
  - intros Hbase. unfold AddTemplate, getTemplate.
    destruct (checkName name) as [e|] eqn:Ec.
    { intros _. unfold checkName in Ec. case_decide as E; [|done].
      by apply length_zero_empty in E. }
    destruct (reg t !! name); [done|].
    rewrite saveTemplate_eq.
    destruct (ownTemplate _ _ _ _ _ _) as [e|[tm td]] eqn:Eo.
    + simpl. intros [= ->]. revert Eo. unfold ownTemplate.
      rewrite Ec, (checkName_blank _ Hbase).
      repeat case_decide; try done.
      * by destruct (ParseFiles _ _ _).
      * by destruct (Parse _ _).
    + run. destruct (saveTemplateDataToDB fs td _) as [r1 t1] eqn:E1.
      destruct r1 as [[]| | |]; try done. simpl. intros [= ->].
      by apply saveTemplateDataToDB_error in E1.
Qed.

(** C6 (no duplicate add).  In a reachable store where [name] is
    registered, [AddTemplate] for [name] returns [ErrTmplExists] and leaves
    the store, so the template and the record of [name], as it was. *)
Theorem C6_no_duplicate_add fuel fs name baseTmpl tmplSrc filenames t :
  reachable t →
  is_Some (reg t !! name) →
  AddTemplate fuel fs name baseTmpl tmplSrc filenames t = (Err ErrTmplExists, t).
Proof.
  intros Hreach [tm Hreg]. pose proof (reachable_store_ok _ Hreach) as Hok.
  unfold AddTemplate.
  assert (getTemplate name t = inr tm) as ->; [|done].
  apply getTemplate_inr. split; [|done]. apply (ok_names _ Hok). by eexists.
Qed.

(** C7 (unresolved base).  In a reachable store, [AddTemplate] of a new,
    valid name on a base name that is valid but not registered returns
    [ErrTmplNotFound] and leaves the store as it was: the child is in
    neither the registry nor the table. *)
Theorem C7_unresolved_base fuel fs name baseTmpl tmplSrc filenames t :
  reachable t →
  TrimSpace name ≠ "" → reg t !! name = None →
  TrimSpace baseTmpl ≠ "" → reg t !! baseTmpl = None →
  ∃ t',
    AddTemplate fuel fs name baseTmpl tmplSrc filenames t = (Err ErrTmplNotFound, t')
    ∧ t' = t
    ∧ reg t' !! name = None
    ∧ db t' !! name = None.
Proof.
  intros Hreach Hn Hfresh Hb Hmissing. exists t. split_and!; [|done..|].
  - unfold AddTemplate, getTemplate.
    rewrite (checkName_valid _ Hn), Hfresh, saveTemplate_eq.
    unfold ownTemplate, getTemplate.
    by rewrite (checkName_valid _ Hn), (checkName_valid _ Hb), Hmissing.
  - pose proof (reachable_store_ok _ Hreach) as Hok.
    destruct (db t !! name) as [td|] eqn:E; [|done].
    destruct (ok_registered _ Hok name) as [? ?]; [by eexists|congruence].
Qed.


(** C9 (put equals add on fresh names).  In a store where [name] is not
    registered, [PutTemplate] returns what [AddTemplate] returns on the same
    arguments and leaves the same store. *)
Theorem C9_put_equals_add_on_fresh_names fuel fs name baseTmpl tmplSrc filenames t :
  reg t !! name = None →
  PutTemplate fuel fs name baseTmpl tmplSrc filenames t
  = AddTemplate fuel fs name baseTmpl tmplSrc filenames t.
Proof.
  intros Hfresh. unfold PutTemplate, AddTemplate, getTemplate.
  destruct (checkName name) as [e|] eqn:Ec.
  - by apply checkName_Some in Ec as ->.
  - by rewrite Hfresh.
Qed.


End Claims.

(** * Further properties *)

Section Further.
Context `{Collaborators}.

#[local] Abbreviation error := (error EngineError WatchError).
#[local] Abbreviation result := (result EngineError WatchError).
#[local] Abbreviation db t := (tmplDB_tmplData (store t)).
#[local] Abbreviation reg t := (tmpls (store t)).
#[local] Abbreviation rows t := (tmplDB_tmplFilename (store t)).

Implicit Types (t : TplSys) (fs : FileSystem) (tmpl : Template).
Implicit Types (name baseTmpl tmplSrc : string) (filenames : list string).
Implicit Types (fuel : nat).

(** *** White space is trimmed once and for all *)

Lemma bytes_of_of_bytes l :
  Forall (λ n, n < 256)%nat l → bytes_of (of_bytes l) = l.
Proof.
  intros Hl. unfold bytes_of, of_bytes.
  rewrite list_ascii_of_string_of_list_ascii.
  induction Hl as [|n l Hn _ IH]; [done|]. simpl.
  by rewrite nat_ascii_embedding, IH.
Qed.

Lemma bytes_of_bounded s : Forall (λ n, n < 256)%nat (bytes_of s).
Proof.
  unfold bytes_of. induction (list_ascii_of_string s) as [|a l IH]; [done|].
  simpl. constructor; [apply nat_ascii_bounded|done].
Qed.

(** Induction along a scan that looks up to three bytes ahead. *)
Lemma scan_ind (P : list nat → Prop) :
  P [] →
  (∀ a l1, P l1 →
     (∀ b l2, l1 = b :: l2 → P l2) →
     (∀ b c l3, l1 = b :: c :: l3 → P l3) → P (a :: l1)) →
  ∀ l, P l.
Proof.
  intros Hnil Hcons l.
  assert (∀ (n : nat) l, (length l ≤ n)%nat → P l) as Hall;
    [|by apply (Hall (length l))].
  clear l. intros n. induction n as [|n IH]; intros l Hl.
  { destruct l; [done|simpl in Hl; lia]. }
  destruct l as [|a l1]; [done|]. simpl in Hl. apply Hcons.
  - apply IH. lia.
  - intros b l2 ->. apply IH. simpl in Hl. lia.
  - intros b c l3 ->. apply IH. simpl in Hl. lia.
Qed.

Lemma trimLeftSpace_suffix l : trimLeftSpace l `suffix_of` l.
Proof.
  induction l as [|a l1 IH1 IH2 IH3] using scan_ind; [done|]. simpl.
  destruct (space1 a); [by apply suffix_cons_r|].
  destruct l1 as [|b l2]; [done|].
  destruct (space2 a b); [by apply suffix_cons_r, suffix_cons_r, (IH2 b)|].
  destruct l2 as [|c l3]; [done|].
  destruct (space3 a b c); [|done].
  by apply suffix_cons_r, suffix_cons_r, suffix_cons_r, (IH3 b c).
Qed.

Lemma trimLeftSpace_idemp l : trimLeftSpace (trimLeftSpace l) = trimLeftSpace l.
Proof.
  induction l as [|a l1 IH1 IH2 IH3] using scan_ind; [done|]. simpl.
  destruct (space1 a) eqn:E1; [done|].
  destruct l1 as [|b l2]; [simpl; by rewrite E1|].
  destruct (space2 a b) eqn:E2; [by apply (IH2 b)|].
  destruct l2 as [|c l3]; [simpl; by rewrite E1, E2|].
  destruct (space3 a b c) eqn:E3; [by apply (IH3 b c)|].
  simpl. by rewrite E1, E2, E3.
Qed.

Lemma trimLeftSpaceRev_suffix l : trimLeftSpaceRev l `suffix_of` l.
Proof.
  induction l as [|a l1 IH1 IH2 IH3] using scan_ind; [done|]. simpl.
  destruct (space1 a); [by apply suffix_cons_r|].
  destruct l1 as [|b l2]; [done|].
  destruct (space2 b a); [by apply suffix_cons_r, suffix_cons_r, (IH2 b)|].
  destruct l2 as [|c l3]; [done|].
  destruct (space3 c b a); [|done].
  by apply suffix_cons_r, suffix_cons_r, suffix_cons_r, (IH3 b c).
Qed.

Lemma trimLeftSpaceRev_idemp l :
  trimLeftSpaceRev (trimLeftSpaceRev l) = trimLeftSpaceRev l.
Proof.
  induction l as [|a l1 IH1 IH2 IH3] using scan_ind; [done|]. simpl.
  destruct (space1 a) eqn:E1; [done|].
  destruct l1 as [|b l2]; [simpl; by rewrite E1|].
  destruct (space2 b a) eqn:E2; [by apply (IH2 b)|].
  destruct l2 as [|c l3]; [simpl; by rewrite E1, E2|].
  destruct (space3 c b a) eqn:E3; [by apply (IH3 b c)|].
  simpl. by rewrite E1, E2, E3.
Qed.

(** A scan that stops at the first byte of a list stops at the first byte
    of every prefix of it. *)
Lemma trimLeftSpace_prefix (l r : list nat) :
  trimLeftSpace l = l → r `prefix_of` l → trimLeftSpace r = r.
Proof.
  intros Hl [k ->].
  destruct r as [|a r1]; [done|]. simpl in *.
  destruct (space1 a) eqn:E1.
  { pose proof (trimLeftSpace_suffix (r1 ++ k)) as Hs. rewrite Hl in Hs.
    apply suffix_length in Hs. simpl in Hs. lia. }
  destruct r1 as [|b r2]; [done|]. simpl in *.
  destruct (space2 a b) eqn:E2.
  { pose proof (trimLeftSpace_suffix (r2 ++ k)) as Hs. rewrite Hl in Hs.
    apply suffix_length in Hs. simpl in Hs. lia. }
  destruct r2 as [|c r3]; [done|]. simpl in *.
  destruct (space3 a b c) eqn:E3; [|done].
  pose proof (trimLeftSpace_suffix (r3 ++ k)) as Hs. rewrite Hl in Hs.
  apply suffix_length in Hs. simpl in Hs. lia.
Qed.

Lemma TrimSpace_idemp s : TrimSpace (TrimSpace s) = TrimSpace s.
Proof.
  unfold TrimSpace.
  set (L := trimLeftSpace (bytes_of s)).
  set (R := rev (trimLeftSpaceRev (rev L))).
  assert (R `prefix_of` L) as Hpre.
  { unfold R. destruct (trimLeftSpaceRev_suffix (rev L)) as [k Hk].
    exists (rev k). apply (f_equal (@rev nat)) in Hk.
    by rewrite rev_involutive, rev_app_distr in Hk. }
  assert (Forall (λ n, n < 256)%nat R) as Hb.
  { destruct Hpre as [k Hk].
    assert (Forall (λ n, n < 256)%nat L) as HL.
    { destruct (trimLeftSpace_suffix (bytes_of s)) as [k' Hk'].
      pose proof (bytes_of_bounded s) as Hs. rewrite Hk' in Hs.
      by apply Forall_app in Hs as [_ ?]. }
    rewrite Hk in HL. by apply Forall_app in HL as [? _]. }
  rewrite (bytes_of_of_bytes _ Hb).
  rewrite (trimLeftSpace_prefix L R); [|apply trimLeftSpace_idemp|done].
  unfold R at 1. rewrite rev_involutive. by rewrite trimLeftSpaceRev_idemp.
Qed.

(** *** The tables after a call *)

Lemma addNew_Ok fs name files rs w rs' w' :
  addNew fs name files rs w = (None, rs', w') →
  rs' = (rs ++ ((λ f, {| tfName := name; tfFilename := f |}) <$> files))%list.
Proof.
  revert rs w. induction files as [|f files IH]; intros rs w; simpl.
  - intros [= <- _]. by rewrite app_nil_r.
  - unfold Insert_tmplFilename. simpl.
    repeat case_decide; try done.
    destruct (watch_Add _ _ _); [done|].
    intros E%IH. by rewrite E, <- app_assoc.
Qed.

Lemma saveTemplateDataToDB_tables fs td t r t' :
  saveTemplateDataToDB fs td t = (r, t') →
  baseDir t' = baseDir t ∧ reg t' = reg t
  ∧ match r with
    | Ok _ => db t' = <[Name td := td]> (db t)
              ∧ rows t' = (DeleteAll_tmplFilename_name (rows t) (Name td)
                           ++ fileRows td)%list
    | _ => db t' = db t ∧ rows t' = rows t
    end.
Proof.
  unfold saveTemplateDataToDB, Insert_tmplData, fileRows.
  destruct (removeOld _ _) as [[err|] w]; [by intros [= <- <-]|].
  case_decide; [by intros [= <- <-]|].
  destruct (HasSrc td).
  { intros [= <- <-]. simpl. by rewrite app_nil_r. }
  destruct (addNew _ _ _ _ _) as [[[err|] rs] w'] eqn:Ea; [by intros [= <- <-]|].
  apply addNew_Ok in Ea as ->. by intros [= <- <-].
Qed.

Lemma filter_name_DeleteAll (rs : list tmplFilename) name k :
  Get_tmplFilename_name (DeleteAll_tmplFilename_name rs name) k
  = if decide (k = name) then [] else Get_tmplFilename_name rs k.
Proof.
  unfold Get_tmplFilename_name, DeleteAll_tmplFilename_name.
  induction rs as [|tf rs IH]; [by case_decide|].
  rewrite (filter_cons (λ tf, tfName tf ≠ name)).
  rewrite (filter_cons (λ tf, tfName tf = k) tf rs).
  destruct (decide (tfName tf ≠ name)) as [E1|E1].
  - rewrite filter_cons, IH.
    destruct (decide (tfName tf = k)), (decide (k = name)); congruence.
  - apply dec_stable in E1. rewrite IH.
    destruct (decide (tfName tf = k)), (decide (k = name)); congruence.
Qed.

Lemma filter_name_fileRows td k :
  Get_tmplFilename_name (fileRows td) k
  = if decide (k = Name td) then fileRows td else [].
Proof.
  unfold Get_tmplFilename_name, fileRows. destruct (HasSrc td); [by case_decide|].
  induction (Filenames td) as [|f fl IH]; [by case_decide|].
  rewrite fmap_cons, filter_cons. simpl. rewrite IH.
  repeat case_decide; subst; try done.
Qed.

Lemma saveTemplate_tables fuel fs name baseTmpl isNew tmplSrc filenames t r t' :
  saveTemplate fuel fs name baseTmpl isNew tmplSrc filenames t = (r, t') →
  baseDir t' = baseDir t
  ∧ ((db t' = db t ∧ rows t' = rows t)
     ∨ ∃ tm td, ownTemplate fs name baseTmpl tmplSrc filenames t = inr (tm, td)
         ∧ db t' = <[name := td]> (db t)
         ∧ rows t' = (DeleteAll_tmplFilename_name (rows t) name ++ fileRows td)%list).
Proof.
  rewrite saveTemplate_eq.
  destruct (ownTemplate _ _ _ _ _ _) as [e|[tm td]] eqn:Eo.
  { intros [= _ <-]. split; [done|]. by left. }
  pose proof (ownTemplate_inr _ _ _ _ _ _ _ _ Eo) as (_ & Hname & _).
  run. destruct (saveTemplateDataToDB fs td _) as [r1 t1] eqn:E1.
  apply saveTemplateDataToDB_tables in E1 as (Hbd & Hreg & Htab). simpl in *.
  rewrite Hname in Htab.
  destruct r1 as [[]| | |].
  2-4: intros [= _ <-]; split; [done|]; by left.
  destruct Htab as [Hdb Hrows].
  assert (∀ t2, same_tables t1 t2 → baseDir t2 = baseDir t
    ∧ db t2 = <[name := td]> (db t)
    ∧ rows t2 = (DeleteAll_tmplFilename_name (rows t) name ++ fileRows td)%list)
    as Hfin.
  { intros t2 (Hb2 & Hd2 & Hr2 & _). by rewrite Hb2, Hd2, Hr2. }
  assert (∀ t2, same_tables t1 t2 → t' = t2 →
    baseDir t' = baseDir t
    ∧ ((db t' = db t ∧ rows t' = rows t)
       ∨ ∃ tm0 td0, inr (tm, td) = (inr (tm0, td0) : error + Template * tmplData)
         ∧ db t' = <[name := td0]> (db t)
         ∧ rows t' = (DeleteAll_tmplFilename_name (rows t) name ++ fileRows td0)%list))
    as Hend.
  { intros t2 Hs ->. destruct (Hfin t2 Hs) as (? & ? & ?). split; [done|].
    right. by exists tm, td. }
  destruct isNew.
  - intros [= _ <-]. by eapply Hend; [apply same_tables_refl|].
  - destruct (rebuildChildTemplates _ _ _ _ _) as [r2 t2] eqn:E2.
    apply rebuildChildTemplates_frame in E2.
    destruct r2 as [[]| | |]; intros [= _ <-]; by eapply Hend.
Qed.


Lemma call_tables fuel fs name baseTmpl tmplSrc filenames t r t' :
  AddTemplate fuel fs name baseTmpl tmplSrc filenames t = (r, t')
  ∨ PutTemplate fuel fs name baseTmpl tmplSrc filenames t = (r, t') →
  baseDir t' = baseDir t
  ∧ ((db t' = db t ∧ rows t' = rows t)
     ∨ ∃ tm td, ownTemplate fs name baseTmpl tmplSrc filenames t = inr (tm, td)
         ∧ db t' = <[name := td]> (db t)
         ∧ rows t' = (DeleteAll_tmplFilename_name (rows t) name ++ fileRows td)%list).
Proof.
  unfold AddTemplate, PutTemplate.
  intros [E|E]; destruct (getTemplate name t) as [[]|];
    first [ by eapply saveTemplate_tables
          | injection E as _ <-; split; [done|]; by left ].
Qed.

Lemma record_ok_files basedir name baseTmpl src filenames hb :
  (hb = true ↔ TrimSpace baseTmpl ≠ "") →
  String.length (TrimSpace src) = 0 → length filenames ≠ 0 →
  record_ok basedir
    {| Name := name; BaseTmplID := baseTmpl; Src := TrimSpace src;
       Filenames := cleanFilename basedir <$> filenames;
       HasSrc := false; HasBaseTmpl := hb |}.
Proof.
  intros Hhb El%length_zero_empty Hf. unfold record_ok. simpl.
  split_and!; [done| |apply TrimSpace_idemp|].
  - rewrite El. split; [done|]. by intros [].
  - intros _. split; [|eauto]. by destruct filenames.
Qed.

Lemma record_ok_inline basedir name baseTmpl src filenames hb :
  (hb = true ↔ TrimSpace baseTmpl ≠ "") →
  String.length (TrimSpace src) ≠ 0 →
  record_ok basedir
    {| Name := name; BaseTmplID := baseTmpl; Src := TrimSpace src;
       Filenames := filenames; HasSrc := true; HasBaseTmpl := hb |}.
Proof.
  intros Hhb El. unfold record_ok. simpl.
  split_and!; [done| |apply TrimSpace_idemp|done].
  split; [|done]. intros _ E. apply El. by rewrite E.
Qed.

Lemma ownTemplate_record_ok fs name baseTmpl tmplSrc filenames t tm td :
  ownTemplate fs name baseTmpl tmplSrc filenames t = inr (tm, td) →
  record_ok (baseDir t) td.
Proof.
  unfold ownTemplate, BaseDir.
  destruct (checkName name); [done|].
  destruct (checkName baseTmpl) as [e|] eqn:Eb.
  - assert (false = true ↔ TrimSpace baseTmpl ≠ "") as Hhb.
    { split; [done|]. intros Hne%checkName_valid. congruence. }
    repeat case_decide; try done.
    + destruct (ParseFiles _ _ _); [done|]. intros [= <- <-].
      by apply record_ok_files.
    + destruct (Parse _ _); [done|]. intros [= <- <-].
      by apply record_ok_inline.
  - assert (true = true ↔ TrimSpace baseTmpl ≠ "") as Hhb.
    { split; [|done]. intros _. by apply checkName_None. }
    destruct (getTemplate baseTmpl t); [done|].
    destruct (Clone _); [done|].
    repeat case_decide; try done.
    + destruct (ParseFiles _ _ _); [done|]. intros [= <- <-].
      by apply record_ok_files.
    + destruct (Parse _ _); [done|]. intros [= <- <-].
      by apply record_ok_inline.
Qed.

Lemma tables_ok_New basedir : tables_ok (NewTplSys basedir).
Proof. split; simpl; [intros k td|intros k]; by rewrite lookup_empty. Qed.

Lemma tables_ok_call fuel fs name baseTmpl tmplSrc filenames t r t' :
  tables_ok t →
  AddTemplate fuel fs name baseTmpl tmplSrc filenames t = (r, t')
  ∨ PutTemplate fuel fs name baseTmpl tmplSrc filenames t = (r, t') →
  tables_ok t'.
Proof.
  intros [Hrec Hfiles] Hcall.
  apply call_tables in Hcall as (Hbd & [[Hdb Hrows]|(tm & td & Hown & Hdb & Hrows)]).
  { split; rewrite ?Hbd, ?Hdb, ?Hrows; done. }
  pose proof (ownTemplate_inr _ _ _ _ _ _ _ _ Hown) as (_ & Hname & _).
  split; rewrite ?Hbd, ?Hdb, ?Hrows.
  - intros k td'. rewrite lookup_insert. case_decide.
    + intros [= <-]. by eapply ownTemplate_record_ok.
    + apply Hrec.
  - intros k. unfold Get_tmplFilename_name in *. rewrite filter_app.
    fold (Get_tmplFilename_name (DeleteAll_tmplFilename_name (rows t) name) k).
    fold (Get_tmplFilename_name (fileRows td) k).
    rewrite filter_name_DeleteAll, filter_name_fileRows, Hname, lookup_insert.
    destruct (decide (k = name)) as [->|Hne].
    + by rewrite decide_True.
    + rewrite decide_False by done. rewrite app_nil_r. apply Hfiles.
Qed.

Lemma reachable_tables_ok t : reachable t → tables_ok t.
Proof.
  induction 1 as [basedir|t _ IH|t fuel fs name b src files _ IH _
                 |t fuel fs name b src files _ IH _].
  - apply tables_ok_New.
  - apply tables_ok_New.
  - eapply tables_ok_call; [apply IH|]. left. apply surjective_pairing.
  - eapply tables_ok_call; [apply IH|]. right. apply surjective_pairing.
Qed.


(** *** What a call does to the registry *)


Lemma saveTemplate_keeps fuel fs name baseTmpl isNew tmplSrc filenames t r t' k :
  saveTemplate fuel fs name baseTmpl isNew tmplSrc filenames t = (r, t') →
  is_Some (reg t !! k) → is_Some (reg t' !! k).
Proof.
  rewrite saveTemplate_eq.
  destruct (ownTemplate _ _ _ _ _ _) as [e|[tm td]] eqn:Eo.
  { by intros [= _ <-]. }
  run. destruct (saveTemplateDataToDB fs td _) as [r1 t1] eqn:E1.
  apply saveTemplateDataToDB_spec in E1 as (_ & Hreg & _). simpl in *.
  intros Hs Hk.
  assert (is_Some (reg t1 !! k)) as Hk1.
  { rewrite Hreg, lookup_insert. case_decide; [by eexists|done]. }
  destruct r1 as [[]| | |]; try (by injection Hs as _ <-).
  destruct isNew; [by injection Hs as _ <-|].
  destruct (rebuildChildTemplates _ _ _ _ _) as [r2 t2] eqn:E2.
  eapply rebuildChildTemplates_keeps in E2; [|apply Hk1].
  destruct r2 as [[]| | |]; by injection Hs as _ <-.
Qed.

Lemma getTemplate_NotFound name t :
  getTemplate name t = inl ErrTmplNotFound →
  checkName name = None ∧ reg t !! name = None.
Proof.
  unfold getTemplate. destruct (checkName name) as [e|] eqn:Ec.
  - apply checkName_Some in Ec as ->. done.
  - by destruct (reg t !! name).
Qed.

(** A call is a [saveTemplate], or an error that leaves the store alone. *)
Lemma call_saveTemplate fuel fs name baseTmpl tmplSrc filenames t r t' :
  AddTemplate fuel fs name baseTmpl tmplSrc filenames t = (r, t')
  ∨ PutTemplate fuel fs name baseTmpl tmplSrc filenames t = (r, t') →
  t' = t
  ∨ ∃ isNew, saveTemplate fuel fs name baseTmpl isNew tmplSrc filenames t = (r, t').
Proof.
  unfold AddTemplate, PutTemplate.
  intros [E|E]; destruct (getTemplate name t) as [[]|];
    first [ injection E as _ <-; by left | right; by eexists ].
Qed.


(** X1 (the registry and the table agree).  In every store the calls can
    produce, a record is filed under its own name and its name is
    registered, every registered name is a valid name, and the base a record
    names, unless it is blank, is registered. *)
Theorem X1_reachable_store_is_consistent t :
  reachable t →
  (∀ k td, db t !! k = Some td → Name td = k ∧ is_Some (reg t !! k))
  ∧ (∀ k, is_Some (reg t !! k) → TrimSpace k ≠ "")
  ∧ (∀ k td, db t !! k = Some td → TrimSpace (BaseTmplID td) ≠ "" →
             is_Some (reg t !! BaseTmplID td)).
Proof.
  intros [Hk Hn Hr Hb]%reachable_store_ok. split_and!.
  - intros k td Htd. split; [by apply Hk|]. apply Hr. by eexists.
  - intros k Hs. by apply checkName_None, Hn.
  - intros k td Htd Hne. eapply Hb; [done|]. by apply checkName_valid.
Qed.

(** X2 (the shape of a record).  In every store the calls can produce, a
    record has [HasBaseTmpl] exactly when its base name is not blank and
    [HasSrc] exactly when its source is not empty; its source is trimmed;
    and a record without source names at least one file, each of them a
    path cleaned under the base directory. *)
Theorem X2_reachable_records_are_well_formed t k td :
  reachable t → db t !! k = Some td →
  (HasBaseTmpl td = true ↔ TrimSpace (BaseTmplID td) ≠ "")
  ∧ (HasSrc td = true ↔ Src td ≠ "")
  ∧ TrimSpace (Src td) = Src td
  ∧ (HasSrc td = false →
     Filenames td ≠ []
     ∧ ∃ given, Filenames td = cleanFilename (baseDir t) <$> given).
Proof. intros [Hrec _]%reachable_tables_ok Htd. by apply (Hrec k). Qed.




(** X6 (nothing is ever unregistered).  A name that is registered, or
    that has a record, before [AddTemplate] or [PutTemplate] is so after
    it, whatever the call returns. *)
Theorem X6_registered_names_stay_registered fuel fs name baseTmpl tmplSrc filenames t r t' k :
  AddTemplate fuel fs name baseTmpl tmplSrc filenames t = (r, t')
  ∨ PutTemplate fuel fs name baseTmpl tmplSrc filenames t = (r, t') →
  (is_Some (reg t !! k) → is_Some (reg t' !! k))
  ∧ (is_Some (db t !! k) → is_Some (db t' !! k)).
Proof.
  intros Hcall. split.
  - apply call_saveTemplate in Hcall as [->|[isNew Hs]]; [done|].
    by eapply saveTemplate_keeps.
  - apply call_tables in Hcall as (_ & [[-> _]|(tm & td & _ & -> & _)]); [done|].
    rewrite lookup_insert. case_decide; [by eexists|done].
Qed.


(** *** The cascade below a name *)

Lemma tc_insert_other (dbt : gmap string tmplData) name td x :
  tc (parent dbt) x name → x ≠ name →
  tc (parent (<[name := td]> dbt)) x name.
Proof.
  intros Ht. induction Ht as [x y (tdx & Hx & Hb)|x z y (tdx & Hx & Hb) Hzy IH];
    intros Hne.
  - apply tc_once. exists tdx. by rewrite lookup_insert_ne.
  - destruct (decide (z = y)) as [->|Hz].
    + apply tc_once. exists tdx. by rewrite lookup_insert_ne.
    + eapply tc_l; [|by apply IH]. exists tdx. by rewrite lookup_insert_ne.
Qed.

(** In a consistent store, a name with a descendant is registered. *)
Lemma descendant_registered t n m :
  store_ok t → checkName n = None → descendant (db t) n m →
  is_Some (reg t !! n).
Proof.
  intros Hok Hc Hd. destruct (tc_last _ _ _ Hd) as (y & _ & (tdy & Hy & Hb)).
  rewrite <- Hb. eapply (ok_bases _ Hok); [done|]. by rewrite Hb.
Qed.


(** X8 (no success on a cycle).  In a store the calls can produce, a
    [PutTemplate] that names as base the template itself, or one of its
    descendants, never returns a template: it returns an error or does not
    return. *)
Theorem X8_PutTemplate_on_a_cycle_never_succeeds
    fuel fs name baseTmpl tmplSrc filenames t :
  reachable t →
  baseTmpl = name ∨ descendant (db t) name baseTmpl →
  ∀ tm t', PutTemplate fuel fs name baseTmpl tmplSrc filenames t ≠ (Ok tm, t').
Proof.
  intros Hreach Hcyc tm t' HPut.
  pose proof (reachable_store_ok _ Hreach) as Hok.
  pose proof (store_ok_PutTemplate _ _ _ _ _ _ _ _ _ Hok HPut) as Hok'.
  unfold PutTemplate in HPut.
  destruct (getTemplate name t) as [e|tm0] eqn:Eg.
  - destruct e; try done. apply getTemplate_NotFound in Eg as [Hc Hnew].
    apply saveTemplate_Ok in HPut as (td & t1 & Hown & _).
    apply ownTemplate_inr in Hown as (_ & _ & _ & _ & Hb).
    destruct Hcyc as [->|Hd].
    + destruct (Hb Hc) as [? ?]. congruence.
    + apply descendant_registered in Hd as [? ?]; [congruence|done..].
  - apply saveTemplate_Ok in HPut as (td & t1 & Hown & Hreg1 & Hdb1 & _ & Hcas).
    pose proof (rebuildChildTemplates_frame _ _ _ _ _ _ _ Hcas) as (_ & Hdb' & _).
    apply ownTemplate_inr in Hown as (_ & Hname & Hbase & _).
    eapply rebuildChildTemplates_cycle; [| |apply Hcas].
    { rewrite <- Hdb'. apply (ok_keyed _ Hok'). }
    rewrite Hdb1.
    assert (parent (<[name := td]> (db t)) name baseTmpl) as Hp.
    { exists td. by rewrite lookup_insert_eq. }
    destruct Hcyc as [->|Hd]; [by apply tc_once|].
    destruct (decide (baseTmpl = name)) as [->|Hne]; [by apply tc_once|].
    eapply tc_l; [apply Hp|]. by apply tc_insert_other.
Qed.


(** *** Putting the same template again *)

Lemma ownTemplate_ext fs name baseTmpl tmplSrc filenames t t2 :
  baseDir t2 = baseDir t →
  (checkName baseTmpl = None → reg t2 !! baseTmpl = reg t !! baseTmpl) →
  ownTemplate fs name baseTmpl tmplSrc filenames t2
  = ownTemplate fs name baseTmpl tmplSrc filenames t.
Proof.
  intros Hbd Hb. unfold ownTemplate, getTemplate, BaseDir. rewrite Hbd.
  destruct (checkName name); [done|].
  destruct (checkName baseTmpl); [done|]. by rewrite Hb.
Qed.

(** What the cascade returns depends on the tables and on the template it
    starts from, not on the registry it overwrites. *)
Lemma rebuildLoop_status (recurse : string → Template → M unit) fs tmpl :
  (∀ n tm t r t', recurse n tm t = (r, t') → same_tables t t') →
  (∀ n tm t a, same_tables t a → (recurse n tm t).1 = (recurse n tm a).1) →
  ∀ L t a, same_tables t a →
    (rebuildLoop recurse fs tmpl L t).1 = (rebuildLoop recurse fs tmpl L a).1.
Proof.
  intros Hframe Hrec L. induction L as [|td L IH]; intros t a Hs; [done|].
  rewrite !rebuildLoop_cons.
  destruct (rebuildChild fs tmpl td) as [e|ct]; [done|].
  assert (same_tables (set_tmpls <[Name td := ct]> t)
                      (set_tmpls <[Name td := ct]> a)) as Hs1.
  { destruct Hs as (?&?&?&?). by repeat split. }
  pose proof (Hrec (Name td) ct _ _ Hs1) as Hst.
  destruct (recurse (Name td) ct (set_tmpls <[Name td := ct]> t))
    as [r1 t1] eqn:E1.
  destruct (recurse (Name td) ct (set_tmpls <[Name td := ct]> a))
    as [r2 a1] eqn:E2.
  simpl in Hst. subst r2.
  apply Hframe in E1, E2.
  destruct r1 as [[]| | |]; try done.
  apply IH.
  destruct Hs1 as (?&?&?&?), E1 as (?&?&?&?), E2 as (?&?&?&?).
  repeat split; congruence.
Qed.

Lemma rebuildChildTemplates_status fuel fs n tm t a :
  same_tables t a →
  (rebuildChildTemplates fuel fs n tm t).1 = (rebuildChildTemplates fuel fs n tm a).1.
Proof.
  revert n tm t a. induction fuel as [|fuel IH]; intros n tm t a Hs; [done|].
  rewrite !rebuildChildTemplates_S. destruct (checkName n); [done|].
  destruct Hs as (Hb & Hd & Hr & Hw). rewrite Hd.
  apply rebuildLoop_status; [| |by repeat split].
  - intros. by eapply rebuildChildTemplates_frame.
  - apply IH.
Qed.


Lemma saveTemplate_Ok_rows fuel fs name baseTmpl isNew tmplSrc filenames t tm t' :
  saveTemplate fuel fs name baseTmpl isNew tmplSrc filenames t = (Ok tm, t') →
  ∃ td, ownTemplate fs name baseTmpl tmplSrc filenames t = inr (tm, td)
    ∧ rows t' = (DeleteAll_tmplFilename_name (rows t) name ++ fileRows td)%list.
Proof.
  rewrite saveTemplate_eq.
  destruct (ownTemplate _ _ _ _ _ _) as [e|[tm' td]] eqn:Eo; [done|].
  pose proof (ownTemplate_inr _ _ _ _ _ _ _ _ Eo) as (_ & Hname & _).
  run. destruct (saveTemplateDataToDB fs td _) as [r1 t1] eqn:E1.
  apply saveTemplateDataToDB_tables in E1 as (_ & _ & Htab). simpl in *.
  destruct r1 as [[]| | |]; try done. destruct Htab as [_ Hrows].
  rewrite Hname in Hrows. destruct isNew.
  - intros [= <- <-]. by exists td.
  - destruct (rebuildChildTemplates _ _ _ _ _) as [[[]| | |] t2] eqn:E2; try done.
    apply rebuildChildTemplates_frame in E2 as (_ & _ & Hr2 & _).
    intros [= <- <-]. exists td. split; [done|]. by rewrite Hr2.
Qed.

(** What a cascade has written to lies below the name it started from. *)
Lemma rebuildLoop_touched (recurse : string → Template → M unit) fs tmpl n :
  (∀ c ct t r t', recurse c ct t = (r, t') → same_tables t t') →
  (∀ c ct t r t', keyed (db t) → recurse c ct t = (r, t') →
     ∀ m, reg t' !! m = reg t !! m ∨ descendant (db t) c m) →
  ∀ L t r t', keyed (db t) →
    (∀ td, td ∈ L → parent (db t) (Name td) n) →
    rebuildLoop recurse fs tmpl L t = (r, t') →
    ∀ m, reg t' !! m = reg t !! m ∨ descendant (db t) n m.
Proof.
  intros Hframe Hrec L. induction L as [|td L IH]; intros t r t' Hk HL.
  { simpl. run. intros [= _ <-] m. by left. }
  rewrite rebuildLoop_cons.
  destruct (rebuildChild fs tmpl td) as [e|ct]; [intros [= _ <-] m; by left|].
  assert (parent (db t) (Name td) n) as Hp by (apply HL; by left).
  destruct (recurse _ _ _) as [r1 t1] eqn:E1.
  pose proof (Hframe _ _ _ _ _ E1) as (_ & Hd1 & _). simpl in Hd1.
  pose proof (λ K, Hrec _ _ _ _ _ K E1) as Hone. simpl in Hone.
  specialize (Hone Hk).
  assert (∀ m, reg t1 !! m = reg t !! m ∨ descendant (db t) n m) as Hfirst.
  { intros m. destruct (decide (m = Name td)) as [->|Hne].
    { right. by apply tc_once. }
    destruct (Hone m) as [Heq|Hd].
    - left. by rewrite Heq, lookup_insert_ne.
    - right. eapply tc_r; [apply Hd|done]. }
  destruct r1 as [[]| | |]; try (by intros [= _ <-]).
  intros Hl m.
  assert (∀ m, reg t' !! m = reg t1 !! m ∨ descendant (db t1) n m) as Hrest.
  { eapply IH; [| |apply Hl].
    - by rewrite Hd1.
    - rewrite Hd1. intros td0 Hin. apply HL. by right. }
  destruct (Hrest m) as [Heq|Hd]; [|right; by rewrite <- Hd1].
  destruct (Hfirst m) as [Heq'|Hd]; [left; congruence|by right].
Qed.

Lemma rebuildChildTemplates_touched fuel fs n tm t r t' :
  keyed (db t) →
  rebuildChildTemplates fuel fs n tm t = (r, t') →
  ∀ m, reg t' !! m = reg t !! m ∨ descendant (db t) n m.
Proof.
  revert n tm t r t'. induction fuel as [|fuel IH]; intros n tm t r t' Hk.
  { simpl. run. intros [= _ <-] m. by left. }
  rewrite rebuildChildTemplates_S.
  destruct (checkName n); [intros [= _ <-] m; by left|].
  intros Hl. eapply rebuildLoop_touched; [| | | |apply Hl].
  - intros. by eapply rebuildChildTemplates_frame.
  - intros c ct t0 r0 t0' Hk0 E. by eapply IH.
  - done.
  - intros td Hin. by apply children_parent.
Qed.

Lemma children_nil (dbt : gmap string tmplData) n :
  keyed dbt → (∀ m, ¬ descendant dbt n m) → Get_tmplData_baseid dbt n = [].
Proof.
  intros Hk Hnone. apply elem_of_nil_inv. intros td Hin.
  apply (Hnone (Name td)), tc_once. by apply children_parent.
Qed.

(** A [PutTemplate] that returns a template, taken apart. *)
Lemma PutTemplate_Ok_inv fuel fs name baseTmpl tmplSrc filenames t tm t' :
  store_ok t →
  PutTemplate fuel fs name baseTmpl tmplSrc filenames t = (Ok tm, t') →
  ∃ td,
    ownTemplate fs name baseTmpl tmplSrc filenames t = inr (tm, td)
    ∧ baseDir t' = baseDir t
    ∧ db t' = <[name := td]> (db t)
    ∧ rows t' = (DeleteAll_tmplFilename_name (rows t) name ++ fileRows td)%list
    ∧ reg t' !! name = Some tm
    ∧ (∀ m, m ≠ name → ¬ descendant (db t') name m → reg t' !! m = reg t !! m)
    ∧ (∀ m, descendant (db t') name m → rebuilt fs t' m)
    ∧ ¬ descendant (db t') name name
    ∧ (fuel ≠ 0 → (rebuildChildTemplates fuel fs name tm t').1 = Ok tt)
    ∧ (∀ m, m ≠ name →
         reg t' !! m = reg t !! m ∨ descendant (db t') name m).
Proof.
  intros Hok HPut.
  pose proof (store_ok_PutTemplate _ _ _ _ _ _ _ _ _ Hok HPut) as Hok'.
  unfold PutTemplate in HPut.
  destruct (getTemplate name t) as [e|tm0] eqn:Eg.
  - destruct e; try done. apply getTemplate_NotFound in Eg as [Hc Hnew].
    destruct (saveTemplate_Ok_rows _ _ _ _ _ _ _ _ _ _ HPut) as (td' & Hown' & Hrows).
    apply saveTemplate_Ok in HPut as (td & t1 & Hown & Hreg & Hdb & Hbd & ->).
    assert (td' = td) as -> by congruence.
    assert (∀ m, ¬ descendant (db t1) name m) as Hnone.
    { intros m Hd.
      apply ownTemplate_inr in Hown as (_ & _ & Hbase & _ & Hb).
      destruct (tc_last _ _ _ Hd) as (y & _ & (tdy & Hy & Hby)).
      rewrite Hdb, lookup_insert in Hy. case_decide as Ey.
      + injection Hy as <-.
        assert (baseTmpl = name) as -> by congruence.
        destruct (Hb Hc) as [? ?]. congruence.
      + assert (is_Some (reg t !! name)) as [? ?]; [|congruence].
        rewrite <- Hby. eapply (ok_bases _ Hok); [done|]. by rewrite Hby. }
    exists td. split_and!; try done.
    + by rewrite Hreg, lookup_insert_eq.
    + intros m Hne _. by rewrite Hreg, lookup_insert_ne.
    + intros m Hd. by apply Hnone in Hd.
    + intros Hf. destruct fuel as [|fuel]; [done|].
      rewrite rebuildChildTemplates_S, Hc, children_nil; [done|..|done].
      apply (ok_keyed _ Hok').
    + intros m Hne. left. by rewrite Hreg, lookup_insert_ne.
  - destruct (saveTemplate_Ok_rows _ _ _ _ _ _ _ _ _ _ HPut) as (td' & Hown' & Hrows).
    apply saveTemplate_Ok in HPut as (td & t1 & Hown & Hreg1 & Hdb1 & Hbd & Hcas).
    assert (td' = td) as -> by congruence.
    pose proof (rebuildChildTemplates_frame _ _ _ _ _ _ _ Hcas) as (Hbd' & Hdb' & _).
    assert (keyed (db t1)) as Hk1.
    { rewrite <- Hdb'. apply (ok_keyed _ Hok'). }
    assert (reg t1 !! name = Some tm) as HA1 by (by rewrite Hreg1, lookup_insert_eq).
    assert (¬ descendant (db t1) name name) as Hnc.
    { intros Hd. by eapply rebuildChildTemplates_cycle. }
    exists td. rewrite Hdb'. split_and!; try done.
    + congruence.
    + rewrite <- HA1.
      by eapply rebuildChildTemplates_writes_below; [done|apply Hcas|].
    + intros m Hne Hd.
      rewrite (rebuildChildTemplates_writes_below _ _ _ _ _ _ _ Hk1 Hcas _ Hd).
      by rewrite Hreg1, lookup_insert_ne.
    + intros m Hd.
      by apply (rebuildChildTemplates_rebuilds _ _ _ _ _ _ Hk1 HA1 Hcas _ Hd).
    + intros _.
      rewrite <- (rebuildChildTemplates_status _ _ _ _ t1 t')
        by (by eapply rebuildChildTemplates_frame).
      by rewrite Hcas.
    + intros m Hne.
      destruct (rebuildChildTemplates_touched _ _ _ _ _ _ _ Hk1 Hcas m)
        as [Heq|Hd]; [left|by right].
      by rewrite Heq, Hreg1, lookup_insert_ne.
Qed.


Lemma set_tmpls_id name tm t :
  reg t !! name = Some tm → set_tmpls <[name := tm]> t = t.
Proof.
  destruct t as [bd [r d rw w]]. simpl. intros Hr.
  unfold set_tmpls. simpl. by rewrite insert_id.
Qed.

Lemma DeleteAll_none (rs : list tmplFilename) name :
  Get_tmplFilename_name rs name = [] →
  DeleteAll_tmplFilename_name rs name = rs.
Proof.
  unfold Get_tmplFilename_name, DeleteAll_tmplFilename_name.
  induction rs as [|tf rs IH]; [done|].
  rewrite (filter_cons (λ tf, tfName tf = name)).
  rewrite (filter_cons (λ tf, tfName tf ≠ name)).
  destruct (decide (tfName tf = name)); [done|].
  intros E. rewrite decide_True by done. by rewrite IH.
Qed.

Lemma DeleteAll_app (rs rs' : list tmplFilename) name :
  DeleteAll_tmplFilename_name (rs ++ rs') name
  = (DeleteAll_tmplFilename_name rs name
     ++ DeleteAll_tmplFilename_name rs' name)%list.
Proof. apply filter_app. Qed.

Lemma DeleteAll_DeleteAll (rs : list tmplFilename) name :
  DeleteAll_tmplFilename_name (DeleteAll_tmplFilename_name rs name) name
  = DeleteAll_tmplFilename_name rs name.
Proof.
  apply DeleteAll_none. rewrite filter_name_DeleteAll. by rewrite decide_True.
Qed.

Lemma DeleteAll_fileRows td :
  DeleteAll_tmplFilename_name (fileRows td) (Name td) = [].
Proof.
  unfold DeleteAll_tmplFilename_name, fileRows. destruct (HasSrc td); [done|].
  induction (Filenames td) as [|f fl IH]; [done|].
  rewrite fmap_cons, filter_cons. simpl. by rewrite decide_False by (by intros []).
Qed.

(** A cascade over descendants that are already rebuilt writes what is
    there. *)
Lemma rebuildLoop_rebuilt (recurse : string → Template → M unit) fs tmpl n :
  (∀ c ct t r t', keyed (db t) →
      reg t !! c = Some ct → parent (db t) c n →
      (∀ m, descendant (db t) n m → rebuilt fs t m) →
      recurse c ct t = (r, t') → reg t' = reg t ∧ db t' = db t) →
  ∀ L t r t', keyed (db t) →
    reg t !! n = Some tmpl →
    (∀ m, descendant (db t) n m → rebuilt fs t m) →
    (∀ td, td ∈ L → db t !! Name td = Some td ∧ BaseTmplID td = n) →
    rebuildLoop recurse fs tmpl L t = (r, t') → reg t' = reg t ∧ db t' = db t.
Proof.
  intros Hrec L. induction L as [|td L IH]; intros t r t' Hk Hn Hall HL.
  { simpl. run. by intros [= _ <-]. }
  rewrite rebuildLoop_cons.
  destruct (HL td) as [Htd Hb]; [by left|].
  assert (parent (db t) (Name td) n) as Hp by (by exists td).
  destruct (Hall (Name td) (tc_once _ _ _ Hp))
    as (td' & pt & ct' & Htd' & Hpt & Hct & Hm).
  assert (td' = td) as -> by congruence.
  rewrite Hb, Hn in Hpt. injection Hpt as <-. rewrite Hct.
  rewrite (set_tmpls_id _ _ _ Hm).
  destruct (recurse (Name td) ct' t) as [r1 t1] eqn:E1.
  apply Hrec in E1 as [Hr1 Hd1]; [|done..].
  destruct r1 as [[]| | |]; try (by intros [= _ <-]).
  intros Hl. apply IH in Hl as [Hr2 Hd2].
  - split; congruence.
  - by rewrite Hd1.
  - by rewrite Hr1.
  - rewrite Hd1. intros m Hd. unfold rebuilt. rewrite Hr1, Hd1. by apply Hall.
  - rewrite Hd1. intros td0 Hin. apply HL. by right.
Qed.

Lemma rebuildChildTemplates_rebuilt fuel fs n tm t r t' :
  keyed (db t) →
  reg t !! n = Some tm →
  (∀ m, descendant (db t) n m → rebuilt fs t m) →
  rebuildChildTemplates fuel fs n tm t = (r, t') → reg t' = reg t ∧ db t' = db t.
Proof.
  revert n tm t r t'. induction fuel as [|fuel IH]; intros n tm t r t' Hk Hn Hall.
  { simpl. run. by intros [= _ <-]. }
  rewrite rebuildChildTemplates_S. destruct (checkName n); [by intros [= _ <-]|].
  apply (rebuildLoop_rebuilt _ _ _ n); try done.
  - intros c ct t0 r0 t0' Hk0 Hc Hp Hall0 E.
    eapply IH; [done|done| |apply E].
    intros m Hd. apply Hall0. eapply tc_r; [apply Hd|done].
  - intros td Hin. by apply elem_of_children in Hin.
Qed.


Lemma TplSys_eq t t' :
  baseDir t' = baseDir t → reg t' = reg t → db t' = db t → rows t' = rows t →
  tmplWatch (store t') = tmplWatch (store t) → t' = t.
Proof.
  destruct t as [bd [r d rw w]], t' as [bd' [r' d' rw' w']]. simpl.
  by intros -> -> -> -> ->.
Qed.

(** With nothing to take off the watcher and an inline source, 
    [saveTemplateDataToDB] of the record that is there changes nothing. *)
Lemma saveTemplateDataToDB_same fs td t :
  Name td ≠ "" → HasSrc td = true →
  db t !! Name td = Some td →
  Get_tmplFilename_name (rows t) (Name td) = [] →
  saveTemplateDataToDB fs td t = (Ok tt, t).
Proof.
  intros Hne Hs Htd Hrows. unfold saveTemplateDataToDB, Insert_tmplData.
  rewrite Hrows. simpl. rewrite decide_False by done. rewrite Hs.
  f_equal. apply TplSys_eq; simpl; try done.
  - by apply insert_id.
  - by apply DeleteAll_none.
Qed.

(** X9 ([PutTemplate] twice is [PutTemplate] once).  After a [PutTemplate]
    that returned a template, the same call again, if it returns one,
    returns the same template and leaves the registry, the records and the
    file rows as the first call left them.  With an inline source it does
    return, and the store is the very store the first call left. *)
Theorem X9_PutTemplate_again_changes_nothing
    fuel fs name baseTmpl tmplSrc filenames t tm t1 :
  reachable t →
  PutTemplate fuel fs name baseTmpl tmplSrc filenames t = (Ok tm, t1) →
  (∀ tm' t2,
     PutTemplate fuel fs name baseTmpl tmplSrc filenames t1 = (Ok tm', t2) →
     tm' = tm ∧ baseDir t2 = baseDir t1 ∧ reg t2 = reg t1
     ∧ db t2 = db t1 ∧ rows t2 ≡ₚ rows t1)
  ∧ (TrimSpace tmplSrc ≠ "" → fuel ≠ 0 →
     PutTemplate fuel fs name baseTmpl tmplSrc filenames t1 = (Ok tm, t1)).
Proof.
  intros Hreach HPut.
  pose proof (reachable_store_ok _ Hreach) as Hok.
  pose proof (store_ok_PutTemplate _ _ _ _ _ _ _ _ _ Hok HPut) as Hok1.
  destruct (PutTemplate_Ok_inv _ _ _ _ _ _ _ _ _ Hok HPut)
    as (td & Hown & Hbd & Hdb & Hrows & Hname & Hframe & Hreb & Hnc & Hst & _).
  pose proof (ownTemplate_inr _ _ _ _ _ _ _ _ Hown) as (Hc & HN & HB & _ & _).
  assert (parent (db t1) name baseTmpl) as Hp.
  { exists td. by rewrite Hdb, lookup_insert_eq. }
  assert (ownTemplate fs name baseTmpl tmplSrc filenames t1 = inr (tm, td)) as Hown1.
  { rewrite <- Hown. apply ownTemplate_ext; [done|]. intros _.
    apply Hframe.
    - intros ->. by apply Hnc, tc_once.
    - intros Hd. apply Hnc. by eapply tc_l. }
  assert (getTemplate name t1 = inr tm) as Hg by (by apply getTemplate_inr).
  assert (db t1 !! name = Some td) as Htd by (by rewrite Hdb, lookup_insert_eq).
  split.
  - intros tm' t2 HPut2. unfold PutTemplate in HPut2. rewrite Hg in HPut2.
    destruct (saveTemplate_Ok_rows _ _ _ _ _ _ _ _ _ _ HPut2)
      as (td' & Hown' & Hrows2).
    apply saveTemplate_Ok in HPut2 as (td2 & t1' & Hown2 & Hreg2 & Hdb2 & Hbd2 & Hcas).
    rewrite Hown1 in Hown', Hown2.
    injection Hown' as <- <-. injection Hown2 as <-.
    rewrite insert_id in Hreg2 by done. rewrite insert_id in Hdb2 by done.
    pose proof (rebuildChildTemplates_frame _ _ _ _ _ _ _ Hcas) as (Hbd' & _).
    apply rebuildChildTemplates_rebuilt in Hcas as [Hr Hd].
    + split_and!; try congruence.
      rewrite Hrows2, Hrows, DeleteAll_app, DeleteAll_DeleteAll.
      by rewrite <- HN, DeleteAll_fileRows, app_nil_r.
    + rewrite Hdb2. apply (ok_keyed _ Hok1).
    + by rewrite Hreg2.
    + rewrite Hdb2. intros m Hd. unfold rebuilt. rewrite Hreg2, Hdb2.
      by apply Hreb.
  - intros Hsrc Hfuel. unfold PutTemplate. rewrite Hg, saveTemplate_eq, Hown1.
    run. rewrite (set_tmpls_id _ _ _ Hname).
    destruct (ownTemplate_source _ _ _ _ _ _ _ _ Hown) as (base & Hcase).
    rewrite decide_False in Hcase by done. destruct Hcase as (HS & _).
    rewrite saveTemplateDataToDB_same; try done.
    + specialize (Hst Hfuel).
      destruct (rebuildChildTemplates fuel fs name tm t1) as [r2 t2] eqn:E2.
      simpl in Hst. subst r2.
      pose proof (rebuildChildTemplates_frame _ _ _ _ _ _ _ E2) as (?&?&?&?).
      apply rebuildChildTemplates_rebuilt in E2 as [Hr Hd]; try done.
      * f_equal. by apply TplSys_eq.
      * apply (ok_keyed _ Hok1).
    + rewrite HN. intros ->. by vm_compute in Hc.
    + by rewrite HN.
    + rewrite HN, Hrows. unfold Get_tmplFilename_name. rewrite filter_app.
      fold (Get_tmplFilename_name (DeleteAll_tmplFilename_name (rows t) name) name).
      rewrite filter_name_DeleteAll, decide_True by done.
      unfold fileRows. by rewrite HS.
Qed.


(** *** The causes of an error *)

Lemma Clean_nonempty path : filepath.Clean path ≠ "".
Proof.
  unfold filepath.Clean. case_decide; [done|].
  destruct (HasPrefix path "/"); [done|]. by case_decide.
Qed.

Lemma cleanFilename_empty basedir f : cleanFilename basedir f = "" → basedir = "".
Proof.
  unfold cleanFilename. simpl. case_decide; [done|].
  intros E. by apply Clean_nonempty in E.
Qed.

Lemma checkName_nonempty name : checkName name = None → name ≠ "".
Proof. intros Hc ->. by vm_compute in Hc. Qed.

Lemma addNew_memdb fs name files rs w ix rs' w' :
  addNew fs name files rs w = (Some (ErrMemdb ix), rs', w') →
  name = "" ∨ (ix = "filename" ∧ "" ∈ files).
Proof.
  revert rs w. induction files as [|f files IH]; intros rs w; simpl; [done|].
  unfold Insert_tmplFilename. simpl.
  case_decide; [by left|].
  case_decide as Ef.
  { intros [= <- _ _]. right. split; [done|]. rewrite Ef. by left. }
  destruct (watch_Add _ _ _); [done|].
  intros [?|[? ?]]%IH; [by left|]. right. split; [done|]. by right.
Qed.

Lemma removeOld_watch olds w e w' :
  removeOld olds w = (Some e, w') → ∃ we, e = ErrWatch we.
Proof.
  revert w. induction olds as [|tf olds IH]; intros w; simpl; [done|].
  destruct (watch_Remove _ _); [intros [= <- _]; by eexists|apply IH].
Qed.

Lemma saveTemplateDataToDB_memdb fs td t ix t' :
  saveTemplateDataToDB fs td t = (Err (ErrMemdb ix), t') →
  Name td = "" ∨ (ix = "filename" ∧ "" ∈ Filenames td ∧ HasSrc td = false).
Proof.
  unfold saveTemplateDataToDB, Insert_tmplData.
  destruct (removeOld _ _) as [[err|] w] eqn:Er.
  { intros [= -> _]. by apply removeOld_watch in Er as [? ?]. }
  case_decide; [by left|].
  destruct (HasSrc td); [done|].
  destruct (addNew _ _ _ _ _) as [[[err|] rs] w'] eqn:Ea; [|done].
  intros [= -> _]. apply addNew_memdb in Ea as [?|[? ?]]; [by left|by right].
Qed.

Lemma rebuildLoop_error (recurse : string → Template → M unit) fs tmpl :
  (∀ n tm t r t', recurse n tm t = (r, t') → same_tables t t') →
  (∀ n tm t r t', store_ok t → recurse n tm t = (r, t') → store_ok t') →
  (∀ n tm t e t', store_ok t → checkName n = None →
                  recurse n tm t = (Err e, t') → ∃ ee, e = ErrEngine ee) →
  ∀ L t e t', store_ok t →
    (∀ td, td ∈ L → is_Some (db t !! Name td)) →
    rebuildLoop recurse fs tmpl L t = (Err e, t') → ∃ ee, e = ErrEngine ee.
Proof.
  intros Hframe Hkeep Hrec L. induction L as [|td L IH]; intros t e t' Hok HL.
  { simpl. by run. }
  rewrite rebuildLoop_cons.
  destruct (rebuildChild fs tmpl td) as [ee|ct]; [intros [= <- _]; by eexists|].
  assert (checkName (Name td) = None) as Hc.
  { apply (ok_names _ Hok), (ok_registered _ Hok), HL. by left. }
  pose proof (store_ok_set_tmpls (Name td) ct _ Hok Hc) as Hok1.
  destruct (recurse _ _ _) as [r1 t1] eqn:E1.
  pose proof (Hkeep _ _ _ _ _ Hok1 E1) as Hok2.
  destruct r1 as [[]|e1| |]; try done.
  - intros Hl. eapply IH; [apply Hok2| |apply Hl].
    intros td0 Hin. apply Hframe in E1 as (_ & -> & _). simpl.
    apply HL. by right.
  - intros [= <- _]. eapply Hrec; [apply Hok1|apply Hc|apply E1].
Qed.

Lemma rebuildChildTemplates_error fuel fs n tm t e t' :
  store_ok t →
  rebuildChildTemplates fuel fs n tm t = (Err e, t') →
  (e = ErrNoName ∧ checkName n = Some ErrNoName) ∨ ∃ ee, e = ErrEngine ee.
Proof.
  revert n tm t e t'. induction fuel as [|fuel IH]; intros n tm t e t' Hok.
  { simpl. by run. }
  rewrite rebuildChildTemplates_S. destruct (checkName n) as [e0|] eqn:Ec.
  { intros [= <- _]. left. by apply checkName_Some in Ec as ->. }
  intros Hl. right. eapply rebuildLoop_error; [| | | | |apply Hl]; try done.
  - intros. by eapply rebuildChildTemplates_frame.
  - intros. by eapply store_ok_rebuildChildTemplates.
  - intros n0 tm0 t0 e0 t0' Hok0 Hc0 E0.
    apply IH in E0 as [[_ ?]|?]; [congruence|done|done].
  - intros td Hin. apply elem_of_children in Hin as [-> _]; [by eexists|].
    apply (ok_keyed _ Hok).
Qed.

Lemma ownTemplate_inl fs name baseTmpl tmplSrc filenames t e :
  ownTemplate fs name baseTmpl tmplSrc filenames t = inl e →
  match e with
  | ErrNoName => TrimSpace name = ""
  | ErrTmplNotFound =>
      TrimSpace name ≠ "" ∧ TrimSpace baseTmpl ≠ "" ∧ reg t !! baseTmpl = None
  | ErrNoTmpl => TrimSpace name ≠ "" ∧ TrimSpace tmplSrc = "" ∧ filenames = []
  | ErrEngine _ => TrimSpace name ≠ ""
  | _ => False
  end.
Proof.
  unfold ownTemplate, getTemplate.
  destruct (checkName name) as [e0|] eqn:Ec.
  { pose proof (checkName_Some _ _ Ec) as ->. intros [= <-].
    unfold checkName in Ec. case_decide as El; [|done].
    by apply length_zero_empty. }
  apply checkName_None in Ec.
  destruct (checkName baseTmpl) as [e0|] eqn:Eb.
  - repeat case_decide.
    + intros [= <-]. split_and!; [done|by apply length_zero_empty|].
      by destruct filenames.
    + destruct (ParseFiles _ _ _); [|done]. by intros [= <-].
    + destruct (Parse _ _); [|done]. by intros [= <-].
  - apply checkName_None in Eb.
    destruct (reg t !! baseTmpl) eqn:Er; [|by intros [= <-]].
    destruct (Clone _); [by intros [= <-]|].
    repeat case_decide.
    + intros [= <-]. split_and!; [done|by apply length_zero_empty|].
      by destruct filenames.
    + destruct (ParseFiles _ _ _); [|done]. by intros [= <-].
    + destruct (Parse _ _); [|done]. by intros [= <-].
Qed.

Lemma getTemplate_inl name t e :
  getTemplate name t = inl e →
  (e = ErrNoName ∧ TrimSpace name = "")
  ∨ (e = ErrTmplNotFound ∧ checkName name = None ∧ reg t !! name = None).
Proof.
  unfold getTemplate. destruct (checkName name) as [e0|] eqn:Ec.
  - pose proof (checkName_Some _ _ Ec) as ->. intros [= <-]. left.
    split; [done|]. unfold checkName in Ec. case_decide as El; [|done].
    by apply length_zero_empty.
  - destruct (reg t !! name); [done|]. intros [= <-]. by right.
Qed.

Lemma saveTemplate_Err fuel fs name baseTmpl isNew tmplSrc filenames t e t' :
  store_ok t →
  saveTemplate fuel fs name baseTmpl isNew tmplSrc filenames t = (Err e, t') →
  match e with
  | ErrNoName => TrimSpace name = "" ∧ t' = t
  | ErrTmplNotFound =>
      TrimSpace baseTmpl ≠ "" ∧ reg t !! baseTmpl = None ∧ t' = t
  | ErrTmplExists => False
  | ErrNoTmpl => TrimSpace tmplSrc = "" ∧ filenames = [] ∧ t' = t
  | ErrMemdb ix => ix = "filename" ∧ baseDir t = "" ∧ TrimSpace tmplSrc = ""
  | ErrEngine _ | ErrWatch _ => True
  end.
Proof.
  intros Hok. rewrite saveTemplate_eq.
  destruct (ownTemplate _ _ _ _ _ _) as [e0|[tm td]] eqn:Eo.
  { intros [= <- <-]. apply ownTemplate_inl in Eo.
    destruct e0; try done; by destruct_and?. }
  pose proof (ownTemplate_inr _ _ _ _ _ _ _ _ Eo) as (Hc & Hname & Hbase & _ & Hreg).
  run. destruct (saveTemplateDataToDB fs td _) as [r1 t1] eqn:E1.
  assert (store_ok t1) as Hok1.
  { eapply store_ok_saveTemplateDataToDB; [|..|apply E1].
    - by apply store_ok_set_tmpls.
    - simpl. rewrite Hname, lookup_insert_eq. by eexists.
    - simpl. rewrite Hbase. intros Hv. rewrite lookup_insert.
      case_decide; [by eexists|by apply Hreg]. }
  destruct r1 as [[]|e1| |]; try done.
  - destruct isNew; [done|].
    destruct (rebuildChildTemplates _ _ _ _ _) as [[[]|e2| |] t2] eqn:E2; try done.
    intros [= <- _].
    apply rebuildChildTemplates_error in E2 as [[_ ?]|[ee ->]];
      [congruence|done|done].
  - intros [= <- _]. pose proof (saveTemplateDataToDB_error _ _ _ _ _ E1) as Hf.
    destruct e1 as [| | | | | |ix]; try done.
    apply saveTemplateDataToDB_memdb in E1 as [Hn|(-> & Hin & Hs)].
    { rewrite Hname in Hn. by apply checkName_nonempty in Hc. }
    destruct (ownTemplate_source _ _ _ _ _ _ _ _ Eo) as (base & Hcase).
    case_decide as Esrc; [|destruct Hcase; congruence].
    destruct Hcase as (_ & Hfiles & _). rewrite Hfiles in Hin.
    apply list_elem_of_fmap in Hin as (f & Hf' & _).
    symmetry in Hf'. apply cleanFilename_empty in Hf'. by split_and!.
Qed.

(** X10 (what an error tells).  In a store the calls can produce, an
    error of [AddTemplate] or [PutTemplate] has one cause: [ErrNoName] a
    blank name, [ErrTmplNotFound] a base name that is not blank and not
    registered, [ErrNoTmpl] no source and no files, each with the store
    untouched; [ErrTmplExists] a registered name, from [AddTemplate] only;
    and memdb complains only of an empty file name, which takes an empty
    base directory. *)
Theorem X10_sentinel_errors_have_one_cause
    fuel fs name baseTmpl tmplSrc filenames t e t' :
  reachable t →
  AddTemplate fuel fs name baseTmpl tmplSrc filenames t = (Err e, t')
  ∨ PutTemplate fuel fs name baseTmpl tmplSrc filenames t = (Err e, t') →
  match e with
  | ErrNoName => TrimSpace name = "" ∧ t' = t
  | ErrTmplExists =>
      is_Some (reg t !! name) ∧ t' = t
      ∧ ∀ t2, PutTemplate fuel fs name baseTmpl tmplSrc filenames t
              ≠ (Err ErrTmplExists, t2)
  | ErrTmplNotFound =>
      TrimSpace baseTmpl ≠ "" ∧ reg t !! baseTmpl = None ∧ t' = t
  | ErrNoTmpl => TrimSpace tmplSrc = "" ∧ filenames = [] ∧ t' = t
  | ErrMemdb ix => ix = "filename" ∧ baseDir t = "" ∧ TrimSpace tmplSrc = ""
  | ErrEngine _ | ErrWatch _ => True
  end.
Proof.
  intros Hok%reachable_store_ok Hcall.
  assert (∀ t2, PutTemplate fuel fs name baseTmpl tmplSrc filenames t
                ≠ (Err ErrTmplExists, t2)) as HPut.
  { intros t2. unfold PutTemplate.
    destruct (getTemplate name t) as [e0|] eqn:Eg.
    - pose proof (getTemplate_inl _ _ _ Eg) as [[-> _]|[-> _]]; [done|].
      intros Hs. by apply saveTemplate_Err in Hs.
    - intros Hs. by apply saveTemplate_Err in Hs. }
  unfold AddTemplate, PutTemplate in Hcall.
  destruct (getTemplate name t) as [e0|tm0] eqn:Eg.
  - pose proof (getTemplate_inl _ _ _ Eg) as [[-> Hb]|[-> _]].
    + by destruct Hcall as [[= <- <-]|[= <- <-]].
    + destruct Hcall as [Hs|Hs]; (apply saveTemplate_Err in Hs; [|done]);
        by destruct e.
  - destruct Hcall as [[= <- <-]|Hs].
    + apply getTemplate_inr in Eg as [_ Hr]. split_and!; [by eexists|done|done].
    + apply saveTemplate_Err in Hs; [|done]. by destruct e.
Qed.

(** *** The contract of [saveTemplateDataToDB] *)

(** X11 ([saveTemplateDataToDB] commits both tables or none).  When it
    returns no error, the record is found under its name, the file rows of
    that name are the files of the record (none for an inline source), and
    the records and rows of the other names are untouched; when it returns
    an error, both tables are as they were.  It never writes to the
    registry. *)
Theorem X11_saveTemplateDataToDB_commits_or_keeps fs td t r t' :
  saveTemplateDataToDB fs td t = (r, t') →
  baseDir t' = baseDir t ∧ reg t' = reg t
  ∧ match r with
    | Ok _ =>
        db t' !! Name td = Some td
        ∧ Get_tmplFilename_name (rows t') (Name td)
          ≡ₚ (if HasSrc td then []
              else (λ f, {| tfName := Name td; tfFilename := f |}) <$> Filenames td)
        ∧ ∀ k, k ≠ Name td →
            db t' !! k = db t !! k
            ∧ Get_tmplFilename_name (rows t') k = Get_tmplFilename_name (rows t) k
    | _ => db t' = db t ∧ rows t' = rows t
    end.
Proof.
  intros (Hbd & Hreg & Htab)%saveTemplateDataToDB_tables.
  split; [done|]. split; [done|].
  destruct r as [[]| | |]; try done. destruct Htab as [-> ->].
  assert (∀ k, Get_tmplFilename_name
                 (DeleteAll_tmplFilename_name (rows t) (Name td) ++ fileRows td) k
               = if decide (k = Name td) then fileRows td
                 else Get_tmplFilename_name (rows t) k) as Hget.
  { intros k. unfold Get_tmplFilename_name. rewrite filter_app.
    fold (Get_tmplFilename_name (DeleteAll_tmplFilename_name (rows t) (Name td)) k).
    fold (Get_tmplFilename_name (fileRows td) k).
    rewrite filter_name_DeleteAll, filter_name_fileRows.
    case_decide; [done|]. by rewrite app_nil_r. }
  split_and!.
  - by rewrite lookup_insert_eq.
  - by rewrite Hget, decide_True.
  - intros k Hne. rewrite Hget, decide_False by done.
    by rewrite lookup_insert_ne.
Qed.

(** *** Every template is what its record and its base produce *)

Lemma AddTemplate_as_Put fuel fs name baseTmpl tmplSrc filenames t tm t' :
  AddTemplate fuel fs name baseTmpl tmplSrc filenames t = (Ok tm, t') →
  PutTemplate fuel fs name baseTmpl tmplSrc filenames t = (Ok tm, t').
Proof.
  unfold AddTemplate, PutTemplate.
  by destruct (getTemplate name t) as [[]|].
Qed.

Lemma ownTemplate_build fs name baseTmpl tmplSrc filenames t tm td :
  ownTemplate fs name baseTmpl tmplSrc filenames t = inr (tm, td) →
  if HasBaseTmpl td then
    ∃ pt, reg t !! baseTmpl = Some pt ∧ rebuildChild fs pt td = inr tm
  else
    (if HasSrc td then Parse (template_New name) (Src td)
     else ParseFiles fs (template_New name) (Filenames td)) = inr tm.
Proof.
  unfold ownTemplate, getTemplate, rebuildChild.
  destruct (checkName name); [done|].
  destruct (checkName baseTmpl) as [e|] eqn:Eb.
  - repeat case_decide; try done.
    + destruct (ParseFiles _ _ _) eqn:Ep; [done|]. by intros [= <- <-].
    + destruct (Parse _ _) eqn:Ep; [done|]. by intros [= <- <-].
  - destruct (reg t !! baseTmpl) as [pt|] eqn:Er; [|done].
    destruct (Clone pt) as [|c] eqn:Ec; [done|].
    repeat case_decide; try done.
    + destruct (ParseFiles _ _ _) eqn:Ep; [done|]. intros [= <- <-]. simpl.
      exists pt. by rewrite Ec.
    + destruct (Parse _ _) eqn:Ep; [done|]. intros [= <- <-]. simpl.
      exists pt. by rewrite Ec.
Qed.

Lemma call_keeps_up_to_date fuel fs name baseTmpl tmplSrc filenames t tm t' :
  store_ok t → tables_ok t →
  (∀ m, is_Some (db t !! m) → up_to_date fs t m) →
  AddTemplate fuel fs name baseTmpl tmplSrc filenames t = (Ok tm, t')
  ∨ PutTemplate fuel fs name baseTmpl tmplSrc filenames t = (Ok tm, t') →
  ∀ m, is_Some (db t' !! m) → up_to_date fs t' m.
Proof.
  intros Hok Htab Hall Hcall.
  pose proof (tables_ok_call _ _ _ _ _ _ _ _ _ Htab Hcall) as [Hrec' _].
  assert (PutTemplate fuel fs name baseTmpl tmplSrc filenames t = (Ok tm, t'))
    as HPut by (destruct Hcall; [by apply AddTemplate_as_Put|done]).
  clear Hcall.
  pose proof (store_ok_PutTemplate _ _ _ _ _ _ _ _ _ Hok HPut) as Hok'.
  destruct (PutTemplate_Ok_inv _ _ _ _ _ _ _ _ _ Hok HPut)
    as (td & Hown & Hbd & Hdb & Hrows & Hname & Hframe & Hreb & Hnc & _ & Htouch).
  pose proof (ownTemplate_inr _ _ _ _ _ _ _ _ Hown) as (Hc & HN & HB & _ & _).
  assert (parent (db t') name baseTmpl) as Hp.
  { exists td. by rewrite Hdb, lookup_insert_eq. }
  assert (reg t' !! baseTmpl = reg t !! baseTmpl) as Hbase.
  { destruct (decide (baseTmpl = name)) as [->|Hne].
    { destruct Hnc. by apply tc_once. }
    apply Hframe; [done|]. intros Hd. apply Hnc. by eapply tc_l. }
  intros m [tdm Hm].
  destruct (decide (m = name)) as [->|Hne].
  { rewrite Hdb, lookup_insert_eq in Hm. injection Hm as <-.
    exists td, tm. split; [by rewrite Hdb, lookup_insert_eq|]. split; [done|].
    apply ownTemplate_build in Hown. rewrite HB, Hbase. apply Hown. }
  pose proof Hm as Hm0. rewrite Hdb, lookup_insert_ne in Hm0 by done.
  destruct (Hall m) as (td0 & ct & Htd0 & Hct & Hcur); [by eexists|].
  assert (td0 = tdm) as -> by congruence.
  assert (descendant (db t') name m → up_to_date fs t' m) as Hbelow.
  { intros Hd. destruct (Hreb m Hd) as (td1 & pt1 & ct1 & Htd1 & Hpt1 & Hct1 & Hm1).
    assert (td1 = tdm) as -> by congruence.
    exists tdm, ct1. split; [done|]. split; [done|].
    destruct (Hrec' _ _ Hm) as (Hhb & _).
    assert (HasBaseTmpl tdm = true) as ->; [|by exists pt1].
    apply Hhb, checkName_None, (ok_names _ Hok'). by eexists. }
  destruct (Htouch m Hne) as [Heq|Hd]; [|by apply Hbelow].
  destruct (HasBaseTmpl tdm) eqn:Ehb.
  - destruct Hcur as (pt & Hpt & Hbuild).
    destruct (decide (BaseTmplID tdm = name)) as [Hbn|Hbn].
    { apply Hbelow, tc_once. by exists tdm. }
    destruct (Htouch _ Hbn) as [Heq'|Hd'].
    + exists tdm, ct. rewrite Ehb. split_and!; [done|congruence|].
      exists pt. split; [congruence|done].
    + apply Hbelow. eapply tc_l; [|apply Hd']. by exists tdm.
  - exists tdm, ct. rewrite Ehb. split_and!; [done|congruence|done].
Qed.



(** *** A call that returns *)





(** *** What was put is what executes *)

(** X14 (what was put is what executes).  After an [AddTemplate] or a
    [PutTemplate] that returned a template, [ExecuteTemplate] of the name
    returns what a clone of that template renders, and [ExecuteTemplate] of
    a valid name that is not registered returns [ErrTmplNotFound] and takes
    no buffer. *)
Theorem X14_ExecuteTemplate_after_a_call
    fuel fs name baseTmpl tmplSrc filenames t tm t' (ctx : Data) mem c out :
  reachable t →
  AddTemplate fuel fs name baseTmpl tmplSrc filenames t = (Ok tm, t')
  ∨ PutTemplate fuel fs name baseTmpl tmplSrc filenames t = (Ok tm, t') →
  pool mem = [] → Clone tm = inr c → Execute c ctx = (out, None) →
  (∃ d mem', ExecuteTemplate name ctx t' mem = (Ok d, mem') ∧ bytesOf mem' d = out)
  ∧ ∀ other, TrimSpace other ≠ "" → reg t' !! other = None →
      ExecuteTemplate other ctx t' mem = (Err ErrTmplNotFound, mem).
Proof.
  intros Hok%reachable_store_ok Hcall Hpool Hc He.
  assert (PutTemplate fuel fs name baseTmpl tmplSrc filenames t = (Ok tm, t'))
    as HPut by (destruct Hcall; [by apply AddTemplate_as_Put|done]).
  destruct (PutTemplate_Ok_inv _ _ _ _ _ _ _ _ _ Hok HPut)
    as (td & Hown & _ & _ & _ & Hname & _).
  apply ownTemplate_inr in Hown as (Hcn & _).
  split.
  - destruct (ExecuteTemplate_renders name ctx t' mem tm c out)
      as (d & mem' & Hr & Hb & _); try done.
    + by apply getTemplate_inr.
    + by exists d, mem'.
  - intros other Hv Hnone. unfold ExecuteTemplate, getTemplate.
    by rewrite (checkName_valid _ Hv), Hnone.
Qed.

(** *** The watch loop *)

Lemma tables_ok_same t t' : same_tables t t' → tables_ok t → tables_ok t'.
Proof.
  intros (Hb & Hd & Hr & _) [Hrec Hfiles]. split; rewrite ?Hb, ?Hd, ?Hr; done.
Qed.

(** A row that was handled: the record was found, its template was built
    from its files on its base, installed, and the cascade has returned. *)
Lemma handleRow_Handled fuel fs tf log t log' t' :
  handleRow fuel fs tf log t = Handled log' t' →
  ∃ td tmpl r,
    db t !! tfName tf = Some td
    ∧ (if HasBaseTmpl td then
         ∃ pt c, getTemplate (BaseTmplID td) t = inr pt ∧ Clone pt = inr c
                 ∧ ParseFiles fs c (Filenames td) = inr tmpl
       else ParseFiles fs (template_New (Name td)) (Filenames td) = inr tmpl)
    ∧ rebuildChildTemplates fuel fs (Name td) tmpl
        (set_tmpls <[Name td := tmpl]> t) = (r, t')
    ∧ ((r = Ok tt ∧ log' = log) ∨ ∃ e, r = Err e ∧ log' = (log ++ [LogError e])%list).
Proof.
  unfold handleRow. destruct (db t !! tfName tf) as [td|] eqn:Etd; [|done].
  destruct (HasBaseTmpl td) eqn:Ehb.
  - destruct (getTemplate (BaseTmplID td) t) as [|pt] eqn:Eg; [done|].
    destruct (Clone pt) as [|c] eqn:Ec; [done|].
    destruct (ParseFiles fs c (Filenames td)) as [|tmpl] eqn:Ep; [done|].
    destruct (rebuildChildTemplates _ _ _ _ _) as [[[]|e| |] t2] eqn:E2; try done.
    + intros [= <- <-]. exists td, tmpl, (Ok tt). rewrite Ehb.
      split_and!; [done|by exists pt, c|done|by left].
    + intros [= <- <-]. exists td, tmpl, (Err e). rewrite Ehb.
      split_and!; [done|by exists pt, c|done|right; by exists e].
  - destruct (ParseFiles fs _ (Filenames td)) as [|tmpl] eqn:Ep; [done|].
    destruct (rebuildChildTemplates _ _ _ _ _) as [[[]|e| |] t2] eqn:E2; try done.
    + intros [= <- <-]. exists td, tmpl, (Ok tt). rewrite Ehb.
      split_and!; [done|done|done|by left].
    + intros [= <- <-]. exists td, tmpl, (Err e). rewrite Ehb.
      split_and!; [done|done|done|right; by exists e].
Qed.

Lemma handleRow_keeps fuel fs tf log t log' t' :
  handleRow fuel fs tf log t = Handled log' t' →
  same_tables t t'
  ∧ (∀ k, is_Some (reg t !! k) → is_Some (reg t' !! k))
  ∧ (store_ok t → store_ok t')
  ∧ ∃ more, log' = (log ++ more)%list.
Proof.
  intros (td & tmpl & r & Htd & _ & Hcas & Hlog)%handleRow_Handled.
  split_and!.
  - eapply same_tables_trans; [apply (same_tables_set_tmpls <[Name td := tmpl]>)|].
    by eapply rebuildChildTemplates_frame.
  - intros k Hk. eapply rebuildChildTemplates_keeps; [apply Hcas|].
    simpl. rewrite lookup_insert. case_decide; [by eexists|done].
  - intros Hok. eapply store_ok_rebuildChildTemplates; [|apply Hcas].
    apply store_ok_set_tmpls; [done|].
    apply (ok_names _ Hok), (ok_registered _ Hok).
    rewrite (ok_keyed _ Hok _ _ Htd). by eexists.
  - destruct Hlog as [[_ ->]|(e & _ & ->)]; [exists []; by rewrite app_nil_r|by eexists].
Qed.

Lemma handleRows_keeps fuel fs L log t log' t' :
  handleRows fuel fs L log t = Handled log' t' →
  same_tables t t'
  ∧ (∀ k, is_Some (reg t !! k) → is_Some (reg t' !! k))
  ∧ (store_ok t → store_ok t')
  ∧ ∃ more, log' = (log ++ more)%list.
Proof.
  revert log t. induction L as [|tf L IH]; intros log t; simpl.
  { intros [= <- <-]. split_and!; [apply same_tables_refl|done|done|].
    exists []. by rewrite app_nil_r. }
  destruct (handleRow fuel fs tf log t) as [log1 t1| | |] eqn:E1; try done.
  apply handleRow_keeps in E1 as (Hs1 & Hk1 & Hok1 & more1 & ->).
  intros (Hs2 & Hk2 & Hok2 & more2 & ->)%IH. split_and!.
  - by eapply same_tables_trans.
  - auto.
  - auto.
  - exists (more1 ++ more2)%list. by rewrite app_assoc.
Qed.

Lemma handleEvent_keeps fuel fs ev log t log' t' :
  handleEvent fuel fs ev log t = Handled log' t' →
  same_tables t t'
  ∧ (∀ k, is_Some (reg t !! k) → is_Some (reg t' !! k))
  ∧ (store_ok t → store_ok t')
  ∧ ∃ more, log' = (log ++ more)%list.
Proof.
  unfold handleEvent. case_decide.
  - destruct (handleRows _ _ _ _ _) as [log1 t1| | |] eqn:E1; try done.
    apply handleRows_keeps in E1 as (Hs1 & Hk1 & Hok1 & more1 & ->).
    intros [= <- <-]. split_and!; try done.
    eexists. by rewrite <- app_assoc.
  - intros [= <- <-]. split_and!; [apply same_tables_refl|done|done|].
    exists []. by rewrite app_nil_r.
Qed.

Lemma handleWatcherEvents_keeps fuel msgs log t log' t' :
  handleWatcherEvents fuel msgs log t = Handled log' t' →
  same_tables t t'
  ∧ (∀ k, is_Some (reg t !! k) → is_Some (reg t' !! k))
  ∧ (store_ok t → store_ok t').
Proof.
  revert log t. induction msgs as [|msg msgs IH]; intros log t; simpl.
  { intros [= <- <-]. split_and!; [apply same_tables_refl|done|done]. }
  destruct msg as [fs ev|[err|]|].
  - destruct (handleEvent fuel fs ev log t) as [log1 t1| | |] eqn:E1; try done.
    apply handleEvent_keeps in E1 as (Hs1 & Hk1 & Hok1 & _).
    intros (Hs2 & Hk2 & Hok2)%IH. split_and!; [by eapply same_tables_trans|auto..].
  - apply IH.
  - apply IH.
  - intros [= <- <-]. split_and!; [apply same_tables_refl|done|done].
Qed.

Lemma reachable_live t : reachable t → live t.
Proof.
  induction 1; [apply live_New|by apply live_Initialize
               |by apply live_Add|by apply live_Put].
Qed.

Lemma live_ok t : live t → store_ok t ∧ tables_ok t.
Proof.
  induction 1 as [basedir|t _ IH|t fuel fs name b src files _ IH _
                 |t fuel fs name b src files _ IH _
                 |t fuel msgs log log' t' _ IH Hw].
  - split; [apply store_ok_New|apply tables_ok_New].
  - split; [apply store_ok_New|apply tables_ok_New].
  - destruct IH as [Hok Htab]. split.
    + eapply store_ok_AddTemplate; [apply Hok|apply surjective_pairing].
    + eapply tables_ok_call; [apply Htab|]. left. apply surjective_pairing.
  - destruct IH as [Hok Htab]. split.
    + eapply store_ok_PutTemplate; [apply Hok|apply surjective_pairing].
    + eapply tables_ok_call; [apply Htab|]. right. apply surjective_pairing.
  - destruct IH as [Hok Htab].
    apply handleWatcherEvents_keeps in Hw as (Hs & _ & Hok').
    split; [auto|by eapply tables_ok_same].
Qed.








(** *** A write event reloads *)

(** Installing a template that is built from its record, then a cascade
    that returns: the template, and every template that was up to date, is
    up to date. *)
Lemma install_up_to_date fuel fs x td tmpl t t' :
  store_ok t → tables_ok t →
  db t !! x = Some td →
  (if HasBaseTmpl td then
     ∃ pt, reg t !! BaseTmplID td = Some pt ∧ rebuildChild fs pt td = inr tmpl
   else
     (if HasSrc td then Parse (template_New x) (Src td)
      else ParseFiles fs (template_New x) (Filenames td)) = inr tmpl) →
  rebuildChildTemplates fuel fs x tmpl (set_tmpls <[x := tmpl]> t) = (Ok tt, t') →
  up_to_date fs t' x ∧ ∀ m, up_to_date fs t m → up_to_date fs t' m.
Proof.
  intros Hok Htab Htd Hbuild Hcas.
  pose proof (ok_keyed _ Hok) as Hk.
  assert (checkName x = None) as Hcx.
  { apply (ok_names _ Hok), (ok_registered _ Hok). by eexists. }
  pose proof (store_ok_set_tmpls x tmpl _ Hok Hcx) as Hok1.
  pose proof (store_ok_rebuildChildTemplates _ _ _ _ _ _ _ Hok1 Hcas) as Hok'.
  pose proof (rebuildChildTemplates_frame _ _ _ _ _ _ _ Hcas) as Hs.
  pose proof (tables_ok_same _ _
                (same_tables_trans _ _ _ (same_tables_set_tmpls _ t) Hs) Htab)
    as [Hrec' _].
  destruct Hs as (_ & Hdb' & _). simpl in Hdb'.
  assert (¬ descendant (db t) x x) as Hnc.
  { intros Hd. by eapply (rebuildChildTemplates_cycle _ _ _ _ (set_tmpls _ t)). }
  assert (reg t' !! x = Some tmpl) as Hx'.
  { rewrite (rebuildChildTemplates_writes_below _ _ _ _ _ _ _
               (Hk : keyed (db (set_tmpls <[x := tmpl]> t))) Hcas _ Hnc).
    simpl. by rewrite lookup_insert_eq. }
  assert (∀ m, m ≠ x → reg t' !! m = reg t !! m ∨ descendant (db t) x m) as Htouch.
  { intros m Hne.
    destruct (rebuildChildTemplates_touched _ _ _ _ _ _ _
                (Hk : keyed (db (set_tmpls <[x := tmpl]> t))) Hcas m) as [Heq|Hd];
      [left|by right].
    rewrite Heq. simpl. by rewrite lookup_insert_ne. }
  assert (∀ m, descendant (db t) x m → up_to_date fs t' m) as Hbelow.
  { intros m Hd.
    destruct (rebuildChildTemplates_rebuilds _ _ _ _ _ _
                (Hk : keyed (db (set_tmpls <[x := tmpl]> t)))
                (lookup_insert_eq _ _ _ : reg (set_tmpls <[x := tmpl]> t) !! x = Some tmpl)
                Hcas _ Hd)
      as (td1 & pt1 & ct1 & Htd1 & Hpt1 & Hct1 & Hm1).
    exists td1, ct1. split; [done|]. split; [done|].
    destruct (Hrec' _ _ Htd1) as (Hhb & _).
    assert (HasBaseTmpl td1 = true) as ->; [|by exists pt1].
    apply Hhb, checkName_None, (ok_names _ Hok'). by eexists. }
  assert (up_to_date fs t' x) as Hux.
  { exists td, tmpl. rewrite Hdb'. split; [done|]. split; [done|].
    destruct (HasBaseTmpl td); [|done].
    destruct Hbuild as (pt & Hpt & Hb). exists pt. split; [|done].
    assert (parent (db t) x (BaseTmplID td)) as Hp by (by exists td).
    destruct (decide (BaseTmplID td = x)) as [Hq|Hq].
    { destruct Hnc. apply tc_once. by rewrite Hq in Hp. }
    destruct (Htouch _ Hq) as [->|Hd]; [done|].
    destruct Hnc. by eapply tc_l. }
  split; [done|].
  intros m (tdm & ct & Hm & Hct & Hcur).
  destruct (decide (m = x)) as [->|Hne]; [done|].
  destruct (Htouch m Hne) as [Heq|Hd]; [|by apply Hbelow].
  destruct (HasBaseTmpl tdm) eqn:Ehb.
  - destruct Hcur as (pt & Hpt & Hb).
    destruct (decide (BaseTmplID tdm = x)) as [Hbn|Hbn].
    { apply Hbelow, tc_once. by exists tdm. }
    destruct (Htouch _ Hbn) as [Heq'|Hd'].
    + exists tdm, ct. rewrite Ehb, Hdb'. split_and!; [done|congruence|].
      exists pt. split; [congruence|done].
    + apply Hbelow. eapply tc_l; [|apply Hd']. by exists tdm.
  - exists tdm, ct. rewrite Ehb, Hdb'. split_and!; [done|congruence|done].
Qed.

Lemma app_eq_self {A} (l more : list A) : l = (l ++ more)%list → more = [].
Proof.
  intros E. apply (f_equal length) in E. rewrite length_app in E.
  destruct more; [done|]. simpl in E. lia.
Qed.

Lemma handleRows_up_to_date fuel fs L log t t' :
  store_ok t → tables_ok t →
  (∀ tf, tf ∈ L → tf ∈ rows t) →
  handleRows fuel fs L log t = Handled log t' →
  (∀ m, up_to_date fs t m → up_to_date fs t' m)
  ∧ ∀ tf, tf ∈ L → up_to_date fs t' (tfName tf).
Proof.
  revert t. induction L as [|tf L IH]; intros t Hok Htab HL; simpl.
  { intros [= <-]. split; [done|]. by intros tf Hin%elem_of_nil. }
  destruct (handleRow fuel fs tf log t) as [log1 t1| | |] eqn:E1; try done.
  intros Hrest.
  pose proof (handleRow_keeps _ _ _ _ _ _ _ E1) as (Hs1 & _ & Hok1 & more1 & Hl1).
  pose proof (handleRows_keeps _ _ _ _ _ _ _ Hrest) as (_ & _ & _ & more2 & Hl2).
  assert (log1 = log) as ->.
  { rewrite Hl1, <- app_assoc in Hl2. apply app_eq_self in Hl2.
    apply app_eq_nil in Hl2 as [-> _]. by rewrite app_nil_r in Hl1. }
  apply handleRow_Handled in E1 as (td & tmpl & r & Htd & Hbuild & Hcas & Hlog).
  assert (r = Ok tt) as ->.
  { destruct Hlog as [[-> _]|(e & _ & He)]; [done|].
    by apply app_eq_self in He. }
  pose proof (ok_keyed _ Hok _ _ Htd) as Hname. rewrite Hname in *.
  assert (HasSrc td = false) as Hsrc.
  { destruct Htab as [_ Hfiles]. specialize (Hfiles (tfName tf)).
    rewrite Htd in Hfiles. unfold fileRows in Hfiles.
    destruct (HasSrc td); [|done].
    assert (tf ∈ Get_tmplFilename_name (rows t) (tfName tf)) as Hin.
    { apply list_elem_of_filter. split; [done|]. apply HL. by left. }
    rewrite Hfiles in Hin. by apply elem_of_nil in Hin. }
  assert (if HasBaseTmpl td then
            ∃ pt, reg t !! BaseTmplID td = Some pt
                  ∧ rebuildChild fs pt td = inr tmpl
          else
            (if HasSrc td then Parse (template_New (tfName tf)) (Src td)
             else ParseFiles fs (template_New (tfName tf)) (Filenames td))
            = inr tmpl) as Hb.
  { destruct (HasBaseTmpl td).
    - destruct Hbuild as (pt & c & Hg & Hc & Hp).
      apply getTemplate_inr in Hg as [_ Hg]. exists pt. split; [done|].
      unfold rebuildChild. by rewrite Hc, Hsrc.
    - by rewrite Hsrc. }
  destruct (install_up_to_date fuel fs _ _ _ _ _ Hok Htab Htd Hb Hcas)
    as [Hux Hkeep].
  assert (∀ tf0, tf0 ∈ L → tf0 ∈ rows t1) as HL1.
  { destruct Hs1 as (_ & _ & -> & _). intros tf' Hin. apply HL. by right. }
  destruct (IH t1 (Hok1 Hok) (tables_ok_same _ _ Hs1 Htab) HL1 Hrest)
    as [Hkeep' Hall'].
  split; [auto|].
  intros tf' [->|Hin]%elem_of_cons; auto.
Qed.

Lemma rebuildChild_files fs fs0 f pt td :
  (∀ b files, f ∉ files → ParseFiles fs b files = ParseFiles fs0 b files) →
  HasSrc td = true ∨ f ∉ Filenames td →
  rebuildChild fs pt td = rebuildChild fs0 pt td.
Proof.
  intros Hfs Hcase. unfold rebuildChild. destruct (Clone pt); [done|].
  destruct (HasSrc td); [done|]. destruct Hcase as [?|Hn]; [done|]. by apply Hfs.
Qed.

(** X18 (a write event reloads).  Let every template be up to date with
    the disk as it was, and let a file change on disk.  When the rows of
    that file, in whatever order the index gives them, have been handled
    without an error in the log, every template is up to date with the disk
    as it is now; the tables are untouched. *)
Theorem X18_write_event_brings_templates_up_to_date fuel fs0 fs f L log t t' :
  live t →
  (∀ m, is_Some (db t !! m) → up_to_date fs0 t m) →
  (∀ b files, f ∉ files → ParseFiles fs b files = ParseFiles fs0 b files) →
  L ≡ₚ Get_tmplFilename_filename (rows t) f →
  handleRows fuel fs L log t = Handled log t' →
  same_tables t t' ∧ ∀ m, is_Some (db t' !! m) → up_to_date fs t' m.
Proof.
  intros [Hok Htab]%live_ok Hall Hfs HL Hrows.
  pose proof (handleRows_keeps _ _ _ _ _ _ _ Hrows) as (Hs & _).
  split; [done|]. destruct Hs as (_ & Hdb & _).
  assert (∀ tf, tf ∈ L → tf ∈ rows t) as Hsub.
  { intros tf Hin. rewrite HL in Hin.
    by apply list_elem_of_filter in Hin as [_ ?]. }
  destruct (handleRows_up_to_date _ _ _ _ _ _ Hok Htab Hsub Hrows)
    as [Hkeep Hdone].
  intros m Hm. rewrite Hdb in Hm.
  destruct (Hall m Hm) as (td & ct & Htd & Hct & Hcur).
  destruct (HasSrc td) eqn:Hsrc.
  { apply Hkeep. exists td, ct. split; [done|]. split; [done|].
    destruct (HasBaseTmpl td).
    - destruct Hcur as (pt & Hpt & Hb). exists pt. split; [done|].
      rewrite <- Hb. apply (rebuildChild_files _ _ f); [done|by left].
    - by rewrite Hsrc in *. }
  destruct (decide (f ∈ Filenames td)) as [Hin|Hnin].
  - apply (Hdone {| tfName := m; tfFilename := f |}).
    rewrite HL. apply list_elem_of_filter. split; [done|].
    destruct Htab as [_ Hfiles]. specialize (Hfiles m).
    rewrite Htd in Hfiles. unfold fileRows in Hfiles. rewrite Hsrc in Hfiles.
    assert ({| tfName := m; tfFilename := f |}
            ∈ Get_tmplFilename_name (rows t) m) as Hrow.
    { rewrite Hfiles, (ok_keyed _ Hok _ _ Htd).
      apply list_elem_of_fmap. by exists f. }
    by apply list_elem_of_filter in Hrow as [_ ?].
  - apply Hkeep. exists td, ct. split; [done|]. split; [done|].
    destruct (HasBaseTmpl td).
    + destruct Hcur as (pt & Hpt & Hb). exists pt. split; [done|].
      rewrite <- Hb. apply (rebuildChild_files _ _ f); [done|by right].
    + rewrite Hsrc in *. rewrite <- Hcur. by apply Hfs.
Qed.

End Further.

(** * The claims on the reference model *)

Section Scenarios.
#[local] Existing Instance model.collaborators.
Import scenario.

Lemma reachable_withA : reachable withA.
Proof.
  unfold withA, empty. apply reachable_Add; [apply reachable_New|].
  by vm_compute.
Qed.

Lemma reachable_withAB : reachable withAB.
Proof.
  unfold withAB. apply reachable_Add; [apply reachable_withA|]. by vm_compute.
Qed.

Lemma reachable_withABC : reachable withABC.
Proof.
  unfold withABC. apply reachable_Add; [apply reachable_withAB|]. by vm_compute.
Qed.

Lemma reachable_withD : reachable withD.
Proof.
  unfold withD, empty. apply reachable_Add; [apply reachable_New|].
  by vm_compute.
Qed.

Lemma reachable_withAfile : reachable withAfile.
Proof.
  unfold withAfile. apply reachable_Add; [apply reachable_withA|]. by vm_compute.
Qed.


(** On a table in which [A] is the one child of [A], the cascade from [A]
    has not returned, whatever the fuel. *)
Lemma cascade_on_loop_never_returns fuel tm t :
  Get_tmplData_baseid (tmplDB_tmplData (store t)) "A" = [recordLoop] →
  (rebuildChildTemplates fuel nofiles "A" tm t).1 = OutOfFuel.
Proof.
  revert tm t. induction fuel as [|fuel IH]; intros tm t Hdb; [reflexivity|].
  rewrite rebuildChildTemplates_S, Hdb.
  assert (checkName "A" = @None (error EngineError WatchError)) as ->
    by (by vm_compute).
  rewrite rebuildLoop_cons.
  assert (rebuildChild nofiles tm recordLoop
          = inr {| model.tName := model.tName tm;
                   model.layers := (model.layers tm ++ [definesD])%list |}) as ->
    by reflexivity.
  change (Name recordLoop) with "A".
  match goal with |- context [rebuildChildTemplates fuel nofiles "A" ?c ?t1] =>
    specialize (IH c t1 Hdb);
    destruct (rebuildChildTemplates fuel nofiles "A" c t1) as [r t2]
  end.
  unfold fst in IH. by rewrite IH.
Qed.

(** C2, refuted as stated: a reachable store, and a [PutTemplate] on it whose
    cascade does not return.  [A] is registered without a base; putting it
    again with itself as base records [A] as its own child, and the cascade
    rebuilds [A] from [A] without end. *)
Lemma C2_counterexample :
  reachable withD
  ∧ (∃ td, tmplDB_tmplData (store withD) !! "A" = Some td ∧ BaseTmplID td = "")
  ∧ ∀ fuel, (PutTemplate fuel nofiles "A" "A" definesD [] withD).1 = OutOfFuel.
Proof.
  split_and!.
  - apply reachable_withD.
  - eexists. split; by vm_compute.
  - intros fuel. unfold PutTemplate.
    destruct (getTemplate "A" withD) as [e|tm0] eqn:Eg;
      vm_compute in Eg; [discriminate|clear Eg].
    rewrite saveTemplate_eq.
    destruct (ownTemplate nofiles "A" "A" definesD [] withD) as [e|[tm td]] eqn:Eo;
      vm_compute in Eo; [discriminate|]. injection Eo as <- <-.
    unfold bind, ret.
    match goal with |- context [saveTemplateDataToDB nofiles ?td ?t0] =>
      pose proof (saveTemplateDataToDB_spec nofiles td t0) as Hspec;
      assert ((saveTemplateDataToDB nofiles td t0).1 = Ok ()) as Hr1
        by (by vm_compute);
      destruct (saveTemplateDataToDB nofiles td t0) as [r1 t1]
    end.
    unfold fst in Hr1. subst r1.
    destruct (Hspec _ _ eq_refl) as (_ & _ & Hdb).
    match goal with |- context [rebuildChildTemplates fuel nofiles "A" ?c t1] =>
      pose proof (cascade_on_loop_never_returns fuel c t1) as Hl;
      destruct (rebuildChildTemplates fuel nofiles "A" c t1) as [r t2]
    end.
    unfold fst in Hl. rewrite Hl; [done|].
    rewrite Hdb. by vm_compute.
Qed.

Lemma acyclic_withABC : acyclic (tmplDB_tmplData (store withABC)).
Proof.
  unfold withABC.
  apply AddTemplate_acyclic; [apply reachable_store_ok, reachable_withAB|].
  unfold withAB.
  apply AddTemplate_acyclic; [apply reachable_store_ok, reachable_withA|].
  unfold withA.
  apply AddTemplate_acyclic; [apply store_ok_New|].
  intros n Hd. apply descendant_has_record in Hd as [td Htd].
  unfold empty, NewTplSys in Htd. cbn [store tmplDB_tmplData] in Htd.
  by rewrite lookup_empty in Htd.
Qed.

(** C2 as amended, at work on the store with [A], [B] on [A] and [C] on
    [B]. *)
Lemma C2_witness :
  (∀ fs name tmpl, ∃ r t',
      r ≠ OutOfFuel
      ∧ ∀ fuel, (size (tmplDB_tmplData (store withABC)) < fuel)%nat →
                rebuildChildTemplates fuel fs name tmpl withABC = (r, t'))
  ∧ (∀ fuel fs name baseTmpl tmplSrc filenames,
      acyclic (tmplDB_tmplData (store
        (AddTemplate fuel fs name baseTmpl tmplSrc filenames withABC).2))).
Proof.
  apply (C2_cascade_returns_on_acyclic_graph (H := model.collaborators) withABC).
  - apply reachable_withABC.
  - apply acyclic_withABC.
Defined.



(** C4 at work: [Hello Ada], then [Hello Bob]; the bytes returned for Ada
    read [Hello Bob] after the second call. *)
Lemma C4_witness :
  ∃ d1 mem1 d2 mem2,
    ExecuteTemplate "A" "Ada" withA emptyMemory = (Ok d1, mem1)
    ∧ ExecuteTemplate "A" "Bob" withA mem1 = (Ok d2, mem2)
    ∧ bytesOf mem1 d1 = "Hello Ada"
    ∧ bytesOf mem2 d2 = "Hello Bob"
    ∧ bytesOf mem2 d1 = "Hello Bob".
Proof.
  apply (C4_second_call_overwrites_first (H := model.collaborators)
           "A" "Ada" "Bob" withA emptyMemory
           {| model.tName := "A"; model.layers := ["Hello {{.}}"] |}
           {| model.tName := "A"; model.layers := ["Hello {{.}}"] |}).
  - reflexivity.
  - by vm_compute.
  - reflexivity.
  - by vm_compute.
  - by vm_compute.
  - done.
  - reflexivity.
Defined.

(** C5, refuted as stated: a base name of one space is accepted, and the
    template is registered without a base. *)
Lemma C5_counterexample :
  TrimSpace " " = ""
  ∧ (AddTemplate 0 nofiles "x" " " "hello" [] empty).1
    = Ok {| model.tName := "x"; model.layers := ["hello"] |}
  ∧ tmpls (store (AddTemplate 0 nofiles "x" " " "hello" [] empty).2) !! "x"
    = Some {| model.tName := "x"; model.layers := ["hello"] |}
  ∧ tmpls (store empty) !! "x" = None.
Proof. split_and!; by vm_compute. Qed.

(** C5 as amended, at work on a name of one space. *)
Lemma C5_witness :
  AddTemplate 0 nofiles " " "" "hello" [] withA = (Err ErrNoName, withA)
  ∧ PutTemplate 0 nofiles " " "" "hello" [] withA = (Err ErrNoName, withA)
  ∧ ExecuteTemplate " " "Ada" withA emptyMemory = (Err ErrNoName, emptyMemory)
  ∧ getTemplate " " withA = inl ErrNoName.
Proof.
  apply (proj1 (C5_blank_name_is_refused (H := model.collaborators)
                  0 nofiles " " "" "hello" [] "Ada" withA emptyMemory)).
  by vm_compute.
Defined.

(** C6 at work: [A] is added twice. *)
Lemma C6_witness :
  AddTemplate 0 nofiles "A" "" "other" [] withA = (Err ErrTmplExists, withA).
Proof.
  apply (C6_no_duplicate_add (H := model.collaborators)).
  - apply reachable_withA.
  - vm_compute. eauto.
Defined.

(** C7 at work: a child on a base that was never added. *)
Lemma C7_witness :
  ∃ t',
    AddTemplate 0 nofiles "child" "missing-base" "text" [] empty
    = (Err ErrTmplNotFound, t')
    ∧ t' = empty
    ∧ tmpls (store t') !! "child" = None
    ∧ tmplDB_tmplData (store t') !! "child" = None.
Proof.
  apply (C7_unresolved_base (H := model.collaborators)).
  - apply reachable_New.
  - by vm_compute.
  - by vm_compute.
  - by vm_compute.
  - by vm_compute.
Defined.


(** C9 at work on the empty store. *)
Lemma C9_witness :
  PutTemplate 3 nofiles "x" "" "hello" [] empty
  = AddTemplate 3 nofiles "x" "" "hello" [] empty.
Proof.
  apply (C9_put_equals_add_on_fresh_names (H := model.collaborators)).
  by vm_compute.
Defined.


(** ** The further properties on the reference model *)

(** X1 at work on the store with [A] and [B] on [A]. *)
Lemma X1_witness :
  (∀ k td, tmplDB_tmplData (store withAB) !! k = Some td →
           Name td = k ∧ is_Some (tmpls (store withAB) !! k))
  ∧ (∀ k, is_Some (tmpls (store withAB) !! k) → TrimSpace k ≠ "")
  ∧ (∀ k td, tmplDB_tmplData (store withAB) !! k = Some td →
             TrimSpace (BaseTmplID td) ≠ "" →
             is_Some (tmpls (store withAB) !! BaseTmplID td)).
Proof.
  apply (X1_reachable_store_is_consistent (H := model.collaborators) withAB).
  apply reachable_withAB.
Defined.

(** X2 at work on the record of [B], which was added from a file. *)
Lemma X2_witness :
  (HasBaseTmpl recordBfile = true ↔ TrimSpace (BaseTmplID recordBfile) ≠ "")
  ∧ (HasSrc recordBfile = true ↔ Src recordBfile ≠ "")
  ∧ TrimSpace (Src recordBfile) = Src recordBfile
  ∧ (HasSrc recordBfile = false →
     Filenames recordBfile ≠ []
     ∧ ∃ given, Filenames recordBfile = cleanFilename (baseDir withAfile) <$> given).
Proof.
  apply (X2_reachable_records_are_well_formed (H := model.collaborators)
           withAfile "B" recordBfile).
  - apply reachable_withAfile.
  - by vm_compute.
Defined.




(** X6 at work: [B] stays when [A] is put again. *)
Lemma X6_witness :
  (is_Some (tmpls (store withABC) !! "B") →
   is_Some (tmpls (store (PutTemplate 5 nofiles "A" "" "Howdy {{.}}" [] withABC).2) !! "B"))
  ∧ (is_Some (tmplDB_tmplData (store withABC) !! "B") →
     is_Some (tmplDB_tmplData
                (store (PutTemplate 5 nofiles "A" "" "Howdy {{.}}" [] withABC).2) !! "B")).
Proof.
  apply (X6_registered_names_stay_registered (H := model.collaborators)
           5 nofiles "A" "" "Howdy {{.}}" [] withABC
           (PutTemplate 5 nofiles "A" "" "Howdy {{.}}" [] withABC).1).
  right. apply surjective_pairing.
Defined.


(** X8 at work: [A] is put on base [A]. *)
Lemma X8_witness :
  reachable withD
  ∧ ∀ tm t', PutTemplate 7 nofiles "A" "A" definesD [] withD ≠ (Ok tm, t').
Proof.
  split; [apply reachable_withD|].
  apply (X8_PutTemplate_on_a_cycle_never_succeeds (H := model.collaborators)
           7 nofiles "A" "A" definesD [] withD).
  - apply reachable_withD.
  - by left.
Defined.

(** X9 at work: [A] is put twice under [B] and [C]. *)
Lemma X9_witness :
  (∀ tm' t2,
     PutTemplate 5 nofiles "A" "" "Howdy {{.}}" []
       (PutTemplate 5 nofiles "A" "" "Howdy {{.}}" [] withABC).2 = (Ok tm', t2) →
     tm' = {| model.tName := "A"; model.layers := ["Howdy {{.}}"] |}
     ∧ baseDir t2 = baseDir (PutTemplate 5 nofiles "A" "" "Howdy {{.}}" [] withABC).2
     ∧ tmpls (store t2)
       = tmpls (store (PutTemplate 5 nofiles "A" "" "Howdy {{.}}" [] withABC).2)
     ∧ tmplDB_tmplData (store t2)
       = tmplDB_tmplData (store (PutTemplate 5 nofiles "A" "" "Howdy {{.}}" [] withABC).2)
     ∧ tmplDB_tmplFilename (store t2)
       ≡ₚ tmplDB_tmplFilename
            (store (PutTemplate 5 nofiles "A" "" "Howdy {{.}}" [] withABC).2))
  ∧ (TrimSpace "Howdy {{.}}" ≠ "" → 5 ≠ 0 →
     PutTemplate 5 nofiles "A" "" "Howdy {{.}}" []
       (PutTemplate 5 nofiles "A" "" "Howdy {{.}}" [] withABC).2
     = (Ok {| model.tName := "A"; model.layers := ["Howdy {{.}}"] |},
        (PutTemplate 5 nofiles "A" "" "Howdy {{.}}" [] withABC).2)).
Proof.
  apply (X9_PutTemplate_again_changes_nothing (H := model.collaborators)
           5 nofiles "A" "" "Howdy {{.}}" [] withABC).
  - apply reachable_withABC.
  - apply pair_with_snd. by vm_compute.
Defined.

(** X10 at work: [A] is added twice. *)
Lemma X10_witness :
  is_Some (tmpls (store withA) !! "A")
  ∧ (AddTemplate 0 nofiles "A" "" "other" [] withA).2 = withA
  ∧ ∀ t2, PutTemplate 0 nofiles "A" "" "other" [] withA ≠ (Err ErrTmplExists, t2).
Proof.
  apply (X10_sentinel_errors_have_one_cause (H := model.collaborators)
           0 nofiles "A" "" "other" [] withA ErrTmplExists).
  - apply reachable_withA.
  - left. apply pair_with_snd. by vm_compute.
Defined.

(** X11 at work: the record of [B] on the store with [A]. *)
Lemma X11_witness :
  baseDir (saveTemplateDataToDB disk recordBfile withA).2 = baseDir withA
  ∧ tmpls (store (saveTemplateDataToDB disk recordBfile withA).2)
    = tmpls (store withA)
  ∧ tmplDB_tmplData (store (saveTemplateDataToDB disk recordBfile withA).2)
      !! Name recordBfile = Some recordBfile
  ∧ Get_tmplFilename_name
      (tmplDB_tmplFilename (store (saveTemplateDataToDB disk recordBfile withA).2))
      (Name recordBfile)
    ≡ₚ (if HasSrc recordBfile then []
        else (λ f, {| tfName := Name recordBfile; tfFilename := f |})
             <$> Filenames recordBfile)
  ∧ ∀ k, k ≠ Name recordBfile →
      tmplDB_tmplData (store (saveTemplateDataToDB disk recordBfile withA).2) !! k
      = tmplDB_tmplData (store withA) !! k
      ∧ Get_tmplFilename_name
          (tmplDB_tmplFilename (store (saveTemplateDataToDB disk recordBfile withA).2)) k
        = Get_tmplFilename_name (tmplDB_tmplFilename (store withA)) k.
Proof.
  apply (X11_saveTemplateDataToDB_commits_or_keeps (H := model.collaborators)
           disk recordBfile withA (Ok tt)).
  apply pair_with_snd. by vm_compute.
Defined.

(** The one template of the store with [A] is up to date, whatever the
    disk. *)
Lemma up_to_date_A fs m :
  is_Some (tmplDB_tmplData (store (AddTemplate 0 fs "A" "" "Hello {{.}}" [] empty).2) !! m) →
  up_to_date fs (AddTemplate 0 fs "A" "" "Hello {{.}}" [] empty).2 m.
Proof.
  apply (call_keeps_up_to_date (H := model.collaborators)
           0 fs "A" "" "Hello {{.}}" [] empty
           {| model.tName := "A"; model.layers := ["Hello {{.}}"] |}).
  - apply store_ok_New.
  - apply tables_ok_New.
  - intros k [td Hk]. unfold empty, NewTplSys in Hk.
    cbn [store tmplDB_tmplData] in Hk. by rewrite lookup_empty in Hk.
  - left. apply pair_with_snd. by vm_compute.
Qed.



(** X14 at work: [A] is added to the empty store and executed for Ada. *)
Lemma X14_witness :
  (∃ d mem',
     ExecuteTemplate "A" "Ada" withA emptyMemory = (Ok d, mem')
     ∧ bytesOf mem' d = "Hello Ada")
  ∧ (∀ other, TrimSpace other ≠ "" → tmpls (store withA) !! other = None →
       ExecuteTemplate other "Ada" withA emptyMemory
       = (Err ErrTmplNotFound, emptyMemory)).
Proof.
  apply (X14_ExecuteTemplate_after_a_call (H := model.collaborators)
           0 nofiles "A" "" "Hello {{.}}" [] empty
           {| model.tName := "A"; model.layers := ["Hello {{.}}"] |}
           withA "Ada" emptyMemory
           {| model.tName := "A"; model.layers := ["Hello {{.}}"] |}
           "Hello Ada").
  - apply reachable_New.
  - left. apply pair_with_snd. by vm_compute.
  - reflexivity.
  - reflexivity.
  - by vm_compute.
Defined.

(** A handling that went through without an error, by the files it
    reports. *)
Lemma Handled_eq (h : handled) names t :
  handledFiles h = Some names →
  h = Handled (LogModified <$> names) (handledStore h t).
Proof.
  destruct h as [log t'| | |]; simpl; try done. intros Hm. f_equal.
  revert names Hm. induction log as [|[e|name] log IH]; intros names; simpl.
  - by intros [= <-].
  - done.
  - destruct (modifiedFiles log) as [names'|]; [|done].
    intros [= <-]. simpl. f_equal. by apply IH.
Qed.





Lemma reachable_fromDisk : reachable fromDisk.
Proof.
  unfold fromDisk. apply reachable_Add; [|by vm_compute].
  apply reachable_Add; [apply reachable_New|by vm_compute].
Qed.

Lemma up_to_date_fromDisk m :
  is_Some (tmplDB_tmplData (store fromDisk) !! m) → up_to_date disk fromDisk m.
Proof.
  apply (call_keeps_up_to_date (H := model.collaborators)
           0 disk "B" "A" "" ["b.html"]
           (AddTemplate 0 disk "A" "" "Hello {{.}}" [] empty).2
           {| model.tName := "A";
              model.layers := ["Hello {{.}}"; "{{define `b`}}B{{end}}"] |}).
  - eapply store_ok_AddTemplate; [apply store_ok_New|apply surjective_pairing].
  - eapply tables_ok_call; [apply tables_ok_New|]. left. apply surjective_pairing.
  - apply up_to_date_A.
  - left. apply pair_with_snd. by vm_compute.
Qed.

(** Files that are not named are not read. *)
Lemma parseFiles_agree (fs fs0 : gmap string string) files :
  (∀ g, g ∈ files → fs !! g = fs0 !! g) →
  ∀ b, model.parseFiles fs b files = model.parseFiles fs0 b files.
Proof.
  induction files as [|g files IH]; intros Hfs b; [done|]. simpl.
  rewrite (Hfs g) by (by left). destruct (fs0 !! g); [|done].
  destruct (model.parse b s); [done|]. apply IH.
  intros g' Hin. apply Hfs. by right.
Qed.

(** X18 at work: [b.html] is written to, and [B] is parsed again. *)
Lemma X18_witness :
  same_tables fromDisk
    (handledStore
       (handleRows 5 diskAfter
          (Get_tmplFilename_filename (tmplDB_tmplFilename (store fromDisk)) "t/b.html")
          [] fromDisk) fromDisk)
  ∧ ∀ m,
      is_Some (tmplDB_tmplData
                 (store (handledStore
                    (handleRows 5 diskAfter
                       (Get_tmplFilename_filename
                          (tmplDB_tmplFilename (store fromDisk)) "t/b.html")
                       [] fromDisk) fromDisk)) !! m) →
      up_to_date diskAfter
        (handledStore
           (handleRows 5 diskAfter
              (Get_tmplFilename_filename (tmplDB_tmplFilename (store fromDisk)) "t/b.html")
              [] fromDisk) fromDisk) m.
Proof.
  apply (X18_write_event_brings_templates_up_to_date (H := model.collaborators)
           5 disk diskAfter "t/b.html"
           (Get_tmplFilename_filename (tmplDB_tmplFilename (store fromDisk)) "t/b.html")
           [] fromDisk).
  - apply reachable_live, reachable_fromDisk.
  - apply up_to_date_fromDisk.
  - intros b files Hnin. simpl. destruct files as [|g files]; [done|].
    apply parseFiles_agree. intros g' Hin.
    assert (g' ≠ "t/b.html") as Hne by (by intros ->).
    unfold diskAfter, disk. by rewrite !lookup_singleton_ne.
  - done.
  - apply (Handled_eq _ []). by vm_compute.
Defined.

End Scenarios.
